(** * Verification of the image builder orchestration core
    (github_runner_image_builder: builder.py, store.py, upload.py).

    The development embeds, module by module:
    - [Checksum]: [_validate_checksum], the chunked file read and the
      SHA-256 digest computed by [hashlib];
    - [Shasums]: [_fetch_shasums] (the SHA256SUMS manifest parser) and
      [_download_and_validate_image];
    - [Retry]: the [retry] decorator and the retry table of builder.py;
    - [Host]: the host's mount and network-block-device state, the
      cleanup commands, the chroot session manager and the
      [build_image] pipeline;
    - [Store] and [Upload]: revision pruning of the two image stores. *)

From Stdlib Require Import ZArith Lia List String Ascii Bool Sorted Permutation.
From stdpp Require Import base gmap strings list.

Import ListNotations.
Open Scope Z_scope.

(* ------------------------------------------------------------------ *)
(** ** SHA-256 and [_validate_checksum] *)

Module Checksum.

(** 32-bit word arithmetic. *)
Definition mask32 : Z := Z.ones 32.
Definition add32 (a b : Z) : Z := Z.land (a + b) mask32.
Definition rotr (x : Z) (n : Z) : Z :=
  Z.land (Z.lor (Z.shiftr x n) (Z.shiftl x (32 - n))) mask32.
Definition shr (x : Z) (n : Z) : Z := Z.shiftr x n.
Definition wnot (x : Z) : Z := Z.lxor x mask32.

Definition ch (x y z : Z) : Z := Z.lxor (Z.land x y) (Z.land (wnot x) z).
Definition maj (x y z : Z) : Z :=
  Z.lxor (Z.lxor (Z.land x y) (Z.land x z)) (Z.land y z).
Definition bsig0 (x : Z) : Z := Z.lxor (Z.lxor (rotr x 2) (rotr x 13)) (rotr x 22).
Definition bsig1 (x : Z) : Z := Z.lxor (Z.lxor (rotr x 6) (rotr x 11)) (rotr x 25).
Definition ssig0 (x : Z) : Z := Z.lxor (Z.lxor (rotr x 7) (rotr x 18)) (shr x 3).
Definition ssig1 (x : Z) : Z := Z.lxor (Z.lxor (rotr x 17) (rotr x 19)) (shr x 10).

(** The constants of FIPS 180-4 (4.2.2, 5.3.3), computed from their
    definition: the first 32 bits of the fractional parts of the cube
    roots of the first 64 primes, and of the square roots of the first 8
    primes. *)
Definition is_prime (p : Z) : bool :=
  (2 <=? p) && forallb (fun d => negb (p mod d =? 0)) (map Z.of_nat (seq 2 (Z.to_nat p - 2))).

Definition first_primes (n : nat) : list Z :=
  firstn n (List.filter is_prime (map Z.of_nat (seq 2 400))).

(** The integer cube root, by bisection on [lo^3 <= n < (hi+1)^3]. *)
Fixpoint cbrt_search (n : Z) (fuel : nat) (lo hi : Z) : Z :=
  match fuel with
  | O => lo
  | S f =>
      if lo <? hi then
        let mid := (lo + hi + 1) / 2 in
        if mid * mid * mid <=? n then cbrt_search n f mid hi else cbrt_search n f lo (mid - 1)
      else lo
  end.

Definition icbrt (n : Z) : Z := cbrt_search n 64 0 (2 ^ 40).

Definition K256 : list Z :=
  map (fun p => icbrt (p * 2 ^ 96) mod 2 ^ 32) (first_primes 64).

Definition H0 : list Z :=
  map (fun p => Z.sqrt (p * 2 ^ 64) mod 2 ^ 32) (first_primes 8).

(** Big-endian conversions between bytes and words. *)
Definition bytes_to_word (b0 b1 b2 b3 : Z) : Z :=
  Z.lor (Z.shiftl b0 24) (Z.lor (Z.shiftl b1 16) (Z.lor (Z.shiftl b2 8) b3)).

Fixpoint words_of_bytes (l : list Z) : list Z :=
  match l with
  | b0 :: b1 :: b2 :: b3 :: rest => bytes_to_word b0 b1 b2 b3 :: words_of_bytes rest
  | _ => []
  end.

Definition word_to_bytes (w : Z) : list Z :=
  [Z.land (Z.shiftr w 24) 255; Z.land (Z.shiftr w 16) 255;
   Z.land (Z.shiftr w 8) 255; Z.land w 255].

Definition len_to_bytes (n : Z) : list Z :=
  map (fun i => Z.land (Z.shiftr n (8 * (7 - i))) 255) [0; 1; 2; 3; 4; 5; 6; 7].

(** Padding: append 0x80, zeros up to 56 mod 64, then the 64-bit bit length. *)
Definition pad (msg : list Z) : list Z :=
  let l := Z.of_nat (length msg) in
  let k := (55 - l) mod 64 in
  msg ++ [0x80] ++ repeat 0 (Z.to_nat k) ++ len_to_bytes (8 * l).

(** Message schedule: extend 16 words to 64. *)
Fixpoint extend (fuel : nat) (w : list Z) : list Z :=
  match fuel with
  | O => w
  | S fuel' =>
      let t := length w in
      let wt := add32 (add32 (ssig1 (nth (t - 2) w 0)) (nth (t - 7) w 0))
                      (add32 (ssig0 (nth (t - 15) w 0)) (nth (t - 16) w 0)) in
      extend fuel' (w ++ [wt])
  end.

Definition schedule (block : list Z) : list Z := extend 48 (words_of_bytes block).

(** One round of the compression function on (a,..,h). *)
Definition round (st : list Z) (kw : Z * Z) : list Z :=
  match st with
  | [a; b; c; d; e; f; g; h] =>
      let t1 := add32 (add32 (add32 h (bsig1 e)) (add32 (ch e f g) (fst kw))) (snd kw) in
      let t2 := add32 (bsig0 a) (maj a b c) in
      [add32 t1 t2; a; b; c; add32 d t1; e; f; g]
  | _ => st
  end.

Definition compress (hs : list Z) (block : list Z) : list Z :=
  let st := fold_left round (combine K256 (schedule block)) hs in
  map (fun p => add32 (fst p) (snd p)) (combine hs st).

Fixpoint blocks (fuel : nat) (l : list Z) : list (list Z) :=
  match fuel with
  | O => []
  | S fuel' =>
      match l with
      | [] => []
      | _ => firstn 64 l :: blocks fuel' (skipn 64 l)
      end
  end.

Definition sha256_Z (msg : list Z) : list Z :=
  let p := pad msg in
  let hs := fold_left compress (blocks (length p) p) H0 in
  flat_map word_to_bytes hs.

(** Lowercase hex, as [hashlib]'s [hexdigest]. *)
Definition hex_digit (n : Z) : ascii :=
  if n <? 10 then ascii_of_nat (Z.to_nat (48 + n))
  else ascii_of_nat (Z.to_nat (87 + n)).

Fixpoint hex_of_bytes (l : list Z) : string :=
  match l with
  | [] => EmptyString
  | b :: rest =>
      String (hex_digit (Z.shiftr b 4)) (String (hex_digit (Z.land b 15)) (hex_of_bytes rest))
  end.

Definition byte_to_Z (b : Byte.byte) : Z := Z.of_N (Byte.to_N b).

(** SHA-256 of a byte string, hex encoded. *)
Definition sha256_hex (data : list Byte.byte) : string :=
  hex_of_bytes (sha256_Z (map byte_to_Z data)).

(** [hashlib.sha256()]: the object records the data passed to each
    [update] call; [hexdigest] is the digest of their concatenation. *)
Record sha256_obj := { updates : list (list Byte.byte) }.

Definition sha256_new : sha256_obj := {| updates := [] |}.
Definition sha256_update (h : sha256_obj) (data : list Byte.byte) : sha256_obj :=
  {| updates := updates h ++ [data] |}.
Definition hexdigest (h : sha256_obj) : string := sha256_hex (concat (updates h)).

(** A file opened in binary mode: its bytes and the read position. *)
Record file_obj := { content : list Byte.byte; pos : nat }.

Definition open_rb (data : list Byte.byte) : file_obj := {| content := data; pos := 0 |}.

(** [target_file.read(n)]: at most [n] bytes from the position. *)
Definition read (f : file_obj) (n : nat) : list Byte.byte * file_obj :=
  let data := firstn n (skipn (pos f) (content f)) in
  (data, {| content := content f; pos := pos f + length data |}).

Definition CHECKSUM_BUF_SIZE : nat := 65536.

(** The [while True] loop of [_validate_checksum]; [fuel] bounds the number
    of iterations (one more than the file length always suffices). *)
Fixpoint read_loop (fuel : nat) (f : file_obj) (h : sha256_obj) : sha256_obj :=
  match fuel with
  | O => h
  | S fuel' =>
      let (data, f') := read f CHECKSUM_BUF_SIZE in
      match data with
      | [] => h
      | _ => read_loop fuel' f' (sha256_update h data)
      end
  end.

(** [_validate_checksum(file, expected_checksum)]. *)
Definition _validate_checksum (file : list Byte.byte) (expected_checksum : string) : bool :=
  let h := read_loop (S (length file)) (open_rb file) sha256_new in
  String.eqb (hexdigest h) expected_checksum.

(** A sequence of reads of fixed size [n]: every chunk but the last has
    exactly [n] bytes, the last one between 1 and [n]. *)
Fixpoint chunked (n : nat) (cs : list (list Byte.byte)) : Prop :=
  match cs with
  | [] => True
  | c :: rest =>
      match rest with
      | [] => (0 < length c <= n)%nat
      | _ => length c = n /\ chunked n rest
      end
  end.

End Checksum.

(* ------------------------------------------------------------------ *)
(** ** Python values: exceptions with their [__cause__] chain *)

Module Py.

(** An exception: its class name, its message and the exception it was
    raised from ([raise X from exc]). *)
Inductive exn := Exn (name : string) (msg : string) (cause : option exn).

Definition exn_name (e : exn) : string := let 'Exn n _ _ := e in n.
Definition exn_cause (e : exn) : option exn := let 'Exn _ _ c := e in c.

(** A call either returns or raises. *)
Inductive res (A : Type) := Ok (a : A) | Err (e : exn).
Arguments Ok {A} a.
Arguments Err {A} e.

End Py.

Import Py.

(* ------------------------------------------------------------------ *)
(** ** The [retry] decorator *)

Module Retry.

(** Modelled from the spec: the [retry] decorator imported by builder.py
    from [github_runner_image_builder.utils] (§4.2 of the spec): an
    operation is attempted at most [tries] times; after a failed attempt
    [k] (counted from 0) that is not the last, the wrapper sleeps
    [min(delay * backoff^k, max_delay)] and tries again; after the last
    failed attempt the error of that attempt is raised unchanged.  The
    operation is given as the outcome of each attempt.  The result carries
    the number of attempts made and the sleeps taken. *)
Record policy := { tries : nat; delay : Z; max_delay : Z; backoff : Z }.

Definition sleep_for (p : policy) (k : nat) : Z :=
  Z.min (delay p * backoff p ^ Z.of_nat k) (max_delay p).

(** The operation may act on a state [S] (the host); attempt [k] runs
    [op k]. *)
Fixpoint retry_go {St A : Type} (p : policy) (op : nat -> St -> res A * St)
    (left k : nat) (s : St) : res A * St * nat * list Z :=
  match op k s with
  | (Ok a, s') => (Ok a, s', S k, [])
  | (Err e, s') =>
      match left with
      | O => (Err e, s', S k, [])
      | S left' =>
          let '(r, s'', n, sl) := retry_go p op left' (S k) s' in
          (r, s'', n, sleep_for p k :: sl)
      end
  end.

Definition retry_st {St A : Type} (p : policy) (op : nat -> St -> res A * St) (s : St)
  : res A * St * nat * list Z :=
  retry_go p op (Nat.pred (tries p)) 0 s.

(** A stateless operation: the result, the attempts made, the sleeps. *)
Definition retry {A : Type} (p : policy) (op : nat -> res A) : res A * nat * list Z :=
  let '(r, _, n, sl) := retry_st p (fun k (_ : unit) => (op k, tt)) tt in (r, n, sl).

(** The functions of builder.py. *)
Inductive builder_fn :=
| F_initialize | F_install_dependencies | F_enable_network_block_device
| F_build_image | F_disconnect_image_to_network_block_device | F_unmount_build_path
| F_download_and_validate_image | F_get_supported_runner_arch | F_download_base_image
| F_fetch_shasums | F_validate_checksum | F_resize_image
| F_connect_image_to_network_block_device | F_mount_network_block_device_partition
| F_resize_mount_partitions | F_install_yq | F_replace_mounted_resolv_conf
| F_disable_unattended_upgrades | F_configure_system_users | F_configure_usr_local_bin
| F_install_yarn | F_compress_image.

Definition all_builder_fns : list builder_fn :=
  [F_initialize; F_install_dependencies; F_enable_network_block_device;
   F_build_image; F_disconnect_image_to_network_block_device; F_unmount_build_path;
   F_download_and_validate_image; F_get_supported_runner_arch; F_download_base_image;
   F_fetch_shasums; F_validate_checksum; F_resize_image;
   F_connect_image_to_network_block_device; F_mount_network_block_device_partition;
   F_resize_mount_partitions; F_install_yq; F_replace_mounted_resolv_conf;
   F_disable_unattended_upgrades; F_configure_system_users; F_configure_usr_local_bin;
   F_install_yarn; F_compress_image].

(** The [@retry(tries=..., delay=..., max_delay=..., backoff=...)]
    decorations of builder.py. *)
Definition retry_decorator (f : builder_fn) : option policy :=
  match f with
  | F_download_base_image => Some {| tries := 3; delay := 5; max_delay := 30; backoff := 2 |}
  | F_fetch_shasums => Some {| tries := 3; delay := 5; max_delay := 30; backoff := 2 |}
  | F_mount_network_block_device_partition =>
      Some {| tries := 5; delay := 5; max_delay := 60; backoff := 2 |}
  | F_install_yq => Some {| tries := 3; delay := 5; max_delay := 30; backoff := 2 |}
  | F_compress_image => Some {| tries := 5; delay := 5; max_delay := 60; backoff := 2 |}
  | _ => None
  end.

Definition retried_fns : list builder_fn :=
  List.filter (fun f => match retry_decorator f with Some _ => true | None => false end)
    all_builder_fns.

End Retry.

(* ------------------------------------------------------------------ *)
(** ** [_fetch_shasums] and [_download_and_validate_image] *)

Module Shasums.
Import Retry.

(** Python [str.isspace] on characters below 256 (read as code points). *)
Definition is_space (c : ascii) : bool :=
  match nat_of_ascii c with
  | 9 | 10 | 11 | 12 | 13 | 28 | 29 | 30 | 31 | 32 | 133 | 160 => true
  | _ => false
  end%nat.

(** Line boundaries of [str.splitlines] ([\r\n] is handled apart). *)
Definition is_linebreak (c : ascii) : bool :=
  match nat_of_ascii c with
  | 10 | 11 | 12 | 13 | 28 | 29 | 30 | 133 => true
  | _ => false
  end%nat.

Definition CR : ascii := ascii_of_nat 13.
Definition LF : ascii := ascii_of_nat 10.
Definition STAR : ascii := "*"%char.

Fixpoint lstrip_by (p : ascii -> bool) (l : list ascii) : list ascii :=
  match l with
  | c :: l' => if p c then lstrip_by p l' else l
  | [] => []
  end.

(** [s.strip()] and [s.strip("*")]. *)
Definition strip_by (p : ascii -> bool) (l : list ascii) : list ascii :=
  rev (lstrip_by p (rev (lstrip_by p l))).
Definition strip (l : list ascii) : list ascii := strip_by is_space l.
Definition strip_star (l : list ascii) : list ascii :=
  strip_by (fun c => Ascii.eqb c STAR) l.

(** [s.split()]: maximal runs of non-space characters; [cur] is the
    current field, reversed. *)
Fixpoint split_aux (l : list ascii) (cur : list ascii) : list (list ascii) :=
  match l with
  | [] => match cur with [] => [] | _ => [rev cur] end
  | c :: l' =>
      if is_space c then
        match cur with
        | [] => split_aux l' []
        | _ => rev cur :: split_aux l' []
        end
      else split_aux l' (c :: cur)
  end.
Definition split (l : list ascii) : list (list ascii) := split_aux l [].

(** [s.splitlines()]: a final line break opens no new line. *)
Fixpoint splitlines_aux (l : list ascii) (cur : list ascii) : list (list ascii) :=
  match l with
  | [] => match cur with [] => [] | _ => [rev cur] end
  | c :: l' =>
      if Ascii.eqb c CR then
        match l' with
        | c' :: l'' => if Ascii.eqb c' LF then rev cur :: splitlines_aux l'' []
                       else rev cur :: splitlines_aux l' []
        | [] => rev cur :: splitlines_aux l' []
        end
      else if is_linebreak c then rev cur :: splitlines_aux l' []
      else splitlines_aux l' (c :: cur)
  end.
Definition splitlines (l : list ascii) : list (list ascii) := splitlines_aux l [].

(** One step of the dict comprehension
    [{parts[1].strip("*"): parts[0] for line in ... if (parts := line.split())}];
    a line with a single field raises [IndexError] on [parts[1]]. *)
Definition add_line (acc : res (gmap string string)) (line : list ascii)
  : res (gmap string string) :=
  match acc with
  | Err e => Err e
  | Ok m =>
      match split line with
      | [] => Ok m
      | [_] => Err (Exn "IndexError" "list index out of range" None)
      | d :: f :: _ => Ok (<[string_of_list_ascii (strip_star f) := string_of_list_ascii d]> m)
      end
  end.

(** The parsing part of [_fetch_shasums] on the decoded response body. *)
Definition shasums_of_contents (shasum_contents : string) : res (gmap string string) :=
  fold_left add_line (splitlines (strip (list_ascii_of_string shasum_contents))) (Ok ∅).

Inductive Arch := ARM64 | X64.
Inductive BaseImage := JAMMY | NOBLE.

Definition base_image_value (b : BaseImage) : string :=
  match b with JAMMY => "jammy" | NOBLE => "noble" end.

(** [_get_supported_runner_arch]; the [case _] branch is unreachable on
    the two members of [Arch]. *)
Definition _get_supported_runner_arch (arch : Arch) : string :=
  match arch with X64 => "amd64" | ARM64 => "arm64" end.

(** What the network and the disk give to one run of the download step:
    the outcome of each [urlretrieve] attempt, of each [requests.get]
    attempt (the body of the response), and the bytes of the downloaded
    image.  An error of [urlretrieve] is named by its class in
    [urllib.error] (or by its builtin class), an error of [requests.get] by
    its class in [requests.exceptions]. *)
Record download_env := {
  urlretrieve_attempt : nat -> res unit;
  requests_get_attempt : nat -> res string;
  downloaded_bytes : list Byte.byte
}.

Definition download_policy : policy :=
  {| tries := 3; delay := 5; max_delay := 30; backoff := 2 |}.

(** The classes [except urllib.error.URLError] catches: [URLError] and
    its two subclasses in [urllib.error]. *)
Definition URL_ERROR_CLASSES : list string := ["URLError"; "HTTPError"; "ContentTooShortError"].

Definition is_url_error (e : exn) : bool := existsb (String.eqb (exn_name e)) URL_ERROR_CLASSES.

(** The classes [except requests.RequestException] catches:
    [RequestException] and its subclasses in [requests.exceptions]. *)
Definition REQUEST_EXCEPTION_CLASSES : list string :=
  ["RequestException"; "InvalidJSONError"; "JSONDecodeError"; "HTTPError"; "ConnectionError";
   "ProxyError"; "SSLError"; "Timeout"; "ConnectTimeout"; "ReadTimeout"; "URLRequired";
   "TooManyRedirects"; "MissingSchema"; "InvalidSchema"; "InvalidURL"; "InvalidHeader";
   "InvalidProxyURL"; "ChunkedEncodingError"; "ContentDecodingError"; "StreamConsumedError";
   "RetryError"; "UnrewindableBodyError"].

Definition is_request_exception (e : exn) : bool :=
  existsb (String.eqb (exn_name e)) REQUEST_EXCEPTION_CLASSES.

(** One attempt of [_download_base_image]. *)
Definition _download_base_image_attempt (env : download_env) (output_filename : string)
    (k : nat) : res string :=
  match urlretrieve_attempt env k with
  | Ok _ => Ok output_filename
  | Err e =>
      if is_url_error e
      then Err (Exn "BaseImageDownloadError" "" (Some e)) else Err e
  end.

(** One attempt of [_fetch_shasums]. *)
Definition _fetch_shasums_attempt (env : download_env) (k : nat) : res (gmap string string) :=
  match requests_get_attempt env k with
  | Err e =>
      if is_request_exception e
      then Err (Exn "BaseImageDownloadError" "" (Some e)) else Err e
  | Ok body => shasums_of_contents body
  end.

Definition missing_checksum_error : exn :=
  Exn "BaseImageDownloadError" "Corresponding checksum not found." None.
Definition invalid_checksum_error : exn :=
  Exn "BaseImageDownloadError" "Invalid checksum." None.

(** [_download_and_validate_image]: the result, with the number of
    attempts made by the two retried calls. *)
Record download_run := {
  dl_result : res string;
  download_attempts : nat;
  fetch_attempts : nat
}.

Definition _download_and_validate_image (arch : Arch) (base_image : BaseImage)
    (env : download_env) : download_run :=
  let bin_arch := _get_supported_runner_arch arch in
  let image_path_str :=
    (base_image_value base_image ++ "-server-cloudimg-" ++ bin_arch ++ ".img")%string in
  let '(r1, n1, _) := retry download_policy (_download_base_image_attempt env image_path_str) in
  match r1 with
  | Err e => {| dl_result := Err e; download_attempts := n1; fetch_attempts := 0 |}
  | Ok image_path =>
      let '(r2, n2, _) := retry download_policy (_fetch_shasums_attempt env) in
      match r2 with
      | Err e => {| dl_result := Err e; download_attempts := n1; fetch_attempts := n2 |}
      | Ok shasums =>
          let r :=
            match shasums !! image_path_str with
            | None => Err missing_checksum_error
            | Some d =>
                if Checksum._validate_checksum (downloaded_bytes env) d
                then Ok image_path else Err invalid_checksum_error
            end in
          {| dl_result := r; download_attempts := n1; fetch_attempts := n2 |}
      end
  end.

(** A manifest of lines ["<digest> *<filename>"], one per entry. *)
Definition manifest_line (entry : string * string) : string :=
  (fst entry ++ " *" ++ snd entry)%string.

Fixpoint manifest (entries : list (string * string)) : string :=
  match entries with
  | [] => EmptyString
  | e :: rest => (manifest_line e ++ String LF (manifest rest))%string
  end.

(** Entries of the form the manifest documents: a digest and a file name,
    neither empty nor holding white space, the name not beginning or ending
    with ['*']. *)
Definition well_formed_entry (entry : string * string) : Prop :=
  let ld := list_ascii_of_string (fst entry) in
  let lf := list_ascii_of_string (snd entry) in
  ld <> [] /\ Forall (fun c => is_space c = false) ld /\
  lf <> [] /\ Forall (fun c => is_space c = false) lf /\
  hd_error lf <> Some STAR /\ hd_error (rev lf) <> Some STAR.

(** The map the manifest describes: later lines override earlier ones. *)
Definition manifest_map (entries : list (string * string)) : gmap string string :=
  fold_left (fun m e => <[snd e := fst e]> m) entries ∅.

End Shasums.

(* ------------------------------------------------------------------ *)
(** ** The host: mounts, the network block device, commands *)

Module Host.
Import Retry.

Definition IMAGE_MOUNT_DIR : string := "/mnt/ubuntu-image".
Definition NETWORK_BLOCK_DEVICE_PATH : string := "/dev/nbd0".
Definition NETWORK_BLOCK_DEVICE_PARTITION_PATH : string := "/dev/nbd0p1".
Definition RESIZE_AMOUNT : string := "+1.5G".
Definition MOUNTED_RESOLV_CONF_PATH : string := "/mnt/ubuntu-image/etc/resolv.conf".
Definition HOST_RESOLV_CONF_PATH : string := "/etc/resolv.conf".
Definition YQ_REPOSITORY_URL : string := "https://github.com/mikefarah/yq.git".
Definition YQ_REPOSITORY_PATH : string := "yq_source".
Definition HOST_YQ_BIN_PATH : string := "/usr/bin/yq".
Definition MOUNTED_YQ_BIN_PATH : string := "/mnt/ubuntu-image/usr/bin/yq".
Definition IMAGE_OUTPUT_PATH : string := "compressed.img".
Definition IMAGE_DEFAULT_APT_PACKAGES : list string :=
  ["docker.io"; "gh"; "jq"; "npm"; "python3-pip"; "python-is-python3";
   "shellcheck"; "unzip"; "wget"]%string.

(** [IMAGE_MOUNT_DIR / name]. *)
Definition mount_subpath (name : string) : string := (IMAGE_MOUNT_DIR ++ "/" ++ name)%string.

(** The commands the code runs; [Run] is any other allow-listed binary,
    by its argument vector. *)
Inductive cmd :=
| Umount (target : string)
| NbdConnect (dev image : string)
| NbdDisconnect (dev : string)
| MountRw (src tgt : string)
| MountBind (src tgt : string)
| Run (argv : list string).

Inductive outcome := Exited (code : Z) | TimedOut.

(** What a run leaves behind, in order. *)
Inductive event :=
| ECmd (c : cmd) (o : outcome)
| EMkdir (path : string)
| EDownload
| EUnlink (path : string)
| ECopy (src dst : string)
| EAppend (path line : string)
| EChroot (new_root : string)
| EChrootExit.

Definition cmd_eq_dec (c1 c2 : cmd) : {c1 = c2} + {c1 <> c2}.
Proof. decide equality; try apply string_dec; apply (List.list_eq_dec string_dec). Defined.

Definition outcome_eq_dec (o1 o2 : outcome) : {o1 = o2} + {o1 <> o2}.
Proof. decide equality; apply Z.eq_dec. Defined.

Definition event_eq_dec (e1 e2 : event) : {e1 = e2} + {e1 <> e2}.
Proof. decide equality; first [apply string_dec | apply cmd_eq_dec | apply outcome_eq_dec]. Defined.

(** The host as the build sees it: the mount table as (source, target)
    pairs in mount order, the image attached to [/dev/nbd0], the process
    root, whether the yq sources were cloned, and the commands the host
    makes fail or hang ([fault c = Some o] forces outcome [o]). *)
Record host := {
  mounts : list (string * string);
  nbd_image : option string;
  root : string;
  yq_source : bool;
  fault : cmd -> option outcome
}.

Definition set_mounts (h : host) (ms : list (string * string)) : host :=
  {| mounts := ms; nbd_image := nbd_image h; root := root h;
     yq_source := yq_source h; fault := fault h |}.
Definition set_nbd (h : host) (img : option string) : host :=
  {| mounts := mounts h; nbd_image := img; root := root h;
     yq_source := yq_source h; fault := fault h |}.
Definition set_root (h : host) (r : string) : host :=
  {| mounts := mounts h; nbd_image := nbd_image h; root := r;
     yq_source := yq_source h; fault := fault h |}.
Definition set_yq (h : host) (b : bool) : host :=
  {| mounts := mounts h; nbd_image := nbd_image h; root := root h;
     yq_source := b; fault := fault h |}.

Definition pair_eqb (m1 m2 : string * string) : bool :=
  String.eqb (fst m1) (fst m2) && String.eqb (snd m1) (snd m2).

Fixpoint remove_first (m : string * string) (ms : list (string * string)) :=
  match ms with
  | [] => []
  | m' :: rest => if pair_eqb m m' then rest else m' :: remove_first m rest
  end.

Definition is_under (dir p : string) : bool := String.prefix (dir ++ "/") p.

(** [umount t]: [t] names the source or the target of a mount; a mount
    point with mounts below it is busy. Exit code 32 is mount's failure. *)
Definition umount_sem (h : host) (t : string) : outcome * host :=
  match find (fun m => String.eqb (fst m) t || String.eqb (snd m) t) (mounts h) with
  | None => (Exited 32, h)
  | Some m =>
      if existsb (fun m' => is_under (snd m) (snd m')) (mounts h) then (Exited 32, h)
      else (Exited 0, set_mounts h (remove_first m (mounts h)))
  end.

Definition git_clone_argv : list string :=
  ["/usr/bin/git"; "clone"; YQ_REPOSITORY_URL; YQ_REPOSITORY_PATH]%string.

(** What a command does when the host lets it run normally. *)
Definition cmd_sem (h : host) (c : cmd) : outcome * host :=
  match c with
  | Umount t => umount_sem h t
  | NbdConnect dev img =>
      if String.eqb dev NETWORK_BLOCK_DEVICE_PATH then
        match nbd_image h with
        | None => (Exited 0, set_nbd h (Some img))
        | Some _ => (Exited 1, h)
        end
      else (Exited 1, h)
  | NbdDisconnect dev =>
      if String.eqb dev NETWORK_BLOCK_DEVICE_PATH then (Exited 0, set_nbd h None)
      else (Exited 0, h)
  | MountRw src tgt =>
      if String.eqb src NETWORK_BLOCK_DEVICE_PARTITION_PATH then
        match nbd_image h with
        | Some _ => (Exited 0, set_mounts h (mounts h ++ [(src, tgt)]))
        | None => (Exited 32, h)
        end
      else (Exited 32, h)
  | MountBind src tgt => (Exited 0, set_mounts h (mounts h ++ [(src, tgt)]))
  | Run argv =>
      if List.list_eq_dec string_dec argv git_clone_argv then (Exited 0, set_yq h true)
      else (Exited 0, h)
  end.

Definition exec (h : host) (c : cmd) : outcome * host :=
  match fault h c with
  | Some o => (o, h)
  | None => cmd_sem h c
  end.

(** The build as a state, error and trace monad over the host. *)
Definition M (A : Type) : Type := host -> res A * host * list event.

Definition ret {A : Type} (a : A) : M A := fun h => (Ok a, h, []).
Definition raise {A : Type} (e : exn) : M A := fun h => (Err e, h, []).
Definition bind {A B : Type} (m : M A) (k : A -> M B) : M B :=
  fun h =>
    match m h with
    | (Ok a, h1, l1) => let '(r, h2, l2) := k a h1 in (r, h2, l1 ++ l2)
    | (Err e, h1, l1) => (Err e, h1, l1)
    end.
Definition emit (ev : event) : M unit := fun h => (Ok tt, h, [ev]).
Definition get : M host := fun h => (Ok h, h, []).
Definition modify (f : host -> host) : M unit := fun h => (Ok tt, f h, []).

(** [try: m except <sel> as exc: handler(exc)]. *)
Definition try_except {A : Type} (m : M A) (sel : exn -> bool) (handler : exn -> M A) : M A :=
  fun h =>
    match m h with
    | (Err e, h1, l1) =>
        if sel e then let '(r, h2, l2) := handler e h1 in (r, h2, l1 ++ l2)
        else (Err e, h1, l1)
    | r => r
    end.

Notation "'let*' x ':=' m 'in' k" := (bind m (fun x => k))
  (at level 200, x name, m at level 100, k at level 200).

Definition argv_of (c : cmd) : list string :=
  match c with
  | Umount t => ["/usr/bin/umount"; t]
  | NbdConnect dev img => ["/usr/bin/qemu-nbd"; "--connect=" ++ dev; img]
  | NbdDisconnect dev => ["/usr/bin/qemu-nbd"; "--disconnect"; dev]
  | MountRw src tgt => ["/usr/bin/mount"; "-o"; "rw"; src; tgt]
  | MountBind src tgt => ["/usr/bin/mount"; "--bind"; src; tgt]
  | Run argv => argv
  end%string.

Definition CalledProcessError (c : cmd) : exn :=
  Exn "CalledProcessError" (String.concat " " (argv_of c)) None.
Definition TimeoutExpired (c : cmd) : exn :=
  Exn "TimeoutExpired" (String.concat " " (argv_of c)) None.

(** [subprocess.SubprocessError] and its subclasses. *)
Definition is_subprocess_error (e : exn) : bool :=
  String.eqb (exn_name e) "CalledProcessError" || String.eqb (exn_name e) "TimeoutExpired".

(** [subprocess.run(argv, check=check, timeout=...)] (and
    [check_output] with [check = true]): a timeout raises
    [TimeoutExpired] whatever [check] is. *)
Definition run (c : cmd) (check : bool) : M unit :=
  fun h =>
    let '(o, h') := exec h c in
    let r := match o with
             | TimedOut => Err (TimeoutExpired c)
             | Exited z => if check && negb (Z.eqb z 0) then Err (CalledProcessError c) else Ok tt
             end in
    (r, h', [ECmd c o]).

(** [except CalledProcessError / SubprocessError as exc: raise <name> from exc]. *)
Definition wrap {A : Type} (name : string) (m : M A) : M A :=
  try_except m is_subprocess_error (fun e => raise (Exn name "" (Some e))).

(** A retried function, through [Retry.retry_st] on host and trace. *)
Definition logged_attempt {A : Type} (op : M A) (_ : nat) (s : host * list event)
  : res A * (host * list event) :=
  let '(h0, tr0) := s in
  let '(r, h1, l) := op h0 in (r, (h1, tr0 ++ l)).

Definition retry_M {A : Type} (p : policy) (op : M A) : M A :=
  fun h =>
    let '(r, (h', tr), _, _) := retry_st p (logged_attempt op) (h, []) in
    (r, h', tr).

(** [_unmount_build_path]. *)
Definition _unmount_build_path : M unit :=
  wrap "UnmountBuildPathError" (
    let* _ := run (Umount (mount_subpath "dev")) false in
    let* _ := run (Umount (mount_subpath "proc")) false in
    let* _ := run (Umount (mount_subpath "sys")) false in
    let* _ := run (Umount IMAGE_MOUNT_DIR) false in
    let* _ := run (Umount NETWORK_BLOCK_DEVICE_PATH) false in
    run (Umount NETWORK_BLOCK_DEVICE_PARTITION_PATH) false).

(** [_disconnect_image_to_network_block_device(check)]. *)
Definition _disconnect_image_to_network_block_device (check : bool) : M unit :=
  wrap "ImageConnectError" (
    let* _ := run (NbdDisconnect NETWORK_BLOCK_DEVICE_PATH) check in
    run (NbdDisconnect NETWORK_BLOCK_DEVICE_PARTITION_PATH) check).

(** The clean-state pass at the start of [build_image]. *)
Definition clean_build_state : M unit :=
  let* _ := _unmount_build_path in
  _disconnect_image_to_network_block_device false.

(** No build resource left: no mount of the build paths, nothing on the
    network block device. *)
Definition build_path (p : string) : bool :=
  String.eqb p IMAGE_MOUNT_DIR || is_under IMAGE_MOUNT_DIR p ||
  String.eqb p NETWORK_BLOCK_DEVICE_PATH || String.eqb p NETWORK_BLOCK_DEVICE_PARTITION_PATH.

Definition clean (h : host) : Prop :=
  Forall (fun m => build_path (fst m) = false /\ build_path (snd m) = false) (mounts h) /\
  nbd_image h = None.

(** The commands of the clean-state pass, in the order it runs them. *)
Definition cleanup_cmds : list cmd :=
  [Umount (mount_subpath "dev"); Umount (mount_subpath "proc");
   Umount (mount_subpath "sys"); Umount IMAGE_MOUNT_DIR;
   Umount NETWORK_BLOCK_DEVICE_PATH; Umount NETWORK_BLOCK_DEVICE_PARTITION_PATH;
   NbdDisconnect NETWORK_BLOCK_DEVICE_PATH; NbdDisconnect NETWORK_BLOCK_DEVICE_PARTITION_PATH].

Definition cmd_of_event (ev : event) : option cmd :=
  match ev with ECmd c _ => Some c | _ => None end.

(* ------------------------------------------------------------------ *)
(** *** The chroot manager *)

(** Modelled from the spec: [ChrootContextManager] and [ChrootBaseError],
    imported by builder.py from [github_runner_image_builder.chroot]
    (§4.5). Entering binds host [/dev], [/proc] and [/sys] under the root
    in that order, then changes the process root; a failed bind unbinds
    what was bound and raises [ChrootBaseError] from the failure. Exiting,
    after success or error, changes the root back to the one the session
    started from, then attempts the unbind of [sys], [proc] and [dev] in
    that order, each one whatever happened to the previous; an unbind
    failure is left in the trace only, the result of the body is the
    result of the session. *)
Definition CHROOT_BIND_PATHS : list string := ["dev"; "proc"; "sys"]%string.

Definition chroot_subpath (new_root p : string) : string := (new_root ++ "/" ++ p)%string.

(** Run [m], keep its effects and trace, drop its error. *)
Definition attempt (m : M unit) : M unit :=
  fun h => let '(_, h', l) := m h in (Ok tt, h', l).

Fixpoint unbind_all (new_root : string) (ps : list string) : M unit :=
  match ps with
  | [] => ret tt
  | p :: ps' =>
      let* _ := attempt (run (Umount (chroot_subpath new_root p)) true) in
      unbind_all new_root ps'
  end.

(** [bound] lists the paths already bound, last bound first. *)
Fixpoint bind_all (new_root : string) (ps bound : list string) : M unit :=
  match ps with
  | [] => ret tt
  | p :: ps' =>
      fun h =>
        match run (MountBind ("/" ++ p)%string (chroot_subpath new_root p)) true h with
        | (Ok _, h1, l1) =>
            let '(r, h2, l2) := bind_all new_root ps' (p :: bound) h1 in (r, h2, l1 ++ l2)
        | (Err e, h1, l1) =>
            let '(_, h2, l2) := unbind_all new_root bound h1 in
            (Err (Exn "ChrootBaseError" "" (Some e)), h2, l1 ++ l2)
        end
  end.

Definition chroot_exit (new_root original : string) : M unit :=
  let* _ := emit EChrootExit in
  let* _ := modify (fun h => set_root h original) in
  unbind_all new_root (rev CHROOT_BIND_PATHS).

(** [with ChrootContextManager(new_root): body]. *)
Definition chroot_session {A : Type} (new_root : string) (body : M A) : M A :=
  let* h0 := get in
  let* _ := bind_all new_root CHROOT_BIND_PATHS [] in
  let* _ := emit (EChroot new_root) in
  let* _ := modify (fun h => set_root h new_root) in
  fun h =>
    let '(r, h1, l1) := body h in
    let '(_, h2, l2) := chroot_exit new_root (root h0) h1 in
    (r, h2, l1 ++ l2).

(* ------------------------------------------------------------------ *)
(** *** The steps of [build_image] *)

Fixpoint run_checked (cs : list cmd) : M unit :=
  match cs with
  | [] => ret tt
  | c :: cs' => let* _ := run c true in run_checked cs'
  end.

(** [_download_and_validate_image], from [Shasums]; it does not touch the
    host. *)
Definition download_step (arch : Shasums.Arch) (base : Shasums.BaseImage)
    (env : Shasums.download_env) : M string :=
  fun h => (Shasums.dl_result (Shasums._download_and_validate_image arch base env), h, [EDownload]).

Definition _resize_image (image_path : string) : M unit :=
  wrap "ImageResizeError" (run (Run ["/usr/bin/qemu-img"; "resize"; image_path; RESIZE_AMOUNT]%string) true).

Definition mount_policy : policy := {| tries := 5; delay := 5; max_delay := 60; backoff := 2 |}.

Definition _mount_network_block_device_partition : M unit :=
  retry_M mount_policy (run (MountRw NETWORK_BLOCK_DEVICE_PARTITION_PATH IMAGE_MOUNT_DIR) true).

Definition _connect_image_to_network_block_device (image_path : string) : M unit :=
  wrap "ImageConnectError" (
    let* _ := run (NbdConnect NETWORK_BLOCK_DEVICE_PATH image_path) true in
    _mount_network_block_device_partition).

Definition growpart_cmd : cmd := Run ["/usr/bin/growpart"; NETWORK_BLOCK_DEVICE_PATH; "1"]%string.
Definition resize2fs_cmd : cmd := Run ["/usr/sbin/resize2fs"; NETWORK_BLOCK_DEVICE_PARTITION_PATH]%string.

Definition _resize_mount_partitions : M unit :=
  wrap "ResizePartitionError" (let* _ := run growpart_cmd true in run resize2fs_cmd true).

Definition yq_policy : policy := {| tries := 3; delay := 5; max_delay := 30; backoff := 2 |}.

Definition _install_yq : M unit :=
  retry_M yq_policy (wrap "YQBuildError" (
    let* h := get in
    let* _ := (if yq_source h then run (Run ["/usr/bin/git"; "-C"; YQ_REPOSITORY_PATH; "pull"]%string) true
               else run (Run git_clone_argv) true) in
    let* _ := run (Run ["/snap/bin/go"; "build"; "-C"; YQ_REPOSITORY_PATH; "-o"; HOST_YQ_BIN_PATH]%string) true in
    emit (ECopy HOST_YQ_BIN_PATH MOUNTED_YQ_BIN_PATH))).

(** [unlink(missing_ok=True)], then [shutil.copy]. *)
Definition _replace_mounted_resolv_conf : M unit :=
  let* _ := emit (EUnlink MOUNTED_RESOLV_CONF_PATH) in
  emit (ECopy HOST_RESOLV_CONF_PATH MOUNTED_RESOLV_CONF_PATH).

Definition _disable_unattended_upgrades : M unit :=
  wrap "UnattendedUpgradeDisableError" (run_checked (map Run
    [["/usr/bin/systemctl"; "stop"; "apt-daily.timer"];
     ["/usr/bin/systemctl"; "disable"; "apt-daily.timer"];
     ["/usr/bin/systemctl"; "mask"; "apt-daily.service"];
     ["/usr/bin/systemctl"; "stop"; "apt-daily-upgrade.timer"];
     ["/usr/bin/systemctl"; "disable"; "apt-daily-upgrade.timer"];
     ["/usr/bin/systemctl"; "mask"; "apt-daily-upgrade.service"];
     ["/usr/bin/systemctl"; "daemon-reload"];
     ["/usr/bin/apt-get"; "remove"; "-y"; "unattended-upgrades"]]%string)).

Definition _configure_system_users : M unit :=
  wrap "SystemUserConfigurationError" (
    let* _ := run (Run ["/usr/sbin/useradd"; "-m"; "ubuntu"]%string) true in
    let* _ := emit (EAppend "/home/ubuntu/.profile" "PATH=$PATH:/home/ubuntu/.local/bin") in
    let* _ := emit (EAppend "/home/ubuntu/.bashrc" "PATH=$PATH:/home/ubuntu/.local/bin") in
    let* _ := run (Run ["/usr/sbin/groupadd"; "microk8s"]%string) true in
    run (Run ["/usr/sbin/usermod"; "-aG"; "docker,microk8s,lxd"; "ubuntu"]%string) true).

Definition _configure_usr_local_bin : M unit :=
  wrap "PermissionConfigurationError" (run (Run ["/usr/bin/chmod"; "777"; "/usr/local/bin"]%string) true).

Definition _install_yarn : M unit :=
  wrap "YarnInstallError" (
    let* _ := run (Run ["/usr/bin/npm"; "install"; "--global"; "yarn"]%string) true in
    run (Run ["/usr/bin/npm"; "cache"; "clean"; "--force"]%string) true).

(** The body of [with ChrootContextManager(IMAGE_MOUNT_DIR)]. *)
Definition chroot_body : M unit :=
  let* _ := run (Run ["/usr/bin/apt-get"; "update"; "-y"]%string) true in
  let* _ := run (Run (["/usr/bin/apt-get"; "install"; "-y"; "--no-install-recommends"]%string
                      ++ IMAGE_DEFAULT_APT_PACKAGES)) true in
  let* _ := _disable_unattended_upgrades in
  let* _ := _configure_system_users in
  let* _ := _configure_usr_local_bin in
  _install_yarn.

Definition compress_policy : policy := {| tries := 5; delay := 5; max_delay := 60; backoff := 2 |}.

Definition _compress_image (image : string) : M unit :=
  retry_M compress_policy (wrap "ImageCompressError"
    (run (Run ["/usr/bin/virt-sparsify"; "--compress"; image; IMAGE_OUTPUT_PATH]%string) true)).

Definition is_chroot_error (e : exn) : bool := String.eqb (exn_name e) "ChrootBaseError".

(** [build_image(arch, base_image)]. *)
Definition build_image (arch : Shasums.Arch) (base : Shasums.BaseImage)
    (env : Shasums.download_env) : M unit :=
  let* _ := _unmount_build_path in
  let* _ := _disconnect_image_to_network_block_device false in
  let* _ := emit (EMkdir IMAGE_MOUNT_DIR) in
  let* base_image_path := download_step arch base env in
  let* _ := _resize_image base_image_path in
  let* _ := _connect_image_to_network_block_device base_image_path in
  let* _ := _resize_mount_partitions in
  let* _ := _install_yq in
  let* _ := _replace_mounted_resolv_conf in
  let* _ := try_except (chroot_session IMAGE_MOUNT_DIR chroot_body) is_chroot_error
              (fun exc => raise (Exn "BuildImageError" "" (Some exc))) in
  let* _ := _disconnect_image_to_network_block_device true in
  _compress_image base_image_path.

(** [e1] occurs in [tr] strictly before some occurrence of [e2]. *)
Fixpoint occurs_before (e1 e2 : event) (tr : list event) : bool :=
  match tr with
  | [] => false
  | e :: tr' =>
      if event_eq_dec e e1 then existsb (fun e' => if event_eq_dec e' e2 then true else false) tr'
      else occurs_before e1 e2 tr'
  end.

End Host.

(* ------------------------------------------------------------------ *)
(** ** store.py: upload and revision pruning *)

Module Store.
Import Py.

(** An image of the registry ([openstack.image.v2.image.Image]): its
    [id], [name] and [created_at]. *)
Record image := { image_id : string; image_name : string; created_at : Z }.

(** The registry, as seen through the SDK calls the code makes: the
    images it holds, whether [search_images] raises, what
    [delete_image(id, wait=True)] does for each id (returns [True] and
    deletes, returns [False], or raises [OpenStackCloudException]),
    whether [create_image] raises, and the id and timestamp the next
    created image gets. *)
Inductive delete_outcome := Deleted | NotDeleted | DeleteRaises.

Record cloud := {
  images : list image;
  search_fails : bool;
  delete_image_result : string -> delete_outcome;
  create_fails : bool;
  next_id : string;
  now : Z }.

(** The SDK calls made, and the log lines written, in order. *)
Inductive call := CSearch (name : string) | CDelete (id : string) | CCreate (name : string)
| CLogError (msg : string).

Definition deleted_ids (t : list call) : list string :=
  flat_map (fun c => match c with CDelete i => [i] | _ => [] end) t.

Definition OpenStackCloudException : exn := Exn "OpenStackCloudException" "" None.

Definition is_openstack_cloud_exception (e : exn) : bool :=
  String.eqb (exn_name e) "OpenStackCloudException".

(** [connection.search_images(name)]: the images with that name. *)
Definition search_images (c : cloud) (nm : string) : list image :=
  List.filter (fun i => String.eqb (image_name i) nm) (images c).

(** [sorted(images, key=lambda image: image.created_at, reverse=True)]:
    a stable sort, newest first; images with equal timestamps keep their
    order. *)
Fixpoint insert_desc (x : image) (l : list image) : list image :=
  match l with
  | [] => [x]
  | y :: l' => if (created_at x <=? created_at y)%Z then y :: insert_desc x l' else x :: l
  end.

Definition sort_desc (l : list image) : list image :=
  fold_left (fun acc x => insert_desc x acc) l [].

(** Python's [l[k:]], [k] possibly negative. *)
Definition py_slice_from {A : Type} (k : Z) (l : list A) : list A :=
  if (0 <=? k)%Z then skipn (Z.to_nat k) l
  else skipn (length l - Z.to_nat (- k)) l.

Definition remove_image (c : cloud) (i : string) : cloud :=
  {| images := List.filter (fun x => negb (String.eqb (image_id x) i)) (images c);
     search_fails := search_fails c; delete_image_result := delete_image_result c;
     create_fails := create_fails c; next_id := next_id c; now := now c |}.

Definition add_image (c : cloud) (x : image) : cloud :=
  {| images := images c ++ [x];
     search_fails := search_fails c; delete_image_result := delete_image_result c;
     create_fails := create_fails c; next_id := next_id c; now := now c |}.

(** [connection.delete_image(id, wait=True)]. *)
Definition delete_image (c : cloud) (i : string) : delete_outcome * cloud :=
  match delete_image_result c i with
  | Deleted => (Deleted, remove_image c i)
  | o => (o, c)
  end.

(** [connection.create_image(name=..., ...)]. *)
Definition create_image (c : cloud) (nm : string) : res string * cloud * list call :=
  if create_fails c then (Err OpenStackCloudException, c, [CCreate nm])
  else (Ok (next_id c),
        add_image c {| image_id := next_id c; image_name := nm; created_at := now c |},
        [CCreate nm]).

(** [OpenstackError] is imported by store.py from errors.py, which
    declares no class of that name; it is modelled as the class name it
    would carry, not a subclass of [OpenStackCloudException]. *)
Definition _get_sorted_images_by_created_at (c : cloud) (nm : string)
  : res (list image) * cloud * list call :=
  if search_fails c then (Err (Exn "OpenstackError" "" (Some OpenStackCloudException)), c, [CSearch nm])
  else (Ok (sort_desc (search_images c nm)), c, [CSearch nm]).

(** The [for image in images_to_prune] loop of [_prune_old_images]. *)
Fixpoint prune_loop (c : cloud) (l : list image) : res unit * cloud * list call :=
  match l with
  | [] => (Ok tt, c, [])
  | i :: l' =>
      let '(o, c1) := delete_image c (image_id i) in
      match o with
      | Deleted =>
          let '(r, c2, t) := prune_loop c1 l' in (r, c2, CDelete (image_id i) :: t)
      | NotDeleted =>
          (Err (Exn "OpenstackError" ("Failed to delete image: " ++ image_id i) None), c1,
           [CDelete (image_id i)])
      | DeleteRaises =>
          (Err (Exn "OpenstackError" "" (Some OpenStackCloudException)), c1, [CDelete (image_id i)])
      end
  end.

Definition _prune_old_images (c : cloud) (nm : string) (num_revisions : Z)
  : res unit * cloud * list call :=
  match _get_sorted_images_by_created_at c nm with
  | (Err e, c1, t1) => (Err e, c1, t1)
  | (Ok [], c1, t1) => (Ok tt, c1, t1)
  | (Ok imgs, c1, t1) =>
      let '(r, c2, t2) := prune_loop c1 (py_slice_from num_revisions imgs) in (r, c2, t1 ++ t2)
  end.

Definition get_latest_build_id (c : cloud) (nm : string) : res string * cloud * list call :=
  match _get_sorted_images_by_created_at c nm with
  | (Err e, c1, t1) => (Err e, c1, t1)
  | (Ok [], c1, t1) => (Ok "", c1, t1)
  | (Ok (i :: _), c1, t1) => (Ok (image_id i), c1, t1)
  end.

(** [upload_image]: create, then prune, then return the id; only an
    [OpenStackCloudException] is caught, as [UploadImageError]. *)
Definition catch_cloud_exception (e : exn) : exn :=
  if is_openstack_cloud_exception e then Exn "UploadImageError" "" (Some e) else e.

Definition upload_image (c : cloud) (nm : string) (keep_revisions : Z)
  : res string * cloud * list call :=
  match create_image c nm with
  | (Err e, c1, t1) => (Err (catch_cloud_exception e), c1, t1)
  | (Ok iid, c1, t1) =>
      match _prune_old_images c1 nm keep_revisions with
      | (Ok _, c2, t2) => (Ok iid, c2, t1 ++ t2)
      | (Err e, c2, t2) => (Err (catch_cloud_exception e), c2, t1 ++ t2)
      end
  end.

End Store.

(* ------------------------------------------------------------------ *)
(** ** upload.py: [OpenstackManager] *)

Module Upload.
Import Py Store.

Definition _get_images_by_latest (c : cloud) (nm : string) : res (list image) * cloud * list call :=
  if search_fails c then
    (Err (Exn "OpenstackConnectionError" "" (Some OpenStackCloudException)), c, [CSearch nm])
  else (Ok (sort_desc (search_images c nm)), c, [CSearch nm]).

(** Each failure is logged and the loop goes on. *)
Fixpoint prune_loop (c : cloud) (l : list image) : cloud * list call :=
  match l with
  | [] => (c, [])
  | i :: l' =>
      let '(o, c1) := delete_image c (image_id i) in
      let logged :=
        match o with
        | Deleted => []
        | NotDeleted => [CLogError ("Failed to delete old image, " ++ image_id i)]
        | DeleteRaises => [CLogError "Failed to prune old image, "]
        end in
      let '(c2, t) := prune_loop c1 l' in (c2, CDelete (image_id i) :: logged ++ t)
  end.

Definition _prune_old_images (c : cloud) (nm : string) (num_revisions : Z)
  : res unit * cloud * list call :=
  match _get_images_by_latest c nm with
  | (Err e, c1, t1) => (Err e, c1, t1)
  | (Ok imgs, c1, t1) =>
      let '(c2, t2) := prune_loop c1 (py_slice_from num_revisions imgs) in (Ok tt, c2, t1 ++ t2)
  end.

(** [OpenstackManager.upload_image]: prune to [num_revisions - 1], then
    create; only an [OpenStackCloudException] is caught. *)
Definition upload_image (c : cloud) (nm : string) (num_revisions : Z)
  : res string * cloud * list call :=
  match _prune_old_images c nm (num_revisions - 1) with
  | (Err e, c1, t1) => (Err (catch_cloud_exception e), c1, t1)
  | (Ok _, c1, t1) =>
      let '(r, c2, t2) := create_image c1 nm in
      match r with
      | Ok iid => (Ok iid, c2, t1 ++ t2)
      | Err e => (Err (catch_cloud_exception e), c2, t1 ++ t2)
      end
  end.

End Upload.

(* ------------------------------------------------------------------ *)
(** ** config.py: architectures and base images *)

Module Config.
Import Py Shasums.

(** [Arch.value]. *)
Definition arch_value (a : Arch) : string :=
  match a with ARM64 => "arm64" | X64 => "x64" end.

(** [Arch.to_openstack]; the final [raise ValueError] is unreachable on
    the two members of [Arch]. *)
Definition to_openstack (a : Arch) : string :=
  match a with ARM64 => "aarch64" | X64 => "x86_64" end.

Definition ARCHITECTURES_ARM64 : list string := ["aarch64"; "arm64"]%string.
Definition ARCHITECTURES_X86 : list string := ["x86_64"]%string.

(** [get_supported_arch], given what [platform.machine()] returns. *)
Definition get_supported_arch (machine : string) : res Arch :=
  if existsb (String.eqb machine) ARCHITECTURES_ARM64 then Ok ARM64
  else if existsb (String.eqb machine) ARCHITECTURES_X86 then Ok X64
  else Err (Exn "UnsupportedArchitectureError" "" None).

(** [BaseImage(value)]: the member with that value, else [ValueError]. *)
Definition base_image_of_value (v : string) : res BaseImage :=
  if String.eqb v (base_image_value JAMMY) then Ok JAMMY
  else if String.eqb v (base_image_value NOBLE) then Ok NOBLE
  else Err (Exn "ValueError" ("'" ++ v ++ "' is not a valid BaseImage") None).

Definition LTS_IMAGE_VERSION_TAG_MAP : gmap string string :=
  <["22.04" := base_image_value JAMMY]> (<["24.04" := base_image_value NOBLE]> ∅).

(** [BaseImage.from_str]. *)
Definition from_str (tag_or_name : string) : res BaseImage :=
  match LTS_IMAGE_VERSION_TAG_MAP !! tag_or_name with
  | Some v => base_image_of_value v
  | None => base_image_of_value tag_or_name
  end.

End Config.

(* ------------------------------------------------------------------ *)
(** ** builder.py: [initialize] *)

Module Setup.
Import Py Host.

Definition APT_DEPENDENCIES : list string :=
  ["qemu-utils"; "libguestfs-tools"; "cloud-utils"; "golang-go"]%string.
Definition SNAP_GO : string := "go".

Definition is_called_process_error (e : exn) : bool :=
  String.eqb (exn_name e) "CalledProcessError".

(** [except subprocess.CalledProcessError as exc: raise <name> from exc];
    a [TimeoutExpired] is not caught. *)
Definition wrap_called_process_error {A : Type} (name : string) (m : M A) : M A :=
  try_except m is_called_process_error (fun e => raise (Exn name "" (Some e))).

(** The three [check_output] calls of [_install_dependencies]. *)
Definition install_dependencies_cmds : list cmd :=
  [Run ["/usr/bin/apt-get"; "update"; "-y"]%string;
   Run (["/usr/bin/apt-get"; "install"; "-y"; "--no-install-recommends"]%string ++ APT_DEPENDENCIES);
   Run ["/usr/bin/snap"; "install"; SNAP_GO; "--classic"]%string].

Definition _install_dependencies : M unit :=
  wrap_called_process_error "DependencyInstallError" (run_checked install_dependencies_cmds).

Definition modprobe_nbd_cmd : cmd := Run ["/usr/sbin/modprobe"; "nbd"]%string.

Definition _enable_network_block_device : M unit :=
  wrap_called_process_error "NetworkBlockDeviceError" (run modprobe_nbd_cmd true).

Definition initialize : M unit :=
  let* _ := _install_dependencies in
  _enable_network_block_device.

End Setup.

(* ================================================================== *)
(** * Proofs *)

Module ChecksumFacts.
Import Checksum.

Lemma buf_pos : (0 < CHECKSUM_BUF_SIZE)%nat.
Proof. apply Nat.ltb_lt. vm_compute. reflexivity. Qed.

Lemma read_step (f : file_obj) (n : nat) :
  let r := skipn (pos f) (content f) in
  fst (read f n) = firstn n r /\
  skipn (pos (snd (read f n))) (content (snd (read f n))) = skipn n r.
Proof.
  simpl. split; [reflexivity|].
  rewrite Nat.add_comm, <- skipn_skipn.
  set (r := skipn (pos f) (content f)).
  rewrite length_firstn.
  destruct (Nat.le_ge_cases n (length r)).
  - rewrite Nat.min_l by lia. reflexivity.
  - rewrite Nat.min_r by lia. rewrite !skipn_all2 by lia. reflexivity.
Qed.

Lemma read_loop_shape (fuel : nat) :
  forall (f : file_obj) (h : sha256_obj),
  (length (skipn (pos f) (content f)) < fuel)%nat ->
  exists cs,
    updates (read_loop fuel f h) = updates h ++ cs /\
    concat cs = skipn (pos f) (content f) /\
    chunked CHECKSUM_BUF_SIZE cs.
Proof.
  induction fuel as [|fuel IH]; intros f h Hlen; [lia|].
  destruct (read_step f CHECKSUM_BUF_SIZE) as [Hd Hr].
  cbn [read_loop]. destruct (read f CHECKSUM_BUF_SIZE) as [data f'] eqn:Er.
  simpl in Hd, Hr. set (r := skipn (pos f) (content f)) in *.
  destruct data as [|b bs] eqn:Ed.
  - exists []. rewrite app_nil_r. split; [reflexivity|].
    destruct r as [|x xs]; [split; simpl; auto|].
    unfold CHECKSUM_BUF_SIZE in Hd. simpl in Hd. discriminate.
  - rewrite <- Ed in *.
    assert (Hlt : (length (skipn (pos f') (content f')) < fuel)%nat).
    { rewrite Hr, length_skipn.
      assert (length data > 0)%nat by (subst data; simpl; lia).
      rewrite Hd, length_firstn in H. unfold CHECKSUM_BUF_SIZE in *. lia. }
    destruct (IH f' (sha256_update h data) Hlt) as [cs [Hu [Hc Hk]]].
    exists (data :: cs). split.
    + rewrite Hu. simpl. rewrite <- app_assoc. reflexivity.
    + split.
      * simpl. rewrite Hc, Hr, Hd. apply firstn_skipn.
      * simpl. destruct cs as [|c cs'].
        -- simpl in Hc. rewrite Hr in Hc.
           assert (length data > 0)%nat by (subst data; simpl; lia).
           rewrite Hd, length_firstn in *.
           pose proof (f_equal (@length _) Hc) as HL. rewrite length_skipn in HL.
           simpl in HL. lia.
        -- split; [|exact Hk].
           rewrite Hd, length_firstn.
           destruct (Nat.le_ge_cases CHECKSUM_BUF_SIZE (length r)); [lia|].
           exfalso.
           rewrite Hr, skipn_all2 in Hc by lia.
           (* the remaining chunks are all non-empty *)
           destruct cs' as [|c' cs'']; simpl in Hk.
           ++ simpl in Hc. rewrite app_nil_r in Hc. subst c. simpl in Hk. lia.
           ++ destruct Hk as [Hk _]. simpl in Hc.
              apply (f_equal (@length _)) in Hc. rewrite length_app in Hc.
              pose proof buf_pos. simpl in Hc. lia.
Qed.

Lemma validate_digest (file : list Byte.byte) :
  hexdigest (read_loop (S (length file)) (open_rb file) sha256_new) = sha256_hex file.
Proof.
  destruct (read_loop_shape (S (length file)) (open_rb file) sha256_new)
    as [cs [Hu [Hc _]]]; [idtac|].
  { unfold open_rb; cbn. rewrite length_skipn. lia. }
  unfold hexdigest. rewrite Hu. simpl. rewrite Hc. reflexivity.
Qed.

Definition empty_sha256 : string :=
  "e3b0c44298fc1c149afbf4c8996fb92427ae41e4649b934ca495991b7852b855".

(** C6: [_validate_checksum] reads the file with [read(CHECKSUM_BUF_SIZE)]
    where [CHECKSUM_BUF_SIZE = 65536], so the updates of the hash object
    are 64KB chunks (the last one shorter) whose concatenation is the whole
    file; it returns [true] exactly when the lowercase hex SHA-256 of the
    file is equal, character for character, to the expected string, and
    [false] otherwise (it never fails); an empty file gets the SHA-256
    digest of the empty string, and the uppercase spelling of that digest
    is refused. *)
Theorem validate_checksum_spec :
  CHECKSUM_BUF_SIZE = 65536%nat /\
  (forall file : list Byte.byte,
     exists cs, updates (read_loop (S (length file)) (open_rb file) sha256_new) = cs /\
                concat cs = file /\ chunked CHECKSUM_BUF_SIZE cs) /\
  (forall (file : list Byte.byte) (expected : string),
     _validate_checksum file expected = true <-> sha256_hex file = expected) /\
  (forall (file : list Byte.byte) (expected : string),
     sha256_hex file <> expected -> _validate_checksum file expected = false) /\
  _validate_checksum [] empty_sha256 = true /\
  _validate_checksum []
    "E3B0C44298FC1C149AFBF4C8996FB92427AE41E4649B934CA495991B7852B855" = false.
Proof.
  split; [reflexivity|]. split.
  { intros file.
    destruct (read_loop_shape (S (length file)) (open_rb file) sha256_new)
      as [cs [Hu [Hc Hk]]]; [unfold open_rb; cbn; rewrite length_skipn; lia|].
    exists cs. split; [exact Hu|]. split; [exact Hc|exact Hk]. }
  split.
  { intros file expected. unfold _validate_checksum.
    rewrite validate_digest. apply String.eqb_eq. }
  split.
  { intros file expected Hne. unfold _validate_checksum.
    rewrite validate_digest. apply String.eqb_neq. exact Hne. }
  split; vm_compute; reflexivity.
Qed.

End ChecksumFacts.

Module RetryFacts.
Import Retry.

Lemma retry_go_inv {St A : Type} (Inv : St -> Prop) (p : policy)
    (op : nat -> St -> res A * St) :
  (forall k s, Inv s -> Inv (snd (op k s))) ->
  forall left k s r s' n sl, Inv s -> retry_go p op left k s = (r, s', n, sl) -> Inv s'.
Proof.
  intros Hop left. induction left as [|left IH]; intros k s r s' n sl Hs; cbn [retry_go];
    pose proof (Hop k s Hs) as Hs1; destruct (op k s) as [[a|e] s1]; cbn [snd] in Hs1.
  - intros [= _ <- _ _]. exact Hs1.
  - intros [= _ <- _ _]. exact Hs1.
  - intros [= _ <- _ _]. exact Hs1.
  - destruct (retry_go p op left (S k) s1) as [[[r2 s2] n2] sl2] eqn:E.
    intros [= <- <- <- <-]. exact (IH _ _ _ _ _ _ Hs1 E).
Qed.

(** A successful retried call ends in a successful attempt, made on a
    state the invariant holds of. *)
Lemma retry_go_ok {St A : Type} (Inv : St -> Prop) (p : policy)
    (op : nat -> St -> res A * St) :
  (forall k s, Inv s -> Inv (snd (op k s))) ->
  forall left k s a s' n sl, Inv s -> retry_go p op left k s = (Ok a, s', n, sl) ->
  exists j s0, Inv s0 /\ op j s0 = (Ok a, s').
Proof.
  intros Hop left. induction left as [|left IH]; intros k s a s' n sl Hs; cbn [retry_go];
    pose proof (Hop k s Hs) as Hs1; destruct (op k s) as [[a1|e] s1] eqn:Ek; cbn [snd] in Hs1.
  - intros [= -> <- _ _]. eauto.
  - discriminate.
  - intros [= -> <- _ _]. eauto.
  - destruct (retry_go p op left (S k) s1) as [[[r2 s2] n2] sl2] eqn:E.
    intros [= -> <- <- <-]. exact (IH _ _ _ _ _ _ Hs1 E).
Qed.

Lemma retry_first_ok {A : Type} (p : policy) (op : nat -> res A) (a : A) :
  op 0%nat = Ok a -> retry p op = (Ok a, 1%nat, []).
Proof.
  intros H. unfold retry, retry_st. destruct (Nat.pred (tries p)); simpl; rewrite H; reflexivity.
Qed.

End RetryFacts.

Module ShasumsFacts.
Import Shasums.

Lemma list_ascii_app (a b : string) :
  list_ascii_of_string (a ++ b) = list_ascii_of_string a ++ list_ascii_of_string b.
Proof. induction a as [|c a IH]; simpl; [reflexivity|]. rewrite IH. reflexivity. Qed.

Lemma list_ascii_cons (c : ascii) (s : string) :
  list_ascii_of_string (String c s) = c :: list_ascii_of_string s.
Proof. reflexivity. Qed.

Lemma nonspace_chars (c : ascii) :
  is_space c = false -> is_linebreak c = false /\ Ascii.eqb c CR = false.
Proof. destruct c as [[] [] [] [] [] [] [] []]; vm_compute; intuition congruence. Qed.

Definition line (e : string * string) : list ascii :=
  list_ascii_of_string (fst e) ++ [" "%char; STAR] ++ list_ascii_of_string (snd e).

Fixpoint body (entries : list (string * string)) : list ascii :=
  match entries with
  | [] => []
  | [e] => line e
  | e :: rest => line e ++ LF :: body rest
  end.

Lemma manifest_body (e : string * string) (rest : list (string * string)) :
  list_ascii_of_string (manifest (e :: rest)) = body (e :: rest) ++ [LF].
Proof.
  revert e. induction rest as [|e' rest IH]; intros e.
  - simpl. rewrite list_ascii_app. simpl. unfold line, manifest_line.
    rewrite !list_ascii_app. simpl. rewrite <- !app_assoc. reflexivity.
  - change (manifest (e :: e' :: rest)) with
      (manifest_line e ++ String LF (manifest (e' :: rest)))%string.
    rewrite list_ascii_app, list_ascii_cons, IH. cbn [body]. unfold line, manifest_line. rewrite !list_ascii_app.
    simpl. rewrite <- !app_assoc. reflexivity.
Qed.

Lemma lstrip_keep (p : ascii -> bool) (c : ascii) (l : list ascii) :
  p c = false -> lstrip_by p (c :: l) = c :: l.
Proof. intros H. simpl. rewrite H. reflexivity. Qed.

Lemma body_shape (e : string * string) (rest : list (string * string)) :
  Forall well_formed_entry (e :: rest) ->
  exists c1 c2 mid, body (e :: rest) = c1 :: mid ++ [c2] /\
    is_space c1 = false /\ is_space c2 = false.
Proof.
  revert e. induction rest as [|e' rest IH]; intros e Hwf;
    inversion Hwf as [|? ? [Hd [Hds [Hf [Hfs _]]]] Hrest]; subst.
  - cbn [body]. unfold line.
    destruct (list_ascii_of_string (fst e)) as [|c1 ld] eqn:Ed; [congruence|].
    destruct (exists_last Hf) as [lf [c2 Ef]].
    exists c1, c2, (ld ++ [" "%char; STAR] ++ lf). split.
    + rewrite Ef. simpl. rewrite <- !app_assoc. reflexivity.
    + split; [inversion Hds; assumption|].
      rewrite Ef in Hfs.
      apply Forall_app in Hfs. destruct Hfs as [_ Hx]. inversion Hx. assumption.
  - destruct (IH e' Hrest) as [c1' [c2 [mid' [Hb [_ Hc2]]]]].
    change (body (e :: e' :: rest)) with (line e ++ LF :: body (e' :: rest)).
    unfold line at 1.
    destruct (list_ascii_of_string (fst e)) as [|c1 ld] eqn:Ed; [congruence|].
    rewrite Hb.
    exists c1, c2, (ld ++ [" "%char; STAR] ++ list_ascii_of_string (snd e) ++ LF :: c1' :: mid').
    split.
    + repeat (rewrite <- app_assoc || (progress (cbn [app]))). reflexivity.
    + split; [inversion Hds; assumption|exact Hc2].
Qed.

Lemma lstrip_drop (p : ascii -> bool) (c : ascii) (l : list ascii) :
  p c = true -> lstrip_by p (c :: l) = lstrip_by p l.
Proof. intros H. simpl. rewrite H. reflexivity. Qed.

Lemma strip_manifest (e : string * string) (rest : list (string * string)) :
  Forall well_formed_entry (e :: rest) ->
  strip (list_ascii_of_string (manifest (e :: rest))) = body (e :: rest).
Proof.
  intros Hwf. rewrite manifest_body.
  destruct (body_shape e rest Hwf) as [c1 [c2 [mid [Hb [H1 H2]]]]].
  rewrite Hb. unfold strip, strip_by.
  change ((c1 :: mid ++ [c2]) ++ [LF]) with (c1 :: (mid ++ [c2]) ++ [LF]).
  rewrite lstrip_keep by exact H1.
  change (c1 :: (mid ++ [c2]) ++ [LF]) with (((c1 :: mid) ++ [c2]) ++ [LF]).
  rewrite !rev_unit.
  rewrite lstrip_drop by reflexivity.
  rewrite lstrip_keep by exact H2.
  change (rev (c2 :: rev (c1 :: mid))) with (rev (rev (c1 :: mid)) ++ [c2]).
  rewrite rev_involutive. reflexivity.
Qed.

Lemma line_chars (e : string * string) :
  well_formed_entry e ->
  Forall (fun c => is_linebreak c = false /\ Ascii.eqb c CR = false) (line e).
Proof.
  intros [_ [Hds [_ [Hfs _]]]]. unfold line.
  apply Forall_app. split; [|apply Forall_app; split].
  - eapply Forall_impl; [exact Hds|]. intros c Hc. apply nonspace_chars, Hc.
  - repeat constructor.
  - eapply Forall_impl; [exact Hfs|]. intros c Hc. apply nonspace_chars, Hc.
Qed.

Lemma splitlines_word (w rest cur : list ascii) :
  Forall (fun c => is_linebreak c = false /\ Ascii.eqb c CR = false) w ->
  splitlines_aux (w ++ rest) cur = splitlines_aux rest (rev w ++ cur).
Proof.
  revert cur. induction w as [|c w IH]; intros cur Hw; [reflexivity|].
  inversion Hw as [|? ? [Hb Hcr] Hw']; subst.
  simpl. rewrite Hcr, Hb, IH by exact Hw'. rewrite <- app_assoc. reflexivity.
Qed.

Lemma line_nonempty (e : string * string) : line e <> [].
Proof. unfold line. intros H. apply app_eq_nil in H. destruct H as [_ H]. discriminate. Qed.

Lemma splitlines_LF (l cur : list ascii) :
  splitlines_aux (LF :: l) cur = rev cur :: splitlines_aux l [].
Proof. reflexivity. Qed.

Lemma splitlines_body (e : string * string) (rest : list (string * string)) :
  Forall well_formed_entry (e :: rest) ->
  splitlines (body (e :: rest)) = map line (e :: rest).
Proof.
  unfold splitlines. revert e. induction rest as [|e' rest IH]; intros e Hwf;
    inversion Hwf as [|? ? He Hrest]; subst.
  - cbn [body]. rewrite <- (app_nil_r (line e)) at 1.
    rewrite splitlines_word by (apply line_chars; exact He).
    rewrite app_nil_r. simpl.
    destruct (rev (line e)) as [|c l] eqn:Er.
    + exfalso. apply (line_nonempty e). apply (f_equal (@rev _)) in Er.
      rewrite rev_involutive in Er. exact Er.
    + rewrite <- Er, rev_involutive. reflexivity.
  - change (body (e :: e' :: rest)) with (line e ++ LF :: body (e' :: rest)).
    rewrite splitlines_word by (apply line_chars; exact He).
    rewrite splitlines_LF, app_nil_r, rev_involutive, IH by exact Hrest.
    reflexivity.
Qed.

Lemma split_word (w rest cur : list ascii) :
  Forall (fun c => is_space c = false) w ->
  split_aux (w ++ rest) cur = split_aux rest (rev w ++ cur).
Proof.
  revert cur. induction w as [|c w IH]; intros cur Hw; [reflexivity|].
  inversion Hw as [|? ? Hc Hw']; subst.
  simpl. rewrite Hc, IH by exact Hw'. rewrite <- app_assoc. reflexivity.
Qed.

Lemma split_line (e : string * string) :
  well_formed_entry e ->
  split (line e) = [list_ascii_of_string (fst e); STAR :: list_ascii_of_string (snd e)].
Proof.
  intros [Hd [Hds [Hf [Hfs _]]]]. unfold split, line.
  rewrite split_word by exact Hds. rewrite app_nil_r.
  simpl split_aux at 1.
  destruct (rev (list_ascii_of_string (fst e))) as [|c l] eqn:Er.
  { exfalso. apply Hd. apply (f_equal (@rev _)) in Er. rewrite rev_involutive in Er. exact Er. }
  rewrite <- Er, rev_involutive. f_equal.
  simpl split_aux.
  rewrite <- (app_nil_r (list_ascii_of_string (snd e))).
  rewrite split_word by exact Hfs. rewrite app_nil_r. simpl.
  destruct (rev (list_ascii_of_string (snd e)) ++ [STAR]) as [|c' l'] eqn:E2.
  { apply app_eq_nil in E2. destruct E2 as [_ E2]. discriminate. }
  rewrite <- E2, rev_app_distr, rev_involutive. reflexivity.
Qed.

Lemma strip_star_name (lf : list ascii) :
  hd_error lf <> Some STAR -> hd_error (rev lf) <> Some STAR ->
  strip_star (STAR :: lf) = lf.
Proof.
  intros H1 H2. unfold strip_star, strip_by.
  rewrite lstrip_drop by reflexivity.
  destruct lf as [|c lf]; [reflexivity|].
  rewrite lstrip_keep by (apply Ascii.eqb_neq; intros ->; apply H1; reflexivity).
  destruct (rev (c :: lf)) as [|c' l] eqn:Er; [simpl in Er; destruct (rev lf); discriminate|].
  rewrite lstrip_keep by (apply Ascii.eqb_neq; intros ->; apply H2; reflexivity).
  rewrite <- Er, rev_involutive. reflexivity.
Qed.

Lemma fold_lines (entries : list (string * string)) (m : gmap string string) :
  Forall well_formed_entry entries ->
  fold_left add_line (map line entries) (Ok m) =
  Ok (fold_left (fun m e => <[snd e := fst e]> m) entries m).
Proof.
  revert m. induction entries as [|e rest IH]; intros m Hwf; [reflexivity|].
  inversion Hwf as [|? ? He Hrest]; subst. simpl.
  rewrite split_line by exact He.
  destruct He as [_ [_ [_ [_ [H1 H2]]]]].
  rewrite strip_star_name by assumption.
  rewrite !string_of_list_ascii_of_string. apply IH, Hrest.
Qed.

Lemma shasums_of_manifest (entries : list (string * string)) :
  Forall well_formed_entry entries ->
  shasums_of_contents (manifest entries) = Ok (manifest_map entries).
Proof.
  intros Hwf. destruct entries as [|e rest]; [reflexivity|].
  unfold shasums_of_contents. rewrite strip_manifest by exact Hwf.
  rewrite splitlines_body by exact Hwf. apply fold_lines, Hwf.
Qed.

Lemma fold_insert_absent (entries : list (string * string)) (m : gmap string string) (f : string) :
  ~ In f (map snd entries) ->
  fold_left (fun m e => <[snd e := fst e]> m) entries m !! f = m !! f.
Proof.
  revert m. induction entries as [|e rest IH]; intros m Hf; [reflexivity|].
  simpl. rewrite IH.
  - apply lookup_insert_ne. intros Heq. apply Hf. left. exact Heq.
  - intros Hin. apply Hf. right. exact Hin.
Qed.

Lemma fold_insert_present (entries : list (string * string)) (m : gmap string string)
    (d f : string) :
  List.NoDup (map snd entries) -> In (d, f) entries ->
  fold_left (fun m e => <[snd e := fst e]> m) entries m !! f = Some d.
Proof.
  revert m. induction entries as [|e rest IH]; intros m Hnd Hin; [destruct Hin|].
  simpl in Hnd. apply NoDup_cons_iff in Hnd. destruct Hnd as [Hnotin Hnd].
  simpl. destruct Hin as [-> | Hin].
  - rewrite fold_insert_absent by exact Hnotin. apply lookup_insert_eq.
  - apply IH; assumption.
Qed.

Definition spec_manifest : string :=
  manifest [("abc123", "jammy-server-cloudimg-amd64.img");
            ("def456", "noble-server-cloudimg-amd64.img")]%string.

(** C7: the manifest parser of [_fetch_shasums] maps each file name of a
    manifest of lines ["<digest> *<filename>"] to its digest (the
    spec's two-line manifest gives ["abc123"] for the jammy image and
    nothing for the focal one); in [_download_and_validate_image], once
    the download and the manifest fetch have returned, a file name absent
    from the manifest fails with "Corresponding checksum not found.", a
    present entry whose digest does not match fails with "Invalid
    checksum.", a matching one returns the image path, and in all three
    cases each retried call was made exactly once: the two validation
    failures are not retried. *)
Theorem fetch_shasums_lookup :
  (match shasums_of_contents spec_manifest with
   | Ok m => m !! "jammy-server-cloudimg-amd64.img"%string = Some "abc123"%string /\
             m !! "focal-server-cloudimg-amd64.img"%string = None
   | Err _ => False
   end) /\
  (forall entries : list (string * string),
     Forall well_formed_entry entries ->
     shasums_of_contents (manifest entries) = Ok (manifest_map entries)) /\
  (forall (entries : list (string * string)) (f : string),
     ~ In f (map snd entries) -> manifest_map entries !! f = None) /\
  (forall (entries : list (string * string)) (d f : string),
     List.NoDup (map snd entries) -> In (d, f) entries ->
     manifest_map entries !! f = Some d) /\
  (forall (arch : Arch) (base : BaseImage) (env : download_env)
          (entries : list (string * string)),
     Forall well_formed_entry entries ->
     urlretrieve_attempt env 0%nat = Ok tt ->
     requests_get_attempt env 0%nat = Ok (manifest entries) ->
     let name := (base_image_value base ++ "-server-cloudimg-" ++
                  _get_supported_runner_arch arch ++ ".img")%string in
     (~ In name (map snd entries) ->
        _download_and_validate_image arch base env =
        {| dl_result := Err missing_checksum_error;
           download_attempts := 1; fetch_attempts := 1 |}) /\
     (forall d, manifest_map entries !! name = Some d ->
        Checksum._validate_checksum (downloaded_bytes env) d = false ->
        _download_and_validate_image arch base env =
        {| dl_result := Err invalid_checksum_error;
           download_attempts := 1; fetch_attempts := 1 |}) /\
     (forall d, manifest_map entries !! name = Some d ->
        Checksum._validate_checksum (downloaded_bytes env) d = true ->
        _download_and_validate_image arch base env =
        {| dl_result := Ok name; download_attempts := 1; fetch_attempts := 1 |})).
Proof.
  split; [vm_compute; split; reflexivity|].
  split; [exact shasums_of_manifest|].
  split; [intros entries f Hf; unfold manifest_map; rewrite fold_insert_absent by exact Hf;
          apply lookup_empty|].
  split; [intros entries d f Hnd Hin; unfold manifest_map; apply fold_insert_present; assumption|].
  intros arch base env entries Hwf Hu Hg name.
  assert (Hdl : Retry.retry download_policy (_download_base_image_attempt env name) =
                (Ok name, 1%nat, [])).
  { apply RetryFacts.retry_first_ok. unfold _download_base_image_attempt. rewrite Hu. reflexivity. }
  assert (Hfe : Retry.retry download_policy (_fetch_shasums_attempt env) =
                (Ok (manifest_map entries), 1%nat, [])).
  { apply RetryFacts.retry_first_ok. unfold _fetch_shasums_attempt. rewrite Hg.
    apply shasums_of_manifest, Hwf. }
  unfold _download_and_validate_image. fold name. rewrite Hdl, Hfe.
  split; [|split].
  - intros Hn. unfold manifest_map. rewrite fold_insert_absent by exact Hn.
    rewrite lookup_empty. reflexivity.
  - intros d Hd Hv. rewrite Hd, Hv. reflexivity.
  - intros d Hd Hv. rewrite Hd, Hv. reflexivity.
Qed.

Definition jammy_only : list (string * string) :=
  [("abc123", "jammy-server-cloudimg-amd64.img")]%string.

Definition witness_env : download_env :=
  {| urlretrieve_attempt := fun _ => Ok tt;
     requests_get_attempt := fun _ => Ok (manifest jammy_only);
     downloaded_bytes := [] |}.

Lemma fetch_shasums_lookup_witness :
  _download_and_validate_image X64 NOBLE witness_env =
  {| dl_result := Err missing_checksum_error; download_attempts := 1; fetch_attempts := 1 |}.
Proof.
  destruct fetch_shasums_lookup as [_ [_ [_ [_ H]]]].
  destruct (H X64 NOBLE witness_env jammy_only) as [Hm _].
  - unfold jammy_only. constructor; [|constructor].
    unfold well_formed_entry. cbn -[is_space].
    repeat split; try discriminate; repeat constructor.
  - reflexivity.
  - reflexivity.
  - apply Hm. simpl. intros [Heq | []]. discriminate.
Defined.

End ShasumsFacts.

(* ------------------------------------------------------------------ *)
(** ** The clean-state pass *)

Module CleanupFacts.
Import Host.

Lemma cmd_sem_exits (h : host) (c : cmd) : fst (cmd_sem h c) <> TimedOut.
Proof.
  destruct c; cbn [cmd_sem]; unfold umount_sem; repeat case_match; discriminate.
Qed.

Lemma cmd_sem_fault (h : host) (c : cmd) : fault (snd (cmd_sem h c)) = fault h.
Proof.
  destruct c; cbn [cmd_sem]; unfold umount_sem; repeat case_match; reflexivity.
Qed.

Lemma exec_fault (h : host) (c : cmd) : fault (snd (exec h c)) = fault h.
Proof.
  unfold exec. destruct (fault h c); [reflexivity | apply cmd_sem_fault].
Qed.

Lemma run_nocheck (h : host) (c : cmd) :
  fault h c <> Some TimedOut ->
  run c false h = (Ok tt, snd (exec h c), [ECmd c (fst (exec h c))]).
Proof.
  intros Hc. unfold run.
  destruct (exec h c) as [o h'] eqn:E. cbn [fst snd].
  destruct o as [z|]; [reflexivity|].
  exfalso. unfold exec in E. destruct (fault h c) as [o'|] eqn:F.
  - inversion E; subst. exact (Hc eq_refl).
  - pose proof (cmd_sem_exits h c) as Hx. rewrite E in Hx. exact (Hx eq_refl).
Qed.

(** On a host with nothing mounted and nothing attached, umount and
    qemu-nbd --disconnect change nothing that matters. *)
Definition fresh (h : host) : Prop := mounts h = [] /\ nbd_image h = None.

Lemma exec_umount_fresh (h : host) (t : string) :
  fresh h -> fresh (snd (exec h (Umount t))).
Proof.
  intros [Hm Hn]. unfold exec. destruct (fault h (Umount t)); cbn [fst snd].
  - split; assumption.
  - cbn [cmd_sem]. unfold umount_sem. rewrite Hm. cbn. split; assumption.
Qed.

Lemma exec_disconnect_fresh (h : host) (d : string) :
  fresh h -> fresh (snd (exec h (NbdDisconnect d))).
Proof.
  intros [Hm Hn]. unfold exec. destruct (fault h (NbdDisconnect d)); cbn [fst snd].
  - split; assumption.
  - unfold cmd_sem. destruct (String.eqb d NETWORK_BLOCK_DEVICE_PATH); cbn; split; first [assumption | reflexivity].
Qed.

Lemma fresh_clean (h : host) : fresh h -> clean h.
Proof. intros [Hm Hn]. split; [rewrite Hm; constructor | exact Hn]. Qed.

Ltac nocheck Hno :=
  match goal with
  | |- context [run ?c false ?h] =>
      rewrite (run_nocheck h c) by (rewrite ?exec_fault; apply Hno; cbn [cleanup_cmds In]; tauto)
  end; cbv beta iota zeta.

Lemma clean_build_state_run (h : host) :
  (forall c, In c cleanup_cmds -> fault h c <> Some TimedOut) ->
  exists h' tr, clean_build_state h = (Ok tt, h', tr) /\
    map cmd_of_event tr = map Some cleanup_cmds /\
    h' = snd (exec (snd (exec (snd (exec (snd (exec (snd (exec (snd (exec (snd (exec (snd (exec h
           (Umount (mount_subpath "dev")))) (Umount (mount_subpath "proc"))))
           (Umount (mount_subpath "sys")))) (Umount IMAGE_MOUNT_DIR)))
           (Umount NETWORK_BLOCK_DEVICE_PATH))) (Umount NETWORK_BLOCK_DEVICE_PARTITION_PATH)))
           (NbdDisconnect NETWORK_BLOCK_DEVICE_PATH))) (NbdDisconnect NETWORK_BLOCK_DEVICE_PARTITION_PATH)).
Proof.
  intros Hno.
  unfold clean_build_state, _unmount_build_path, _disconnect_image_to_network_block_device,
    wrap, try_except, bind.
  do 8 nocheck Hno.
  eexists; eexists; split; [reflexivity | split; reflexivity].
Qed.

(** C9: on a host where nothing is attached or mounted, the clean-state
    pass that [build_image] runs first ([_unmount_build_path], then
    [_disconnect_image_to_network_block_device(check=False)]) runs its
    eight commands in order, raises nothing and leaves the host Clean,
    whatever exit codes the commands return, as long as none of them
    times out; and on any host, without a timeout, it raises nothing. *)
Theorem cleanup_fresh_host_safe (h : host) :
  (forall c, In c cleanup_cmds -> fault h c <> Some TimedOut) ->
  (exists h' tr, clean_build_state h = (Ok tt, h', tr) /\
     map cmd_of_event tr = map Some cleanup_cmds) /\
  (mounts h = [] -> nbd_image h = None ->
   exists h' tr, clean_build_state h = (Ok tt, h', tr) /\ clean h' /\
     map cmd_of_event tr = map Some cleanup_cmds).
Proof.
  intros Hno. destruct (clean_build_state_run h Hno) as (h' & tr & Hrun & Htr & ->).
  split.
  - exists (snd (exec (snd (exec (snd (exec (snd (exec (snd (exec (snd (exec (snd (exec (snd (exec h
           (Umount (mount_subpath "dev")))) (Umount (mount_subpath "proc"))))
           (Umount (mount_subpath "sys")))) (Umount IMAGE_MOUNT_DIR)))
           (Umount NETWORK_BLOCK_DEVICE_PATH))) (Umount NETWORK_BLOCK_DEVICE_PARTITION_PATH)))
           (NbdDisconnect NETWORK_BLOCK_DEVICE_PATH))) (NbdDisconnect NETWORK_BLOCK_DEVICE_PARTITION_PATH))), tr.
    split; assumption.
  - intros Hm Hn.
    eexists; exists tr. split; [exact Hrun|]. split; [|exact Htr].
    assert (Hf : fresh h) by (split; assumption).
    apply fresh_clean.
    repeat first [apply exec_disconnect_fresh | apply exec_umount_fresh]. exact Hf.
Qed.

(** A fresh host where every cleanup command fails with exit code 32. *)
Definition failing_fresh_host : host :=
  {| mounts := []; nbd_image := None; root := "/"; yq_source := false;
     fault := fun _ => Some (Exited 32) |}.

Lemma cleanup_fresh_host_safe_witness :
  (forall c, In c cleanup_cmds -> fault failing_fresh_host c <> Some TimedOut) /\
  exists h' tr, clean_build_state failing_fresh_host = (Ok tt, h', tr) /\ clean h' /\
     map cmd_of_event tr = map Some cleanup_cmds.
Proof.
  assert (H : forall c, In c cleanup_cmds -> fault failing_fresh_host c <> Some TimedOut)
    by (intros c _; cbn; discriminate).
  split; [exact H|].
  exact (proj2 (cleanup_fresh_host_safe failing_fresh_host H) eq_refl eq_refl).
Defined.

End CleanupFacts.

(* ------------------------------------------------------------------ *)
(** ** Runs of the pipeline *)

Module PipelineFacts.
Import Retry Host CleanupFacts.

Lemma bind_inv {A B : Type} (m : M A) (k : A -> M B) (h : host) r h' tr :
  bind m k h = (r, h', tr) ->
  (exists e, m h = (Err e, h', tr) /\ r = Err e) \/
  (exists a h1 l1 l2, m h = (Ok a, h1, l1) /\ k a h1 = (r, h', l2) /\ tr = l1 ++ l2).
Proof.
  unfold bind. destruct (m h) as [[[a|e] h1] l1].
  - destruct (k a h1) as [[r2 h2] l2] eqn:E. intros [= <- <- <-]. right. eauto 10.
  - intros [= <- <- <-]. left. eauto.
Qed.

(** [sound bad m]: [m] never changes which commands the host makes fail,
    and leaves no event [bad] holds of. *)
Definition sound (bad : event -> bool) {A : Type} (m : M A) : Prop :=
  forall h r h' tr, m h = (r, h', tr) -> fault h' = fault h /\ Forall (fun ev => bad ev = false) tr.

Section Sound.
Variable bad : event -> bool.

Lemma sound_ret {A : Type} (a : A) : sound bad (ret a).
Proof. intros h r h' tr [= _ <- <-]. split; [reflexivity | constructor]. Qed.

Lemma sound_raise {A : Type} (e : exn) : sound bad (@raise A e).
Proof. intros h r h' tr [= _ <- <-]. split; [reflexivity | constructor]. Qed.

Lemma sound_get : sound bad get.
Proof. intros h r h' tr [= _ <- <-]. split; [reflexivity | constructor]. Qed.

Lemma sound_emit (ev : event) : bad ev = false -> sound bad (emit ev).
Proof. intros Hb h r h' tr [= _ <- <-]. split; [reflexivity | repeat constructor; exact Hb]. Qed.

Lemma sound_modify (f : host -> host) : (forall h, fault (f h) = fault h) -> sound bad (modify f).
Proof. intros Hf h r h' tr [= _ <- <-]. split; [apply Hf | constructor]. Qed.

Lemma sound_bind {A B : Type} (m : M A) (k : A -> M B) :
  sound bad m -> (forall a, sound bad (k a)) -> sound bad (bind m k).
Proof.
  intros Hm Hk h r h' tr H.
  apply bind_inv in H as [(e & H1 & _) | (a & h1 & l1 & l2 & H1 & H2 & ->)].
  - exact (Hm _ _ _ _ H1).
  - destruct (Hm _ _ _ _ H1) as [F1 T1]. destruct (Hk a _ _ _ _ H2) as [F2 T2].
    split; [congruence | apply Forall_app; split; assumption].
Qed.

Lemma sound_try_except {A : Type} (m : M A) (sel : exn -> bool) (handler : exn -> M A) :
  sound bad m -> (forall e, sound bad (handler e)) -> sound bad (try_except m sel handler).
Proof.
  intros Hm Hh h r h' tr. unfold try_except.
  destruct (m h) as [[[a|e] h1] l1] eqn:E.
  - intros [= <- <- <-]. exact (Hm _ _ _ _ E).
  - destruct (Hm _ _ _ _ E) as [F1 T1]. destruct (sel e).
    + destruct (handler e h1) as [[r2 h2] l2] eqn:E2. intros [= <- <- <-].
      destruct (Hh e _ _ _ _ E2) as [F2 T2].
      split; [congruence | apply Forall_app; split; assumption].
    + intros [= <- <- <-]. split; assumption.
Qed.

Lemma sound_wrap {A : Type} (name : string) (m : M A) : sound bad m -> sound bad (wrap name m).
Proof. intros Hm. apply sound_try_except; [exact Hm | intros e; apply sound_raise]. Qed.

Lemma sound_run (c : cmd) (check : bool) :
  (forall o, bad (ECmd c o) = false) -> sound bad (run c check).
Proof.
  intros Hc h r h' tr. unfold run. destruct (exec h c) as [o h1] eqn:E.
  intros [= _ <- <-]. split.
  - pose proof (exec_fault h c) as F. rewrite E in F. exact F.
  - repeat constructor. apply Hc.
Qed.

Lemma sound_retry_M {A : Type} (p : policy) (op : M A) : sound bad op -> sound bad (retry_M p op).
Proof.
  intros Hop h r h' tr. unfold retry_M, retry_st.
  destruct (retry_go p (logged_attempt op) (Nat.pred (tries p)) 0 (h, []))
    as [[[r1 [h1 t1]] n] sl] eqn:E.
  intros [= <- <- <-].
  refine (RetryFacts.retry_go_inv
            (fun s => fault (fst s) = fault h /\ Forall (fun ev => bad ev = false) (snd s))
            p (logged_attempt op) _ _ _ _ _ _ _ _ _ E).
  - intros k [h0 t0] [F0 T0]. unfold logged_attempt.
    destruct (op h0) as [[r0 h2] l] eqn:Eo. destruct (Hop _ _ _ _ Eo) as [F2 T2].
    cbn [fst snd] in *. split; [congruence | apply Forall_app; split; assumption].
  - split; [reflexivity | constructor].
Qed.

Lemma sound_attempt (m : M unit) : sound bad m -> sound bad (attempt m).
Proof.
  intros Hm h r h' tr. unfold attempt. destruct (m h) as [[r0 h1] l] eqn:E.
  intros [= _ <- <-]. exact (Hm _ _ _ _ E).
Qed.

Lemma sound_unbind_all (new_root : string) (ps : list string) :
  (forall p o, bad (ECmd (Umount (chroot_subpath new_root p)) o) = false) ->
  sound bad (unbind_all new_root ps).
Proof.
  intros Hu. induction ps as [|p ps IH]; cbn [unbind_all].
  - apply sound_ret.
  - apply sound_bind; [|intros _; exact IH]. apply sound_attempt, sound_run. apply Hu.
Qed.

Lemma sound_bind_all (new_root : string) (ps bound : list string) :
  (forall p o, bad (ECmd (Umount (chroot_subpath new_root p)) o) = false) ->
  (forall p o, bad (ECmd (MountBind ("/" ++ p)%string (chroot_subpath new_root p)) o) = false) ->
  sound bad (bind_all new_root ps bound).
Proof.
  intros Hu Hb. revert bound. induction ps as [|p ps IH]; intros bound; cbn [bind_all].
  - apply sound_ret.
  - intros h r h' tr.
    destruct (run (MountBind ("/" ++ p)%string (chroot_subpath new_root p)) true h)
      as [[[u|e] h1] l1] eqn:E;
      destruct (sound_run _ true (Hb p) _ _ _ _ E) as [F1 T1].
    + destruct (bind_all new_root ps (p :: bound) h1) as [[r2 h2] l2] eqn:E2.
      intros [= <- <- <-]. destruct (IH _ _ _ _ _ E2) as [F2 T2].
      split; [congruence | apply Forall_app; split; assumption].
    + destruct (unbind_all new_root bound h1) as [[r2 h2] l2] eqn:E2.
      intros [= <- <- <-]. destruct (sound_unbind_all new_root bound Hu _ _ _ _ E2) as [F2 T2].
      split; [congruence | apply Forall_app; split; assumption].
Qed.

Lemma sound_chroot_session {A : Type} (new_root : string) (body : M A) :
  (forall p o, bad (ECmd (Umount (chroot_subpath new_root p)) o) = false) ->
  (forall p o, bad (ECmd (MountBind ("/" ++ p)%string (chroot_subpath new_root p)) o) = false) ->
  bad (EChroot new_root) = false -> bad EChrootExit = false ->
  sound bad body -> sound bad (chroot_session new_root body).
Proof.
  intros Hu Hb Hc Hx Hbody. unfold chroot_session.
  apply sound_bind; [apply sound_get | intros h0].
  apply sound_bind; [apply sound_bind_all; assumption | intros _].
  apply sound_bind; [apply sound_emit; exact Hc | intros _].
  apply sound_bind; [apply sound_modify; reflexivity | intros _].
  intros h r h' tr. destruct (body h) as [[r1 h1] l1] eqn:E1.
  destruct (chroot_exit new_root (root h0) h1) as [[r2 h2] l2] eqn:E2.
  intros [= <- <- <-].
  destruct (Hbody _ _ _ _ E1) as [F1 T1].
  assert (Hexit : sound bad (chroot_exit new_root (root h0))).
  { unfold chroot_exit.
    apply sound_bind; [apply sound_emit; exact Hx | intros _].
    apply sound_bind; [apply sound_modify; reflexivity | intros _].
    apply sound_unbind_all; exact Hu. }
  destruct (Hexit _ _ _ _ E2) as [F2 T2].
  split; [congruence | apply Forall_app; split; assumption].
Qed.

Lemma sound_run_checked (cs : list cmd) :
  (forall c o, In c cs -> bad (ECmd c o) = false) -> sound bad (run_checked cs).
Proof.
  intros Hc. induction cs as [|c cs IH]; cbn [run_checked].
  - apply sound_ret.
  - apply sound_bind; [apply sound_run; intros o; apply Hc; left; reflexivity | intros _].
    apply IH. intros c' o Hin. apply Hc. right. exact Hin.
Qed.

Lemma sound_download_step arch base env :
  bad EDownload = false -> sound bad (download_step arch base env).
Proof. intros Hd h r h' tr [= _ <- <-]. split; [reflexivity | repeat constructor; exact Hd]. Qed.

End Sound.

Create HintDb sound.
#[export] Hint Resolve sound_ret sound_raise sound_get sound_wrap sound_retry_M
  sound_attempt sound_try_except : sound.

(** Soundness of a piece of the pipeline, for a [bad] that computes on
    the events the piece emits. *)
Ltac prove_sound :=
  repeat first
    [ match goal with |- sound _ (if ?b then _ else _) => destruct b end
    | apply sound_chroot_session
    | apply sound_bind
    | apply sound_wrap
    | apply sound_retry_M
    | apply sound_try_except
    | apply sound_run
    | apply sound_emit
    | apply sound_download_step
    | apply sound_run_checked
    | progress eauto with sound
    | reflexivity
    | match goal with H : In _ _ |- _ => cbn in H; repeat destruct H as [<- | H]; [..| contradiction] end
    | match goal with |- sound _ _ => fail 1 | _ => progress intros end ].

Definition is_chroot_event (ev : event) : bool :=
  match ev with EChroot _ => true | _ => false end.

Definition is_growpart_event (ev : event) : bool :=
  match ev with ECmd c _ => if cmd_eq_dec c growpart_cmd then true else false | _ => false end.

Lemma before_chroot_sound p :
  sound is_chroot_event _unmount_build_path /\
  sound is_chroot_event (_disconnect_image_to_network_block_device false) /\
  sound is_chroot_event (emit (EMkdir IMAGE_MOUNT_DIR)) /\
  (forall arch base env, sound is_chroot_event (download_step arch base env)) /\
  sound is_chroot_event (_resize_image p) /\
  sound is_chroot_event (_connect_image_to_network_block_device p) /\
  sound is_chroot_event _resize_mount_partitions /\
  sound is_chroot_event _install_yq /\
  sound is_chroot_event _replace_mounted_resolv_conf.
Proof.
  unfold _unmount_build_path, _disconnect_image_to_network_block_device, _resize_image,
    _connect_image_to_network_block_device, _mount_network_block_device_partition,
    _resize_mount_partitions, _install_yq, _replace_mounted_resolv_conf.
  repeat match goal with |- _ /\ _ => split end; prove_sound.
Qed.

Lemma bind_split_sound (bad : event -> bool) {A B : Type} (m : M A) (k : A -> M B) h r h' tr ev :
  sound bad m -> bind m k h = (r, h', tr) -> In ev tr -> bad ev = true ->
  exists a h1 l1 t1, m h = (Ok a, h1, l1) /\ k a h1 = (r, h', t1) /\ tr = l1 ++ t1 /\ In ev t1.
Proof.
  intros Hm H Hin Hb.
  apply bind_inv in H as [(e & H1 & _) | (a & h1 & l1 & t1 & H1 & H2 & ->)].
  - exfalso. destruct (Hm _ _ _ _ H1) as [_ T]. rewrite List.Forall_forall in T.
    specialize (T _ Hin). congruence.
  - apply in_app_or in Hin as [Hin|Hin].
    + exfalso. destruct (Hm _ _ _ _ H1) as [_ T]. rewrite List.Forall_forall in T.
      specialize (T _ Hin). congruence.
    + exists a, h1, l1, t1. auto.
Qed.

Lemma run_ok_inv (c : cmd) h a h' l :
  run c true h = (Ok a, h', l) -> exec h c = (Exited 0, h') /\ l = [ECmd c (Exited 0)].
Proof.
  unfold run. destruct (exec h c) as [[z|] h1] eqn:E; cbn.
  - destruct (Z.eqb z 0) eqn:Ez; cbn; [intros [= _ <- <-] | discriminate].
    apply Z.eqb_eq in Ez. subst. auto.
  - discriminate.
Qed.

Lemma wrap_ok {A : Type} (name : string) (m : M A) h a h' l :
  wrap name m h = (Ok a, h', l) -> m h = (Ok a, h', l).
Proof.
  unfold wrap, try_except. destruct (m h) as [[[a'|e] h1] l1]; [auto|].
  destruct (is_subprocess_error e); cbn; discriminate.
Qed.

(** A successful retried call: its last attempt succeeded, on a host the
    invariant holds of, and its trace ends with that attempt's. *)
Lemma retry_M_ok {A : Type} (p : policy) (op : M A) (Inv : host -> Prop) h a h' tr :
  (forall h0 r h1 l, Inv h0 -> op h0 = (r, h1, l) -> Inv h1) -> Inv h ->
  retry_M p op h = (Ok a, h', tr) ->
  exists h0 tr0 l, Inv h0 /\ op h0 = (Ok a, h', l) /\ tr = tr0 ++ l.
Proof.
  intros Hop Hh. unfold retry_M, retry_st.
  destruct (retry_go p (logged_attempt op) (Nat.pred (tries p)) 0 (h, []))
    as [[[r1 [h1 t1]] n] sl] eqn:E.
  intros [= -> <- <-].
  apply (RetryFacts.retry_go_ok (fun s => Inv (fst s)) p (logged_attempt op)) in E
    as (j & [h0 t0] & HI & Ho).
  - unfold logged_attempt in Ho. destruct (op h0) as [[r0 h2] l] eqn:Eo.
    injection Ho as -> -> <-. exists h0, t0, l. auto.
  - intros k [h0 t0] HI. unfold logged_attempt.
    destruct (op h0) as [[r0 h2] l] eqn:Eo. exact (Hop _ _ _ _ HI Eo).
  - exact Hh.
Qed.

Lemma connect_ok_trace p h a h' l :
  _connect_image_to_network_block_device p h = (Ok a, h', l) ->
  exists l0, l = l0 ++ [ECmd (MountRw NETWORK_BLOCK_DEVICE_PARTITION_PATH IMAGE_MOUNT_DIR) (Exited 0)].
Proof.
  unfold _connect_image_to_network_block_device. intros H. apply wrap_ok in H.
  apply bind_inv in H as [(e & _ & [=]) | (u & h1 & l1 & l2 & H1 & H2 & ->)].
  unfold _mount_network_block_device_partition in H2.
  apply (retry_M_ok _ _ (fun _ => True)) in H2 as (h0 & tr0 & l3 & _ & H3 & ->); auto.
  apply run_ok_inv in H3 as [_ ->]. exists (l1 ++ tr0). rewrite app_assoc. reflexivity.
Qed.

Lemma resize_ok_trace h a h' l :
  _resize_mount_partitions h = (Ok a, h', l) ->
  l = [ECmd growpart_cmd (Exited 0); ECmd resize2fs_cmd (Exited 0)].
Proof.
  unfold _resize_mount_partitions. intros H. apply wrap_ok in H.
  apply bind_inv in H as [(e & _ & [=]) | (u & h1 & l1 & l2 & H1 & H2 & ->)].
  apply run_ok_inv in H1 as [_ ->]. apply run_ok_inv in H2 as [_ ->]. reflexivity.
Qed.

Lemma replace_resolv_run h :
  _replace_mounted_resolv_conf h =
  (Ok tt, h, [EUnlink MOUNTED_RESOLV_CONF_PATH; ECopy HOST_RESOLV_CONF_PATH MOUNTED_RESOLV_CONF_PATH]).
Proof. reflexivity. Qed.

(** C8: in every run of [build_image] that enters the chroot, the
    mounted [/etc/resolv.conf] is deleted and the host's copied in its
    place (delete, then copy) after the partition is mounted and after
    the partition and its file system are resized (growpart, then
    resize2fs), and before the chroot is entered. *)
Theorem resolv_conf_replaced_after_resize arch base env h r h' tr :
  build_image arch base env h = (r, h', tr) ->
  In (EChroot IMAGE_MOUNT_DIR) tr ->
  exists l1 l2 l3 l4 l5,
    tr = l1 ++ ECmd (MountRw NETWORK_BLOCK_DEVICE_PARTITION_PATH IMAGE_MOUNT_DIR) (Exited 0) ::
         l2 ++ ECmd growpart_cmd (Exited 0) :: ECmd resize2fs_cmd (Exited 0) ::
         l3 ++ EUnlink MOUNTED_RESOLV_CONF_PATH ::
         ECopy HOST_RESOLV_CONF_PATH MOUNTED_RESOLV_CONF_PATH ::
         l4 ++ EChroot IMAGE_MOUNT_DIR :: l5.
Proof.
  intros H Hin. unfold build_image in H.
  destruct (before_chroot_sound "") as (S1 & S2 & S3 & S4 & _).
  destruct (bind_split_sound _ _ _ _ _ _ _ _ S1 H Hin eq_refl)
    as (a1 & h1 & l1 & t1 & _ & H' & -> & Hin1); clear H; cbv beta in H'.
  destruct (bind_split_sound _ _ _ _ _ _ _ _ S2 H' Hin1 eq_refl)
    as (a2 & h2 & l2 & t2 & _ & H & -> & Hin2); clear H'; cbv beta in H.
  destruct (bind_split_sound _ _ _ _ _ _ _ _ S3 H Hin2 eq_refl)
    as (a3 & h3 & l3 & t3 & _ & H' & -> & Hin3); clear H; cbv beta in H'.
  destruct (bind_split_sound _ _ _ _ _ _ _ _ (S4 arch base env) H' Hin3 eq_refl)
    as (p & h4 & l4 & t4 & _ & H & -> & Hin4); clear H'; cbv beta in H.
  destruct (before_chroot_sound p) as (_ & _ & _ & _ & S5 & S6 & S7 & S8 & S9).
  destruct (bind_split_sound _ _ _ _ _ _ _ _ S5 H Hin4 eq_refl)
    as (a5 & h5 & l5 & t5 & _ & H' & -> & Hin5); clear H; cbv beta in H'.
  destruct (bind_split_sound _ _ _ _ _ _ _ _ S6 H' Hin5 eq_refl)
    as (a6 & h6 & l6 & t6 & H6 & H & -> & Hin6); clear H'; cbv beta in H.
  destruct (bind_split_sound _ _ _ _ _ _ _ _ S7 H Hin6 eq_refl)
    as (a7 & h7 & l7 & t7 & H7 & H' & -> & Hin7); clear H; cbv beta in H'.
  destruct (bind_split_sound _ _ _ _ _ _ _ _ S8 H' Hin7 eq_refl)
    as (a8 & h8 & l8 & t8 & _ & H & -> & Hin8); clear H'; cbv beta in H.
  destruct (bind_split_sound _ _ _ _ _ _ _ _ S9 H Hin8 eq_refl)
    as (a9 & h9 & l9 & t9 & H9 & _ & -> & Hin9); clear H.
  apply connect_ok_trace in H6 as [l0 ->].
  apply resize_ok_trace in H7 as ->.
  rewrite replace_resolv_run in H9. injection H9 as _ _ <-.
  apply in_split in Hin9 as (x & y & ->).
  exists (l1 ++ l2 ++ l3 ++ l4 ++ l5 ++ l0), [], l8, x, y.
  rewrite <- !app_assoc. reflexivity.
Qed.

Lemma growpart_sound p :
  sound is_growpart_event _unmount_build_path /\
  sound is_growpart_event (_disconnect_image_to_network_block_device false) /\
  sound is_growpart_event (emit (EMkdir IMAGE_MOUNT_DIR)) /\
  (forall arch base env, sound is_growpart_event (download_step arch base env)) /\
  sound is_growpart_event (_resize_image p) /\
  sound is_growpart_event (_connect_image_to_network_block_device p) /\
  sound is_growpart_event
    (let* _ := _install_yq in
     let* _ := _replace_mounted_resolv_conf in
     let* _ := try_except (chroot_session IMAGE_MOUNT_DIR chroot_body) is_chroot_error
                 (fun exc => raise (Exn "BuildImageError" "" (Some exc))) in
     let* _ := _disconnect_image_to_network_block_device true in
     _compress_image p).
Proof.
  unfold _unmount_build_path, _disconnect_image_to_network_block_device, _resize_image,
    _connect_image_to_network_block_device, _mount_network_block_device_partition,
    _install_yq, _replace_mounted_resolv_conf, chroot_body, _disable_unattended_upgrades,
    _configure_system_users, _configure_usr_local_bin, _install_yarn, _compress_image.
  repeat match goal with |- _ /\ _ => split end; prove_sound.
Qed.

Lemma run_err_inv (c : cmd) (check : bool) h e h' l :
  run c check h = (Err e, h', l) ->
  exists o, exec h c = (o, h') /\ l = [ECmd c o] /\ o <> Exited 0 /\
    e = match o with TimedOut => TimeoutExpired c | Exited _ => CalledProcessError c end.
Proof.
  unfold run. destruct (exec h c) as [[z|] h1] eqn:E; cbn.
  - destruct (check && negb (Z.eqb z 0)) eqn:B; intros [= <- <- <-].
    exists (Exited z). split; [reflexivity|]. split; [reflexivity|]. split; [|reflexivity].
    intros [= ->]. rewrite andb_false_r in B. discriminate.
  - intros [= <- <- <-]. exists TimedOut.
    split; [reflexivity|]. split; [reflexivity|]. split; [discriminate | reflexivity].
Qed.

(** A command run through [Run] only fails when the host makes it fail,
    and then changes nothing. *)
Lemma exec_run_fail h argv o h' :
  exec h (Run argv) = (o, h') -> o <> Exited 0 -> h' = h /\ fault h (Run argv) = Some o.
Proof.
  unfold exec. destruct (fault h (Run argv)) eqn:F.
  - intros [= <- <-] _. auto.
  - cbn [cmd_sem]. destruct (List.list_eq_dec string_dec argv git_clone_argv);
      intros [= <- <-]; congruence.
Qed.

Lemma resize_fail_inv h e h' l o :
  _resize_mount_partitions h = (Err e, h', l) -> In (ECmd growpart_cmd o) l -> o <> Exited 0 ->
  e = Exn "ResizePartitionError" ""
        (Some (match o with TimedOut => TimeoutExpired growpart_cmd
                          | Exited _ => CalledProcessError growpart_cmd end)) /\
  l = [ECmd growpart_cmd o] /\ h' = h.
Proof.
  unfold _resize_mount_partitions, wrap, try_except.
  destruct (bind (run growpart_cmd true) (fun _ => run resize2fs_cmd true) h)
    as [[[u|e0] h1] l1] eqn:E; [discriminate|].
  apply bind_inv in E as [(e1 & E1 & [= <-]) | (u & h2 & l2 & l3 & E1 & E2 & ->)].
  - apply run_err_inv in E1 as (o1 & X1 & -> & Ho1 & ->).
    apply exec_run_fail in X1 as [-> _]; [|exact Ho1].
    destruct o1; cbn; intros [= <- <- <-] Hin Ho;
      rewrite ?app_nil_r in Hin; destruct Hin as [[= <-] | []]; auto.
  - apply run_ok_inv in E1 as [_ ->]. apply run_err_inv in E2 as (o2 & _ & -> & _ & ->).
    destruct o2; cbn; intros [= _ _ <-] Hin Ho;
      rewrite ?app_nil_r in Hin; destruct Hin as [[= <-] | [[= ] | []]]; congruence.
Qed.

Lemma exec_mount_nbd h s t : nbd_image (snd (exec h (MountRw s t))) = nbd_image h.
Proof.
  unfold exec. destruct (fault h (MountRw s t)); [reflexivity|].
  cbn [cmd_sem]. repeat case_match; cbn; congruence.
Qed.

(** After a successful attach and mount, on a host that only makes
    commands fail, the image is attached and its partition mounted. *)
Lemma connect_ok_state p h a h' l :
  (forall c, fault h c <> Some (Exited 0)) ->
  _connect_image_to_network_block_device p h = (Ok a, h', l) ->
  nbd_image h' <> None /\ In (NETWORK_BLOCK_DEVICE_PARTITION_PATH, IMAGE_MOUNT_DIR) (mounts h').
Proof.
  intros Hf H. unfold _connect_image_to_network_block_device in H. apply wrap_ok in H.
  apply bind_inv in H as [(e & _ & [=]) | (u & h1 & l1 & l2 & H1 & H2 & _)].
  apply run_ok_inv in H1 as [E1 _].
  assert (N1 : nbd_image h1 <> None /\ fault h1 = fault h).
  { unfold exec in E1. destruct (fault h (NbdConnect NETWORK_BLOCK_DEVICE_PATH p)) eqn:F.
    - injection E1 as -> _. exfalso. exact (Hf _ F).
    - cbn in E1. destruct (nbd_image h); [discriminate E1|]. injection E1 as <-.
      split; [discriminate | reflexivity]. }
  unfold _mount_network_block_device_partition in H2.
  apply (retry_M_ok _ _ (fun hx => nbd_image hx <> None /\ fault hx = fault h)) in H2
    as (h0 & tr0 & l3 & [N0 F0] & H3 & _); [| | exact N1].
  - apply run_ok_inv in H3 as [E3 _]. unfold exec in E3. rewrite F0 in E3.
    destruct (fault h (MountRw NETWORK_BLOCK_DEVICE_PARTITION_PATH IMAGE_MOUNT_DIR)) eqn:F.
    + injection E3 as -> _. exfalso. exact (Hf _ F).
    + cbn in E3. destruct (nbd_image h0) eqn:N; [|contradiction].
      injection E3 as <-. cbn. split; [rewrite N; discriminate|].
      apply in_or_app. right. left. reflexivity.
  - intros hx r hy ly [Nx Fx] Hr. unfold run in Hr.
    destruct (exec hx (MountRw NETWORK_BLOCK_DEVICE_PARTITION_PATH IMAGE_MOUNT_DIR))
      as [o hz] eqn:E.
    injection Hr as _ <- _.
    pose proof (exec_mount_nbd hx NETWORK_BLOCK_DEVICE_PARTITION_PATH IMAGE_MOUNT_DIR) as N.
    pose proof (exec_fault hx (MountRw NETWORK_BLOCK_DEVICE_PARTITION_PATH IMAGE_MOUNT_DIR)) as F.
    rewrite E in N, F. cbn [snd] in N, F. split; congruence.
Qed.

(** C1 (as the code has it): [build_image] has no handler at the
    pipeline boundary and cleans nothing up on the way out. On a host
    that only makes commands fail, when growpart fails in the partition
    resize step, [build_image] raises [ResizePartitionError] chained to
    the growpart failure, runs nothing after growpart (the run's trace
    ends with it), and leaves the image attached to the network block
    device and its partition mounted on the mount point, the mount
    having succeeded earlier in the run. *)
Theorem build_image_resize_failure_propagates arch base env h r h' tr o :
  (forall c, fault h c <> Some (Exited 0)) ->
  build_image arch base env h = (r, h', tr) ->
  In (ECmd growpart_cmd o) tr -> o <> Exited 0 ->
  r = Err (Exn "ResizePartitionError" ""
             (Some (match o with TimedOut => TimeoutExpired growpart_cmd
                               | Exited _ => CalledProcessError growpart_cmd end))) /\
  (exists l, tr = l ++ [ECmd growpart_cmd o] /\
     In (ECmd (MountRw NETWORK_BLOCK_DEVICE_PARTITION_PATH IMAGE_MOUNT_DIR) (Exited 0)) l) /\
  nbd_image h' <> None /\ In (NETWORK_BLOCK_DEVICE_PARTITION_PATH, IMAGE_MOUNT_DIR) (mounts h').
Proof.
  intros Hf H Hin Ho. unfold build_image in H.
  destruct (growpart_sound "") as (S1 & S2 & S3 & S4 & _).
  destruct (bind_split_sound _ _ _ _ _ _ _ _ S1 H Hin eq_refl)
    as (a1 & h1 & l1 & t1 & H1 & H' & -> & Hin1); clear H; cbv beta in H'.
  destruct (bind_split_sound _ _ _ _ _ _ _ _ S2 H' Hin1 eq_refl)
    as (a2 & h2 & l2 & t2 & H2 & H & -> & Hin2); clear H'; cbv beta in H.
  destruct (bind_split_sound _ _ _ _ _ _ _ _ S3 H Hin2 eq_refl)
    as (a3 & h3 & l3 & t3 & H3 & H' & -> & Hin3); clear H; cbv beta in H'.
  destruct (bind_split_sound _ _ _ _ _ _ _ _ (S4 arch base env) H' Hin3 eq_refl)
    as (p & h4 & l4 & t4 & H4 & H & -> & Hin4); clear H'; cbv beta in H.
  destruct (growpart_sound p) as (_ & _ & _ & _ & S5 & S6 & S8).
  destruct (bind_split_sound _ _ _ _ _ _ _ _ S5 H Hin4 eq_refl)
    as (a5 & h5 & l5 & t5 & H5 & H' & -> & Hin5); clear H; cbv beta in H'.
  destruct (bind_split_sound _ _ _ _ _ _ _ _ S6 H' Hin5 eq_refl)
    as (a6 & h6 & l6 & t6 & H6 & H & -> & Hin6); clear H'; cbv beta in H.
  assert (F5 : fault h5 = fault h).
  { destruct (S1 _ _ _ _ H1) as [F1 _]. destruct (S2 _ _ _ _ H2) as [F2 _].
    destruct (S3 _ _ _ _ H3) as [F3 _]. destruct (S4 _ _ _ _ _ _ _ H4) as [F4 _].
    destruct (S5 _ _ _ _ H5) as [F5 _]. congruence. }
  assert (Hf5 : forall c, fault h5 c <> Some (Exited 0)) by (rewrite F5; exact Hf).
  destruct (connect_ok_state _ _ _ _ _ Hf5 H6) as [N6 M6].
  destruct (connect_ok_trace _ _ _ _ _ H6) as [l0 ->].
  apply bind_inv in H as [(e & H7 & ->) | (a7 & h7 & l7 & t7 & H7 & H & ->)].
  - destruct (resize_fail_inv _ _ _ _ _ H7 Hin6 Ho) as (-> & -> & ->).
    split; [reflexivity|]. split; [|split; assumption].
    exists (l1 ++ l2 ++ l3 ++ l4 ++ l5 ++ l0 ++
            [ECmd (MountRw NETWORK_BLOCK_DEVICE_PARTITION_PATH IMAGE_MOUNT_DIR) (Exited 0)]).
    split.
    + rewrite <- !app_assoc. reflexivity.
    + repeat (apply in_or_app; right). left. reflexivity.
  - exfalso. apply resize_ok_trace in H7 as ->.
    destruct Hin6 as [[= <-] | [[= ] | Hin7]]; [exact (Ho eq_refl)|].
    destruct (S8 _ _ _ _ H) as [_ T]. rewrite List.Forall_forall in T.
    specialize (T _ Hin7). discriminate.
Qed.

End PipelineFacts.

(* ------------------------------------------------------------------ *)
(** ** Concrete runs of [build_image] *)

Module PipelineRuns.
Import Retry Shasums Host CleanupFacts PipelineFacts.

(** A mirror serving an empty image and a manifest with its digest. *)
Definition good_env : download_env :=
  {| urlretrieve_attempt := fun _ => Ok tt;
     requests_get_attempt := fun _ =>
       Ok (manifest [(ChecksumFacts.empty_sha256, "jammy-server-cloudimg-amd64.img")%string]);
     downloaded_bytes := [] |}.

Definition host_with (f : cmd -> option outcome) : host :=
  {| mounts := []; nbd_image := None; root := "/"; yq_source := false; fault := f |}.

(** Nothing fails. *)
Definition healthy_host : host := host_with (fun _ => None).

(** growpart exits with 1; nothing else fails. *)
Definition growpart_fails (c : cmd) : option outcome :=
  if cmd_eq_dec c growpart_cmd then Some (Exited 1) else None.

Definition resize_fail_host : host := host_with growpart_fails.

Lemma triple_eta {A B C : Type} (x : A * B * C) : x = (fst (fst x), snd (fst x), snd x).
Proof. destruct x as [[a b] c]. reflexivity. Qed.

Lemma in_of_existsb (ev : event) (l : list event) :
  existsb (fun e => if event_eq_dec e ev then true else false) l = true -> In ev l.
Proof.
  intros H. apply existsb_exists in H as (x & Hx & Hb).
  destruct (event_eq_dec x ev) as [<-|]; [exact Hx | discriminate].
Qed.

Lemma growpart_fails_only (c : cmd) : growpart_fails c <> Some (Exited 0).
Proof. unfold growpart_fails. destruct (cmd_eq_dec c growpart_cmd); discriminate. Qed.

(** C1 on a concrete run: growpart exits with 1 after the partition was
    mounted.  [build_image] raises [ResizePartitionError], which errors.py
    declares beside [BuildImageError] and not under it, where its
    docstring and [test_build_image_error] expect [BuildImageError]; it
    also leaves the image attached and the partition mounted, and only the
    clean-state pass of the next build detaches and unmounts them. *)
Lemma build_image_resize_failure_leaves_mount :
  let '(r, h', _) := build_image X64 JAMMY good_env resize_fail_host in
  r = Err (Exn "ResizePartitionError" "" (Some (CalledProcessError growpart_cmd))) /\
  nbd_image h' = Some "jammy-server-cloudimg-amd64.img"%string /\
  mounts h' = [(NETWORK_BLOCK_DEVICE_PARTITION_PATH, IMAGE_MOUNT_DIR)] /\
  ~ clean h' /\
  exists h'' tr, clean_build_state h' = (Ok tt, h'', tr) /\ clean h''.
Proof.
  vm_compute. split; [reflexivity|]. split; [reflexivity|]. split; [reflexivity|]. split.
  - intros [Hm _]. inversion Hm as [|x l Hx _]. vm_compute in Hx. destruct Hx as [Hx _].
    discriminate Hx.
  - eexists; eexists. split; [reflexivity|]. split; [constructor | reflexivity].
Qed.

Definition failed_run := build_image X64 JAMMY good_env resize_fail_host.

Lemma build_image_resize_failure_propagates_witness :
  (forall c, fault resize_fail_host c <> Some (Exited 0)) /\
  In (ECmd growpart_cmd (Exited 1)) (snd failed_run) /\
  Exited 1 <> Exited 0 /\
  fst (fst failed_run) =
    Err (Exn "ResizePartitionError" "" (Some (CalledProcessError growpart_cmd))) /\
  (exists l, snd failed_run = l ++ [ECmd growpart_cmd (Exited 1)] /\
     In (ECmd (MountRw NETWORK_BLOCK_DEVICE_PARTITION_PATH IMAGE_MOUNT_DIR) (Exited 0)) l) /\
  nbd_image (snd (fst failed_run)) <> None /\
  In (NETWORK_BLOCK_DEVICE_PARTITION_PATH, IMAGE_MOUNT_DIR) (mounts (snd (fst failed_run))).
Proof.
  assert (Hf : forall c, fault resize_fail_host c <> Some (Exited 0)) by exact growpart_fails_only.
  assert (Hin : In (ECmd growpart_cmd (Exited 1)) (snd failed_run))
    by (apply in_of_existsb; vm_compute; reflexivity).
  assert (Hne : Exited 1 <> Exited 0) by discriminate.
  split; [exact Hf|]. split; [exact Hin|]. split; [exact Hne|].
  exact (build_image_resize_failure_propagates X64 JAMMY good_env resize_fail_host
           _ _ _ (Exited 1) Hf (triple_eta failed_run) Hin Hne).
Defined.

(** C8 does not hold: in a run where nothing fails, the partition is
    resized (growpart) before the mounted resolv.conf is deleted, not
    after it. *)
Lemma resolv_conf_replaced_before_resize_fails :
  let '(_, _, tr) := build_image X64 JAMMY good_env healthy_host in
  occurs_before (ECmd growpart_cmd (Exited 0)) (EUnlink MOUNTED_RESOLV_CONF_PATH) tr = true /\
  occurs_before (EUnlink MOUNTED_RESOLV_CONF_PATH) (ECmd growpart_cmd (Exited 0)) tr = false.
Proof. vm_compute. split; reflexivity. Qed.

Definition healthy_run := build_image X64 JAMMY good_env healthy_host.

Lemma resolv_conf_replaced_after_resize_witness :
  In (EChroot IMAGE_MOUNT_DIR) (snd healthy_run) /\
  exists l1 l2 l3 l4 l5,
    snd healthy_run =
      l1 ++ ECmd (MountRw NETWORK_BLOCK_DEVICE_PARTITION_PATH IMAGE_MOUNT_DIR) (Exited 0) ::
      l2 ++ ECmd growpart_cmd (Exited 0) :: ECmd resize2fs_cmd (Exited 0) ::
      l3 ++ EUnlink MOUNTED_RESOLV_CONF_PATH ::
      ECopy HOST_RESOLV_CONF_PATH MOUNTED_RESOLV_CONF_PATH ::
      l4 ++ EChroot IMAGE_MOUNT_DIR :: l5.
Proof.
  assert (Hin : In (EChroot IMAGE_MOUNT_DIR) (snd healthy_run))
    by (apply in_of_existsb; vm_compute; reflexivity).
  split; [exact Hin|].
  exact (resolv_conf_replaced_after_resize X64 JAMMY good_env healthy_host
           _ _ _ (triple_eta healthy_run) Hin).
Defined.

End PipelineRuns.

(* ------------------------------------------------------------------ *)
(** ** The chroot session *)

Module ChrootFacts.
Import Retry Host CleanupFacts PipelineFacts PipelineRuns.

Lemma run_shape (c : cmd) (check : bool) h r h' l :
  run c check h = (r, h', l) -> exists o, l = [ECmd c o] /\ exec h c = (o, h').
Proof.
  unfold run. destruct (exec h c) as [o h1] eqn:E. intros [= _ <- <-]. eauto.
Qed.

Lemma exec_root (h : host) (c : cmd) : root (snd (exec h c)) = root h.
Proof.
  unfold exec. destruct (fault h c); [reflexivity|].
  destruct c; cbn [cmd_sem]; unfold umount_sem; repeat case_match; reflexivity.
Qed.

(** The unbind loop runs one umount per path, in the order given,
    whatever each one's outcome, and never fails. *)
Lemma unbind_all_run (new_root : string) (ps : list string) (h : host) :
  exists h' l, unbind_all new_root ps h = (Ok tt, h', l) /\ root h' = root h /\
    Forall2 (fun p ev => exists o, ev = ECmd (Umount (chroot_subpath new_root p)) o) ps l.
Proof.
  revert h. induction ps as [|p ps IH]; intros h.
  - exists h, []. split; [reflexivity|]. split; [reflexivity | constructor].
  - cbn [unbind_all]. unfold bind, attempt.
    destruct (run (Umount (chroot_subpath new_root p)) true h) as [[r1 h1] l1] eqn:E.
    apply run_shape in E as (o & -> & E).
    destruct (IH h1) as (h2 & l2 & E2 & R2 & F2). rewrite E2.
    exists h2, (ECmd (Umount (chroot_subpath new_root p)) o :: l2).
    split; [reflexivity|]. split.
    + rewrite R2. pose proof (exec_root h (Umount (chroot_subpath new_root p))) as R.
      rewrite E in R. exact R.
    + constructor; [eauto | exact F2].
Qed.

Lemma chroot_exit_run (new_root original : string) (h : host) r h' l :
  chroot_exit new_root original h = (r, h', l) ->
  r = Ok tt /\ root h' = original /\
  exists lu, l = EChrootExit :: lu /\
    Forall2 (fun p ev => exists o, ev = ECmd (Umount (chroot_subpath new_root p)) o)
      ["sys"; "proc"; "dev"]%string lu.
Proof.
  unfold chroot_exit, bind, emit, modify.
  destruct (unbind_all_run new_root (rev CHROOT_BIND_PATHS) (set_root h original))
    as (h2 & l2 & E2 & R2 & F2).
  rewrite E2. cbn. intros [= <- <- <-]. split; [reflexivity|]. split; [exact R2|].
  exists l2. split; [reflexivity | exact F2].
Qed.

(** C2 (spec-modelled chroot manager): once a session on the mount point
    is entered, whatever its body does, the session changes the root back
    to the one it started from, then attempts the unbind of [sys], [proc]
    and [dev], in that order, each one whatever the outcome of the
    previous ones (an outcome may be a failure or a timeout), and only
    then returns the body's own result: an error raised inside the chroot
    propagates unchanged, after the unwind. *)
Theorem chroot_session_unwinds {A : Type} (body : M A) (h : host) r h' tr :
  chroot_session IMAGE_MOUNT_DIR body h = (r, h', tr) ->
  In (EChroot IMAGE_MOUNT_DIR) tr ->
  exists hb hx lb l0 lu,
    root hb = IMAGE_MOUNT_DIR /\ body hb = (r, hx, lb) /\
    tr = l0 ++ EChroot IMAGE_MOUNT_DIR :: lb ++ EChrootExit :: lu /\
    Forall2 (fun p ev => exists o, ev = ECmd (Umount (chroot_subpath IMAGE_MOUNT_DIR p)) o)
      ["sys"; "proc"; "dev"]%string lu /\
    root h' = root h.
Proof.
  intros H Hin. unfold chroot_session in H.
  apply bind_inv in H as [(e & [=] & _) | (h0 & h1 & l1 & t1 & [= <- <- <-] & H & ->)].
  cbn [app] in Hin |- *.
  assert (S : sound is_chroot_event (bind_all IMAGE_MOUNT_DIR CHROOT_BIND_PATHS []))
    by (apply sound_bind_all; reflexivity).
  destruct (bind_split_sound _ _ _ _ _ _ _ _ S H Hin eq_refl)
    as (u & h2 & l2 & t2 & _ & H' & -> & _); clear H.
  apply bind_inv in H' as [(e & [=] & _) | (u' & h3 & l3 & t3 & [= <- <- <-] & H & ->)].
  apply bind_inv in H as [(e & [=] & _) | (u'' & h4 & l4 & t4 & [= <- <- <-] & H & ->)].
  destruct (body (set_root h2 IMAGE_MOUNT_DIR)) as [[rb hx] lb] eqn:Eb.
  destruct (chroot_exit IMAGE_MOUNT_DIR (root h) hx) as [[rx h5] lx] eqn:Ex.
  injection H as <- <- <-.
  apply chroot_exit_run in Ex as (_ & R5 & lu & -> & F).
  exists (set_root h2 IMAGE_MOUNT_DIR), hx, lb, l2, lu.
  split; [reflexivity|]. split; [exact Eb|]. split.
  - reflexivity.
  - split; [exact F | exact R5].
Qed.

(** A body that fails inside the chroot ([apt-get update] exits with 100)
    on a host where unbinding [sys] fails with 32. *)
Definition apt_update_cmd : cmd := Run ["apt-get"; "update"]%string.

Definition unwind_body : M unit := run apt_update_cmd true.

Definition unwind_faults (c : cmd) : option outcome :=
  if cmd_eq_dec c apt_update_cmd then Some (Exited 100)
  else if cmd_eq_dec c (Umount (chroot_subpath IMAGE_MOUNT_DIR "sys")) then Some (Exited 32)
  else None.

Definition unwind_run : res unit * host * list event :=
  chroot_session IMAGE_MOUNT_DIR unwind_body (host_with unwind_faults).

Lemma chroot_session_unwinds_witness :
  In (EChroot IMAGE_MOUNT_DIR) (snd unwind_run) /\
  fst (fst unwind_run) = Err (CalledProcessError apt_update_cmd) /\
  In (ECmd (Umount (chroot_subpath IMAGE_MOUNT_DIR "sys")) (Exited 32)) (snd unwind_run) /\
  In (ECmd (Umount (chroot_subpath IMAGE_MOUNT_DIR "dev")) (Exited 0)) (snd unwind_run) /\
  exists hb hx lb l0 lu,
    root hb = IMAGE_MOUNT_DIR /\ unwind_body hb = (fst (fst unwind_run), hx, lb) /\
    snd unwind_run = l0 ++ EChroot IMAGE_MOUNT_DIR :: lb ++ EChrootExit :: lu /\
    Forall2 (fun p ev => exists o, ev = ECmd (Umount (chroot_subpath IMAGE_MOUNT_DIR p)) o)
      ["sys"; "proc"; "dev"]%string lu /\
    root (snd (fst unwind_run)) = root (host_with unwind_faults).
Proof.
  split; [apply in_of_existsb; vm_compute; reflexivity|].
  split; [vm_compute; reflexivity|].
  split; [apply in_of_existsb; vm_compute; reflexivity|].
  split; [apply in_of_existsb; vm_compute; reflexivity|].
  apply (chroot_session_unwinds unwind_body (host_with unwind_faults)).
  - apply triple_eta.
  - apply in_of_existsb. vm_compute. reflexivity.
Defined.

End ChrootFacts.

(* ------------------------------------------------------------------ *)
(** ** The retried operations *)

Module RetryPolicyFacts.
Import Retry.

Lemma retry_go_all_fail {A : Type} (p : policy) (errs : nat -> exn) (left k : nat) :
  retry_go p (fun j (_ : unit) => (@Err A (errs j), tt)) left k tt =
  (Err (errs (k + left)%nat), tt, S (k + left), map (sleep_for p) (seq k left)).
Proof.
  revert k. induction left as [|left IH]; intros k; cbn [retry_go].
  - rewrite Nat.add_0_r. reflexivity.
  - rewrite IH. cbn. rewrite Nat.add_succ_r. reflexivity.
Qed.

(** C5: builder.py decorates five functions with [@retry]: the base
    image download and the checksum manifest fetch (3 tries, 5s initial
    and 30s maximum delay, backoff 2), the partition mount (5 tries, 5s
    initial and 60s maximum delay, backoff 2), the yq install (3 tries,
    5s, 30s, 2) and the image compression (5 tries, 5s, 60s, 2); no other
    function of builder.py is retried.  For each of these policies an
    operation that fails on every attempt is attempted exactly [tries]
    times, sleeps [min(delay * backoff^k, max_delay)] after each failed
    attempt [k] but the last, and raises the last attempt's own error. *)
Theorem retried_operations_policy :
  retried_fns =
    [F_download_base_image; F_fetch_shasums; F_mount_network_block_device_partition;
     F_install_yq; F_compress_image] /\
  retry_decorator F_download_base_image =
    Some {| tries := 3; delay := 5; max_delay := 30; backoff := 2 |} /\
  retry_decorator F_fetch_shasums =
    Some {| tries := 3; delay := 5; max_delay := 30; backoff := 2 |} /\
  retry_decorator F_mount_network_block_device_partition =
    Some {| tries := 5; delay := 5; max_delay := 60; backoff := 2 |} /\
  retry_decorator F_install_yq =
    Some {| tries := 3; delay := 5; max_delay := 30; backoff := 2 |} /\
  retry_decorator F_compress_image =
    Some {| tries := 5; delay := 5; max_delay := 60; backoff := 2 |} /\
  forall (f : builder_fn) (p : policy) (A : Type) (errs : nat -> exn),
    retry_decorator f = Some p ->
    retry p (fun k => @Err A (errs k)) =
      (Err (errs (tries p - 1)%nat), tries p, map (sleep_for p) (seq 0 (tries p - 1))).
Proof.
  do 6 (split; [reflexivity|]).
  intros f p A errs Hf.
  assert (Ht : (1 <= tries p)%nat) by (destruct f; cbn in Hf; inversion Hf; cbn; lia).
  unfold retry, retry_st. rewrite retry_go_all_fail. cbn [Nat.add].
  replace (S (Nat.pred (tries p))) with (tries p) by lia.
  replace (Nat.pred (tries p)) with (tries p - 1)%nat by lia.
  reflexivity.
Qed.

Lemma retried_operations_policy_witness :
  retry_decorator F_mount_network_block_device_partition =
    Some {| tries := 5; delay := 5; max_delay := 60; backoff := 2 |} /\
  retry {| tries := 5; delay := 5; max_delay := 60; backoff := 2 |}
    (fun k => @Err unit (Exn "CalledProcessError" "mount" None)) =
  (Err (Exn "CalledProcessError" "mount" None), 5%nat, [5; 10; 20; 40]%Z).
Proof.
  split; [reflexivity|].
  destruct retried_operations_policy as (_ & _ & _ & _ & _ & _ & H).
  rewrite (H F_mount_network_block_device_partition _ unit
             (fun _ => Exn "CalledProcessError" "mount" None) eq_refl).
  vm_compute. reflexivity.
Defined.

(** The spec counts four retried operations; the fifth, the yq install
    of builder.py, is retried too. *)
Lemma yq_install_is_retried :
  In F_install_yq retried_fns /\ retry_decorator F_install_yq <> None /\
  length retried_fns = 5%nat.
Proof. vm_compute. split; [tauto|]. split; [discriminate | reflexivity]. Qed.

End RetryPolicyFacts.

(* ------------------------------------------------------------------ *)
(** ** Revision pruning *)

Module StoreLemmas.
Import Py Store.

(** Newer-or-equal first. *)
Definition newer (a b : image) : Prop := (created_at b <= created_at a)%Z.

Lemma newer_trans : Transitive newer.
Proof. intros a b c H1 H2. unfold newer in *. lia. Qed.

Lemma insert_desc_perm (x : image) (l : list image) : Permutation (insert_desc x l) (x :: l).
Proof.
  induction l as [|y l IH]; cbn; [reflexivity|].
  destruct (created_at x <=? created_at y)%Z; [|reflexivity].
  rewrite IH. apply perm_swap.
Qed.

Lemma fold_insert_perm (l acc : list image) :
  Permutation (fold_left (fun acc x => insert_desc x acc) l acc) (l ++ acc).
Proof.
  revert acc. induction l as [|x l IH]; intros acc; cbn; [reflexivity|].
  rewrite IH, insert_desc_perm. symmetry. apply Permutation_middle.
Qed.

Lemma sort_desc_perm (l : list image) : Permutation (sort_desc l) l.
Proof. unfold sort_desc. rewrite fold_insert_perm, app_nil_r. reflexivity. Qed.

Lemma insert_desc_hdrel (x y : image) (l : list image) :
  HdRel newer y l -> newer y x -> HdRel newer y (insert_desc x l).
Proof.
  intros H Hyx. destruct l as [|z l]; cbn.
  - constructor. exact Hyx.
  - destruct (created_at x <=? created_at z)%Z; constructor; [inversion H; assumption | exact Hyx].
Qed.

Lemma insert_desc_sorted (x : image) (l : list image) :
  Sorted newer l -> Sorted newer (insert_desc x l).
Proof.
  induction l as [|y l IH]; intros H; cbn.
  - repeat constructor.
  - destruct (created_at x <=? created_at y)%Z eqn:E.
    + inversion H as [|? ? Hl Hd]; subst. constructor; [exact (IH Hl)|].
      apply insert_desc_hdrel; [exact Hd|]. unfold newer. lia.
    + constructor; [exact H|]. constructor. unfold newer. lia.
Qed.

Lemma sort_desc_sorted (l : list image) : StronglySorted newer (sort_desc l).
Proof.
  apply Sorted_StronglySorted; [exact newer_trans|].
  unfold sort_desc. assert (H : Sorted newer (@nil image)) by constructor.
  revert H. generalize (@nil image) as acc.
  induction l as [|x l IH]; intros acc H; cbn; [exact H|].
  apply IH. apply insert_desc_sorted. exact H.
Qed.

Lemma strongly_sorted_app (l1 l2 : list image) (i j : image) :
  StronglySorted newer (l1 ++ l2) -> In i l1 -> In j l2 -> newer i j.
Proof.
  induction l1 as [|a l1 IH]; intros H Hi Hj; [destruct Hi|].
  inversion H as [|? ? Hs Hf]; subst. destruct Hi as [<-|Hi].
  - rewrite List.Forall_forall in Hf. apply Hf, in_or_app. right. exact Hj.
  - exact (IH Hs Hi Hj).
Qed.

Lemma nodup_map_app_neq {A B : Type} (f : A -> B) (l1 l2 : list A) (i j : A) :
  NoDup (map f (l1 ++ l2)) -> In i l1 -> In j l2 -> f i <> f j.
Proof.
  induction l1 as [|a l1 IH]; intros H Hi Hj; [destruct Hi|].
  cbn in H. inversion H as [|? ? Hn Hd]; subst. destruct Hi as [<-|Hi].
  - intros E. apply Hn. rewrite E. apply list_elem_of_In, in_map, in_or_app. right. exact Hj.
  - exact (IH Hd Hi Hj).
Qed.

Lemma filter_filter {A : Type} (f g : A -> bool) (l : list A) :
  List.filter f (List.filter g l) = List.filter (fun x => g x && f x) l.
Proof.
  induction l as [|x l IH]; cbn; [reflexivity|].
  destruct (g x); cbn; [destruct (f x); cbn|]; rewrite IH; reflexivity.
Qed.

Lemma perm_filter_length {A : Type} (f : A -> bool) (l1 l2 : list A) :
  Permutation l1 l2 -> length (List.filter f l1) = length (List.filter f l2).
Proof.
  induction 1; cbn.
  - reflexivity.
  - destruct (f x); cbn; congruence.
  - destruct (f x), (f y); reflexivity.
  - congruence.
Qed.

(** An image is kept when its id is none of those of [l]. *)
Definition kept (l : list image) (x : image) : bool :=
  negb (existsb (fun i => String.eqb (image_id x) i) (map image_id l)).

Lemma kept_cons (i : image) (l : list image) (x : image) :
  kept (i :: l) x = negb (String.eqb (image_id x) (image_id i)) && kept l x.
Proof. unfold kept. cbn. destruct (String.eqb _ _); reflexivity. Qed.

Lemma kept_in (l : list image) (x : image) : In x l -> kept l x = false.
Proof.
  intros H. unfold kept. apply negb_false_iff, existsb_exists.
  exists (image_id x). split; [apply in_map; exact H | apply String.eqb_refl].
Qed.

Lemma kept_spec (l : list image) (x : image) :
  kept l x = true <-> ~ In (image_id x) (map image_id l).
Proof.
  unfold kept. rewrite negb_true_iff. split.
  - intros H Hin. assert (E : existsb (fun i => String.eqb (image_id x) i) (map image_id l) = true)
      by (apply existsb_exists; exists (image_id x); split; [exact Hin | apply String.eqb_refl]).
    congruence.
  - intros H. destruct (existsb _ _) eqn:E; [|reflexivity].
    apply existsb_exists in E as (y & Hy & Ey). apply String.eqb_eq in Ey. subst y. contradiction.
Qed.

(** The environment fields that deletion does not touch. *)
Definition same_env (c c' : cloud) : Prop :=
  search_fails c' = search_fails c /\ delete_image_result c' = delete_image_result c /\
  create_fails c' = create_fails c /\ next_id c' = next_id c /\ now c' = now c.

Lemma same_env_refl (c : cloud) : same_env c c.
Proof. repeat split. Qed.

Lemma same_env_trans (c1 c2 c3 : cloud) : same_env c1 c2 -> same_env c2 c3 -> same_env c1 c3.
Proof. unfold same_env. intuition congruence. Qed.

Lemma delete_image_env (c : cloud) (i : string) : same_env c (snd (delete_image c i)).
Proof. unfold delete_image. destruct (delete_image_result c i); repeat split. Qed.

Lemma prune_old_images_eq (c : cloud) (nm : string) (k : Z) :
  search_fails c = false ->
  _prune_old_images c nm k =
    let '(r, c2, t2) := prune_loop c (py_slice_from k (sort_desc (search_images c nm))) in
    (r, c2, CSearch nm :: t2).
Proof.
  intros Hs. unfold _prune_old_images, _get_sorted_images_by_created_at. rewrite Hs.
  destruct (sort_desc (search_images c nm)) as [|x l] eqn:E; [|reflexivity].
  unfold py_slice_from. destruct (0 <=? k)%Z; rewrite skipn_nil; reflexivity.
Qed.

(** The fail-fast loop of store.py with every deletion succeeding. *)
Lemma store_loop_all_deleted (c : cloud) (l : list image) :
  (forall i, In i l -> delete_image_result c (image_id i) = Deleted) ->
  exists c', prune_loop c l = (Ok tt, c', map (fun i => CDelete (image_id i)) l) /\
    images c' = List.filter (kept l) (images c) /\ same_env c c'.
Proof.
  revert c. induction l as [|i l IH]; intros c H; cbn.
  - exists c. split; [reflexivity|]. split; [|apply same_env_refl].
    induction (images c) as [|x xs IHx]; cbn; [reflexivity|]. rewrite <- IHx. reflexivity.
  - unfold delete_image at 1. rewrite (H i (or_introl eq_refl)).
    destruct (IH (remove_image c (image_id i))) as (c' & E & Hi & Env).
    { intros j Hj. exact (H j (or_intror Hj)). }
    rewrite E. exists c'. split; [reflexivity|]. split.
    + rewrite Hi. cbn [images remove_image]. rewrite filter_filter.
      apply filter_ext. intros x. rewrite kept_cons. reflexivity.
    + eapply same_env_trans; [|exact Env]. repeat split.
Qed.

(** The fail-fast loop of store.py in general: the deletions succeed up
    to the first one that does not, which raises [OpenstackError]; none
    after it is attempted. *)
Lemma store_loop_fail_fast (c : cloud) (l : list image) :
  exists pre rest, l = pre ++ rest /\
    (forall j, In j pre -> delete_image_result c (image_id j) = Deleted) /\
    ((rest = [] /\ fst (fst (prune_loop c l)) = Ok tt /\
      snd (prune_loop c l) = map (fun i => CDelete (image_id i)) pre) \/
     (exists i post, rest = i :: post /\ delete_image_result c (image_id i) <> Deleted /\
      snd (prune_loop c l) = map (fun i => CDelete (image_id i)) (pre ++ [i]) /\
      exists e, fst (fst (prune_loop c l)) = Err e /\ exn_name e = "OpenstackError"%string)).
Proof.
  revert c. induction l as [|i l IH]; intros c.
  - exists [], []. split; [reflexivity|]. split; [intros j []|]. left. split; [reflexivity|]. split; reflexivity.
  - cbn [prune_loop]. unfold delete_image.
    destruct (delete_image_result c (image_id i)) eqn:D.
    + destruct (IH (remove_image c (image_id i))) as (pre & rest & -> & Hpre & Hr).
      destruct (prune_loop (remove_image c (image_id i)) (pre ++ rest)) as [[r c2] t] eqn:E.
      cbn [fst snd] in Hr |- *.
      exists (i :: pre), rest. split; [reflexivity|]. split.
      * intros j [<-|Hj]; [exact D | exact (Hpre j Hj)].
      * destruct Hr as [(-> & -> & ->) | (i' & post & -> & Hi' & -> & e & -> & He)].
        -- left. split; [reflexivity|]. split; reflexivity.
        -- right. exists i', post. split; [reflexivity|]. split; [exact Hi'|].
           split; [reflexivity|]. eauto.
    + exists [], (i :: l). split; [reflexivity|]. split; [intros j []|].
      right. exists i, l. split; [reflexivity|]. split; [congruence|]. split; [reflexivity|]. eauto.
    + exists [], (i :: l). split; [reflexivity|]. split; [intros j []|].
      right. exists i, l. split; [reflexivity|]. split; [congruence|]. split; [reflexivity|]. eauto.
Qed.

(** The log-and-continue loop of upload.py: every image of the list is
    attempted, in order, whatever the outcomes. *)
Lemma upload_loop_attempts_all (c : cloud) (l : list image) :
  deleted_ids (snd (Upload.prune_loop c l)) = map image_id l /\
  same_env c (fst (Upload.prune_loop c l)).
Proof.
  revert c. induction l as [|i l IH]; intros c; cbn [Upload.prune_loop].
  - split; [reflexivity | apply same_env_refl].
  - destruct (delete_image c (image_id i)) as [o c1] eqn:D.
    pose proof (delete_image_env c (image_id i)) as Env. rewrite D in Env. cbn [snd] in Env.
    destruct (IH c1) as [H1 H2].
    destruct (Upload.prune_loop c1 l) as [c2 t] eqn:E. cbn [fst snd] in *.
    split; [|exact (same_env_trans _ _ _ Env H2)].
    unfold deleted_ids in *. cbn [flat_map]. rewrite flat_map_app.
    destruct o; cbn; rewrite H1; reflexivity.
Qed.

Lemma upload_loop_all_deleted (c : cloud) (l : list image) :
  (forall i, In i l -> delete_image_result c (image_id i) = Deleted) ->
  images (fst (Upload.prune_loop c l)) = List.filter (kept l) (images c).
Proof.
  revert c. induction l as [|i l IH]; intros c H; cbn [Upload.prune_loop].
  - cbn. induction (images c) as [|x xs IHx]; cbn; [reflexivity|]. rewrite <- IHx. reflexivity.
  - unfold delete_image at 1. rewrite (H i (or_introl eq_refl)).
    pose proof (IH (remove_image c (image_id i))) as IH'.
    destruct (Upload.prune_loop (remove_image c (image_id i)) l) as [c2 t] eqn:E.
    cbn [fst] in *. rewrite IH'; [|intros j Hj; exact (H j (or_intror Hj))].
    cbn [images remove_image]. rewrite filter_filter.
    apply filter_ext. intros x. rewrite kept_cons. reflexivity.
Qed.

Lemma filter_kept_nil (l : list image) : List.filter (kept []) l = l.
Proof. induction l as [|x l IH]; cbn; [reflexivity | rewrite IH; reflexivity]. Qed.

(** What the fail-fast loop of store.py leaves in the registry: every
    image but those of [pre], the ones deleted before the loop stopped. *)
Lemma store_loop_state (c : cloud) (pre rest : list image) :
  (forall j, In j pre -> delete_image_result c (image_id j) = Deleted) ->
  (rest = [] \/ exists i post, rest = i :: post /\ delete_image_result c (image_id i) <> Deleted) ->
  images (snd (fst (prune_loop c (pre ++ rest)))) = List.filter (kept pre) (images c).
Proof.
  revert c. induction pre as [|j pre IH]; intros c Hpre Hrest; cbn [app].
  - rewrite filter_kept_nil. destruct Hrest as [-> | (i & post & -> & Hi)]; [reflexivity|].
    cbn [prune_loop]. unfold delete_image.
    destruct (delete_image_result c (image_id i)); [contradiction | reflexivity | reflexivity].
  - cbn [prune_loop]. unfold delete_image at 1. rewrite (Hpre j (or_introl eq_refl)).
    specialize (IH (remove_image c (image_id j))).
    destruct (prune_loop (remove_image c (image_id j)) (pre ++ rest)) as [[r c2] t] eqn:E.
    cbn [fst snd] in *. rewrite IH.
    + cbn [images remove_image]. rewrite filter_filter.
      apply filter_ext. intros x. rewrite kept_cons. reflexivity.
    + intros k Hk. exact (Hpre k (or_intror Hk)).
    + exact Hrest.
Qed.

(** The calls of one attempt of upload.py's pruning loop: the deletion,
    then the error line the loop logs when the deletion did not return
    [True]. *)
Definition attempt_log (c : cloud) (i : image) : list call :=
  CDelete (image_id i) ::
  match delete_image_result c (image_id i) with
  | Deleted => []
  | NotDeleted => [CLogError ("Failed to delete old image, " ++ image_id i)]
  | DeleteRaises => [CLogError "Failed to prune old image, "]
  end.

Lemma upload_loop_log (c : cloud) (l : list image) :
  snd (Upload.prune_loop c l) = flat_map (attempt_log c) l.
Proof.
  revert c. induction l as [|i l IH]; intros c; cbn [Upload.prune_loop]; [reflexivity|].
  destruct (delete_image c (image_id i)) as [o c1] eqn:D.
  pose proof (delete_image_env c (image_id i)) as (_ & Ed & _). rewrite D in Ed. cbn [snd] in Ed.
  assert (Ho : o = delete_image_result c (image_id i)).
  { unfold delete_image in D. destruct (delete_image_result c (image_id i)) eqn:Er;
      injection D as <- _; reflexivity. }
  pose proof (IH c1) as H1.
  destruct (Upload.prune_loop c1 l) as [c2 t] eqn:E. cbn [snd] in *.
  rewrite H1. cbn [flat_map].
  assert (Hf : flat_map (attempt_log c1) l = flat_map (attempt_log c) l).
  { apply flat_map_ext. intros x. unfold attempt_log. rewrite Ed. reflexivity. }
  rewrite Hf, Ho. unfold attempt_log at 2. destruct (delete_image_result c (image_id i)); reflexivity.
Qed.

End StoreLemmas.

Module StoreFacts.
Import Py Store StoreLemmas.

Lemma skipn_in {A : Type} (m : nat) (l : list A) (x : A) : In x (skipn m l) -> In x l.
Proof. intros H. rewrite <- (firstn_skipn m l). apply in_or_app. right. exact H. Qed.

(** C3: pruning in store.py with every deletion succeeding, and
    [get_latest_build_id].  The images named [nm] are sorted newest
    first; for a retention [k >= 0], the deletions made are exactly those
    of the images after the first [k] (all of them when [k = 0]), in that
    order; with distinct timestamps every kept image is strictly newer
    than every deleted one; the registry afterwards holds exactly the
    images whose id was not deleted.  [get_latest_build_id] makes the same
    search and sort and returns the id of the first image, which is the
    newest, or the empty string when no image has that name. *)
Theorem prune_deletes_oldest (c : cloud) (nm : string) (k : Z) :
  search_fails c = false -> (0 <= k)%Z ->
  (forall i, In i (search_images c nm) -> delete_image_result c (image_id i) = Deleted) ->
  NoDup (map created_at (search_images c nm)) ->
  let s := sort_desc (search_images c nm) in
  Permutation s (search_images c nm) /\
  (forall i j, In i (firstn (Z.to_nat k) s) -> In j (skipn (Z.to_nat k) s) ->
     (created_at j < created_at i)%Z) /\
  (exists c', _prune_old_images c nm k =
       (Ok tt, c', CSearch nm :: map (fun i => CDelete (image_id i)) (skipn (Z.to_nat k) s)) /\
     forall x, In x (images c') <->
       In x (images c) /\ ~ In (image_id x) (map image_id (skipn (Z.to_nat k) s))) /\
  get_latest_build_id c nm =
    (Ok (match s with [] => ""%string | i :: _ => image_id i end), c, [CSearch nm]) /\
  (forall i j, hd_error s = Some i -> In j (search_images c nm) -> (created_at j <= created_at i)%Z).
Proof.
  cbv zeta. intros Hs Hk Hdel Hnd.
  remember (sort_desc (search_images c nm)) as s eqn:Es.
  assert (Hp : Permutation s (search_images c nm)) by (subst s; apply sort_desc_perm).
  assert (Hss : StronglySorted newer s) by (subst s; apply sort_desc_sorted).
  split; [exact Hp|]. split.
  { intros i j Hi Hj.
    assert (Hn : NoDup (map created_at s)).
    { assert (Hpm : Permutation (map created_at s) (map created_at (search_images c nm)))
        by (apply Permutation_map; exact Hp).
      rewrite Hpm. exact Hnd. }
    rewrite <- (firstn_skipn (Z.to_nat k) s) in Hn, Hss.
    pose proof (strongly_sorted_app _ _ _ _ Hss Hi Hj) as Hle.
    pose proof (nodup_map_app_neq _ _ _ _ _ Hn Hi Hj) as Hne.
    unfold newer in Hle. lia. }
  split.
  { rewrite prune_old_images_eq by exact Hs. rewrite <- Es.
    unfold py_slice_from. replace (0 <=? k)%Z with true by (symmetry; apply Z.leb_le; exact Hk).
    destruct (store_loop_all_deleted c (skipn (Z.to_nat k) s)) as (c' & E & Hi & _).
    { intros i Hi. apply Hdel. apply (Permutation_in _ Hp). exact (skipn_in _ _ _ Hi). }
    rewrite E. exists c'. split; [reflexivity|].
    intros x. rewrite Hi, filter_In, kept_spec. reflexivity. }
  split.
  { unfold get_latest_build_id, _get_sorted_images_by_created_at. rewrite Hs, <- Es.
    destruct s; reflexivity. }
  intros i j Hh Hj. destruct s as [|i' t]; [discriminate|]. injection Hh as ->.
  apply (Permutation_in _ (Permutation_sym Hp)) in Hj. destruct Hj as [<-|Hj]; [lia|].
  change (i :: t) with ([i] ++ t) in Hss.
  exact (strongly_sorted_app _ _ _ _ Hss (or_introl eq_refl) Hj).
Qed.

(** C4: [upload_image] of store.py creates the image first and prunes
    afterwards, with a fail-fast loop: the deletions of the stale images
    (the ones after the first [k] of the search made after the creation)
    succeed up to the first one that does not, and that one raises.  If
    all succeed the new id is returned; otherwise no later stale image is
    attempted and [upload_image] raises [OpenstackError] (not caught as an
    [UploadImageError], and the new id is not returned).  Either way the
    registry keeps every image it held after the creation except the
    stale ones deleted before the loop stopped; with [k = 0] the new image
    is itself stale and may be among them. *)
Theorem upload_image_prune_fail_fast (c : cloud) (nm : string) (k : Z) r c' tr :
  search_fails c = false -> create_fails c = false ->
  upload_image c nm k = (r, c', tr) ->
  let c1 := add_image c {| image_id := next_id c; image_name := nm; created_at := now c |} in
  let stale := py_slice_from k (sort_desc (search_images c1 nm)) in
  exists pre rest, stale = pre ++ rest /\
    (forall j, In j pre -> delete_image_result c (image_id j) = Deleted) /\
    ((rest = [] /\ r = Ok (next_id c) /\
      tr = CCreate nm :: CSearch nm :: map (fun i => CDelete (image_id i)) pre) \/
     (exists i post, rest = i :: post /\ delete_image_result c (image_id i) <> Deleted /\
      tr = CCreate nm :: CSearch nm :: map (fun i => CDelete (image_id i)) (pre ++ [i]) /\
      exists e, r = Err e /\ exn_name e = "OpenstackError"%string)) /\
    images c' = List.filter (kept pre) (images c1).
Proof.
  cbv zeta. intros Hs Hc H.
  set (c1 := add_image c {| image_id := next_id c; image_name := nm; created_at := now c |}) in *.
  set (stale := py_slice_from k (sort_desc (search_images c1 nm))).
  unfold upload_image, create_image in H. rewrite Hc in H. fold c1 in H.
  rewrite prune_old_images_eq in H by exact Hs. fold stale in H.
  destruct (store_loop_fail_fast c1 stale) as (pre & rest & Heq & Hpre & Hr).
  assert (Hrest : rest = [] \/ exists i post, rest = i :: post /\
                   delete_image_result c1 (image_id i) <> Deleted)
    by (destruct Hr as [(-> & _) | (i & post & -> & Hi & _)]; [left; reflexivity | right; eauto]).
  pose proof (store_loop_state c1 pre rest Hpre Hrest) as Hst. rewrite <- Heq in Hst.
  destruct (prune_loop c1 stale) as [[r2 c2] t2] eqn:E. cbn [fst snd] in Hr, Hst.
  assert (Hc2 : c' = c2) by (destruct r2; cbn in H; injection H as _ Hx _; symmetry; exact Hx).
  exists pre, rest. split; [exact Heq|]. split; [exact Hpre|].
  split; [|rewrite Hc2; exact Hst].
  destruct Hr as [(-> & -> & ->) | (i & post & -> & Hi & -> & e & -> & He)].
  - injection H as <- <- <-. left. split; [reflexivity|]. split; reflexivity.
  - injection H as <- <- <-. right. exists i, post. split; [reflexivity|]. split; [exact Hi|].
    split; [reflexivity|]. exists e. split; [|exact He].
    destruct e as [n m ca]. cbn in He. subst n. reflexivity.
Qed.

End StoreFacts.

Module UploadFacts.
Import Py Store StoreLemmas StoreFacts.

Lemma py_slice_in {A : Type} (k : Z) (l : list A) (x : A) : In x (py_slice_from k l) -> In x l.
Proof. unfold py_slice_from. destruct (0 <=? k)%Z; apply skipn_in. Qed.

Lemma filter_none {A : Type} (f : A -> bool) (l : list A) :
  (forall x, In x l -> f x = false) -> List.filter f l = [].
Proof.
  induction l as [|x l IH]; intros H; cbn; [reflexivity|].
  rewrite (H x (or_introl eq_refl)). apply IH. intros y Hy. exact (H y (or_intror Hy)).
Qed.

Lemma filter_length_le {A : Type} (f : A -> bool) (l : list A) :
  (length (List.filter f l) <= length l)%nat.
Proof. induction l as [|x l IH]; cbn; [lia|]. destruct (f x); cbn; lia. Qed.

Lemma skipn_length_app {A : Type} (l1 l2 : list A) : skipn (length l1) (l1 ++ l2) = l2.
Proof. induction l1 as [|x l1 IH]; cbn; [reflexivity | exact IH]. Qed.

(** C10: [OpenstackManager.upload_image] of upload.py prunes before it
    creates, with the retention [num_revisions - 1] read as a Python
    slice start: every image of the slice is attempted, in order, whatever
    the earlier deletions did; a deletion that returns [False] or raises
    is followed by the error line the loop logs, and the loop goes on; then
    the image is created and its id returned.  When every deletion
    succeeds and [num_revisions >= 1], at most [num_revisions] images of
    that name exist afterwards.  When [num_revisions = 0] the slice
    [images[-1:]] holds only the oldest image, so only that one is deleted
    and every newer one is left. *)
Theorem manager_prunes_before_create (c : cloud) (nm : string) (n : Z) r c' tr :
  search_fails c = false -> create_fails c = false ->
  Upload.upload_image c nm n = (r, c', tr) ->
  let s := sort_desc (search_images c nm) in
  let stale := py_slice_from (n - 1) s in
  r = Ok (next_id c) /\
  (exists lg, tr = CSearch nm :: lg ++ [CCreate nm] /\ deleted_ids lg = map image_id stale /\
     lg = flat_map (attempt_log c) stale) /\
  ((forall i, In i s -> delete_image_result c (image_id i) = Deleted) -> (1 <= n)%Z ->
     (length (search_images c' nm) <= Z.to_nat n)%nat) /\
  (n = 0%Z -> forall oldest newer_ones, s = newer_ones ++ [oldest] -> stale = [oldest]).
Proof.
  cbv zeta. intros Hs Hc H.
  set (s := sort_desc (search_images c nm)) in *.
  set (stale := py_slice_from (n - 1) s) in *.
  unfold Upload.upload_image, Upload._prune_old_images, Upload._get_images_by_latest in H.
  rewrite Hs in H. fold s stale in H.
  pose proof (upload_loop_attempts_all c stale) as [Hd Henv].
  pose proof (upload_loop_all_deleted c stale) as Hkept.
  pose proof (upload_loop_log c stale) as Hlog.
  destruct (Upload.prune_loop c stale) as [c2 t2] eqn:E. cbn [fst snd] in Hd, Henv, Hkept, Hlog.
  destruct Henv as (_ & _ & Ec & Ei & En).
  unfold create_image in H. rewrite Ec, Hc in H. cbn in H.
  injection H as <- <- <-.
  split; [rewrite Ei; reflexivity|].
  split; [exists t2; split; [reflexivity | split; [exact Hd | exact Hlog]]|]. split.
  - intros Hdel Hn.
    unfold search_images. cbn [images add_image]. rewrite List.filter_app. cbn [List.filter image_name].
    rewrite String.eqb_refl, length_app. cbn [length].
    rewrite Hkept by (intros i Hi; apply Hdel, (py_slice_in _ _ _ Hi)).
    rewrite filter_filter.
    rewrite (filter_ext _ (fun x => String.eqb (image_name x) nm && kept stale x))
      by (intros x; apply andb_comm).
    rewrite <- filter_filter. fold (search_images c nm).
    rewrite <- (perm_filter_length _ _ _ (sort_desc_perm (search_images c nm))). fold s.
    subst stale. unfold py_slice_from.
    replace (0 <=? n - 1)%Z with true by (symmetry; apply Z.leb_le; lia).
    set (m := Z.to_nat (n - 1)).
    rewrite <- (firstn_skipn m s) at 2. rewrite List.filter_app, length_app.
    rewrite (filter_none (kept (skipn m s)) (skipn m s)) by (intros x Hx; apply kept_in, Hx).
    cbn [length]. pose proof (filter_length_le (kept (skipn m s)) (firstn m s)).
    pose proof (firstn_le_length m s). unfold m in *. lia.
  - intros -> oldest newer_ones Es. subst stale. rewrite Es. unfold py_slice_from.
    replace (0 <=? 0 - 1)%Z with false by reflexivity.
    change (Z.to_nat (- (0 - 1))) with 1%nat. rewrite length_app. cbn [length].
    replace (length newer_ones + 1 - 1)%nat with (length newer_ones) by lia.
    apply skipn_length_app.
Qed.

End UploadFacts.

Module StoreRuns.
Import Py Store StoreLemmas StoreFacts UploadFacts PipelineRuns.

Definition runner_image (i : string) (t : Z) : image :=
  {| image_id := i; image_name := "runner"; created_at := t |}.

(** Three revisions of [runner] (created at 1, 3 and 2) and one image of
    another name. *)
Definition registry : list image :=
  [runner_image "img-a" 1; runner_image "img-b" 3; runner_image "img-c" 2;
   {| image_id := "img-other"; image_name := "other"; created_at := 5 |}].

Definition cloud_with (dr : string -> delete_outcome) : cloud :=
  {| images := registry; search_fails := false; delete_image_result := dr;
     create_fails := false; next_id := "img-new"; now := 10 |}.

Definition all_deleted : cloud := cloud_with (fun _ => Deleted).

(** Deleting [img-b] returns [False]. *)
Definition img_b_stays : cloud :=
  cloud_with (fun i => if String.eqb i "img-b" then NotDeleted else Deleted).

(** Deleting [img-b] raises. *)
Definition img_b_raises : cloud :=
  cloud_with (fun i => if String.eqb i "img-b" then DeleteRaises else Deleted).

Lemma prune_deletes_oldest_witness :
  (exists c', _prune_old_images all_deleted "runner" 1 =
     (Ok tt, c', [CSearch "runner"; CDelete "img-c"; CDelete "img-a"])) /\
  get_latest_build_id all_deleted "runner" = (Ok "img-b"%string, all_deleted, [CSearch "runner"]).
Proof.
  destruct (prune_deletes_oldest all_deleted "runner" 1 eq_refl
              ltac:(lia) ltac:(intros; reflexivity)
              ltac:(vm_compute; repeat (constructor; [rewrite list_elem_of_In; cbn; lia|]); constructor))
    as (_ & _ & (c' & E & _) & G & _).
  split.
  - exists c'. rewrite E. vm_compute. reflexivity.
  - rewrite G. vm_compute. reflexivity.
Defined.

Lemma upload_image_prune_fail_fast_witness :
  fst (fst (upload_image all_deleted "runner" 1)) = Ok "img-new"%string.
Proof.
  destruct (upload_image_prune_fail_fast all_deleted "runner" 1 _ _ _ eq_refl eq_refl
              (triple_eta _))
    as (pre & rest & _ & _ & [(_ & Hr & _) | (i & post & _ & Hi & _)] & _).
  - exact Hr.
  - exfalso. apply Hi. reflexivity.
Defined.

(** store.py: the upload succeeds, then the first stale deletion
    ([img-b]) returns [False]: [upload_image] raises [OpenstackError]
    instead of returning the new id, the two older stale images are not
    attempted, and the new image stays in the registry. *)
Lemma upload_image_prune_failure_hides_id :
  upload_image img_b_stays "runner" 1 =
    (Err (Exn "OpenstackError" "Failed to delete image: img-b" None),
     add_image img_b_stays (runner_image "img-new" 10),
     [CCreate "runner"; CSearch "runner"; CDelete "img-b"]).
Proof. vm_compute. reflexivity. Qed.

Lemma manager_prunes_before_create_witness :
  (exists lg, snd (Upload.upload_image img_b_raises "runner" 1) =
     CSearch "runner" :: lg ++ [CCreate "runner"] /\
   deleted_ids lg = ["img-b"; "img-c"; "img-a"]%string /\
   lg = [CDelete "img-b"; CLogError "Failed to prune old image, "; CDelete "img-c";
         CDelete "img-a"]) /\
  (exists lg, snd (Upload.upload_image all_deleted "runner" 0) =
     CSearch "runner" :: lg ++ [CCreate "runner"] /\ deleted_ids lg = ["img-a"]%string).
Proof.
  split.
  - destruct (manager_prunes_before_create img_b_raises "runner" 1 _ _ _ eq_refl eq_refl
                (triple_eta _)) as (_ & (lg & Ht & Hd & Hl) & _ & _).
    exists lg. split; [exact Ht|]. split; [rewrite Hd; vm_compute; reflexivity|].
    rewrite Hl. vm_compute. reflexivity.
  - destruct (manager_prunes_before_create all_deleted "runner" 0 _ _ _ eq_refl eq_refl
                (triple_eta _)) as (_ & (lg & Ht & Hd & _) & _ & H0).
    exists lg. split; [exact Ht|]. rewrite Hd.
    rewrite (H0 eq_refl (runner_image "img-a" 1) [runner_image "img-b" 3; runner_image "img-c" 2])
      by (vm_compute; reflexivity).
    reflexivity.
Defined.

End StoreRuns.

(* ------------------------------------------------------------------ *)
(** ** config.py *)

Module ConfigFacts.
Import Py Shasums Config.

Lemma lts_lookup_none (s : string) :
  s <> "22.04"%string -> s <> "24.04"%string -> LTS_IMAGE_VERSION_TAG_MAP !! s = None.
Proof.
  intros H1 H2. unfold LTS_IMAGE_VERSION_TAG_MAP.
  rewrite lookup_insert_ne by congruence. rewrite lookup_insert_ne by congruence.
  apply lookup_empty.
Qed.

Lemma base_image_of_value_spec (v : string) (b : BaseImage) :
  base_image_of_value v = Ok b <-> v = base_image_value b.
Proof.
  unfold base_image_of_value.
  destruct (String.eqb_spec v (base_image_value JAMMY)) as [->|H1].
  { split; [intros [= <-]; reflexivity | destruct b; cbn; congruence]. }
  destruct (String.eqb_spec v (base_image_value NOBLE)) as [->|H2].
  { split; [intros [= <-]; reflexivity | destruct b; cbn; congruence]. }
  split; [discriminate | intros ->; destruct b; contradiction].
Qed.

(** [BaseImage.from_str] accepts exactly the two member values and the
    two LTS version tags, the tag ["22.04"] giving [JAMMY] and ["24.04"]
    giving [NOBLE]; any other string raises [ValueError].  In particular
    [from_str] inverts [.value]. *)
Theorem from_str_spec (s : string) :
  (forall b, from_str s = Ok b <->
     s = base_image_value b \/ (s = "22.04"%string /\ b = JAMMY) \/ (s = "24.04"%string /\ b = NOBLE)) /\
  (forall e, from_str s = Err e -> exn_name e = "ValueError"%string) /\
  (forall b, from_str (base_image_value b) = Ok b).
Proof.
  assert (Hv : forall b, from_str (base_image_value b) = Ok b) by (intros []; reflexivity).
  split; [|split; [|exact Hv]].
  - intros b.
    destruct (String.eqb_spec s "22.04") as [->|H1].
    { split; [intros [= <-]; right; left; auto|].
      intros [Hs|[[_ ->]|[Hs _]]]; [destruct b; discriminate | reflexivity | discriminate]. }
    destruct (String.eqb_spec s "24.04") as [->|H2].
    { split; [intros [= <-]; right; right; auto|].
      intros [Hs|[[Hs _]|[_ ->]]]; [destruct b; discriminate | discriminate | reflexivity]. }
    unfold from_str. rewrite lts_lookup_none by assumption. rewrite base_image_of_value_spec.
    split; [intros H; left; exact H | intros [H|[[H _]|[H _]]]; [exact H | contradiction | contradiction]].
  - intros e. unfold from_str, base_image_of_value.
    destruct (LTS_IMAGE_VERSION_TAG_MAP !! s) as [v|];
      repeat case_match; first [discriminate | intros [= <-]; reflexivity].
Qed.

(** [get_supported_arch] maps ["aarch64"] and ["arm64"] to [ARM64] and
    ["x86_64"] to [X64], and raises [UnsupportedArchitectureError] on any
    other machine name; so it inverts [Arch.to_openstack].  It does not
    invert [Arch.value]: ["x64"], the value of [X64], is refused. *)
Theorem get_supported_arch_spec (machine : string) :
  (forall a, get_supported_arch machine = Ok a <->
     machine = to_openstack a \/ (a = ARM64 /\ machine = arch_value ARM64)) /\
  (forall e, get_supported_arch machine = Err e ->
     exn_name e = "UnsupportedArchitectureError"%string) /\
  (forall a, get_supported_arch (to_openstack a) = Ok a) /\
  (forall a, get_supported_arch (arch_value a) = Ok a <-> a = ARM64).
Proof.
  split; [|split; [|split]].
  - intros a. unfold get_supported_arch. cbn [existsb ARCHITECTURES_ARM64 ARCHITECTURES_X86].
    rewrite orb_false_r.
    destruct (String.eqb_spec machine "aarch64") as [->|H1]; cbn [orb].
    { split; [intros [= <-]; left; reflexivity|].
      intros [H|[-> _]]; [destruct a; [reflexivity | discriminate] | reflexivity]. }
    destruct (String.eqb_spec machine "arm64") as [->|H2].
    { split; [intros [= <-]; right; auto|].
      intros [H|[-> _]]; [destruct a; discriminate | reflexivity]. }
    destruct (String.eqb_spec machine "x86_64") as [->|H3].
    { split; [intros [= <-]; left; reflexivity|].
      intros [H|[_ H]]; [destruct a; [discriminate | reflexivity] | discriminate]. }
    split; [discriminate|].
    intros [H|[_ H]]; [destruct a; cbn in H; contradiction | contradiction].
  - intros e. unfold get_supported_arch.
    repeat case_match; first [discriminate | intros [= <-]; reflexivity].
  - intros []; reflexivity.
  - intros []; cbn; split; first [reflexivity | discriminate].
Qed.

End ConfigFacts.

(* ------------------------------------------------------------------ *)
(** ** Sequences of commands: the steps of builder.py *)

Module StepFacts.
Import Py Retry Host PipelineFacts Setup.

(** Whether a run of a command with [check] raises on outcome [o], and
    what it raises. *)
Definition fails (check : bool) (o : outcome) : bool :=
  match o with TimedOut => true | Exited z => check && negb (Z.eqb z 0) end.

Definition run_error (c : cmd) (o : outcome) : exn :=
  match o with TimedOut => TimeoutExpired c | Exited _ => CalledProcessError c end.

(** A straight sequence of [subprocess.run] calls, all with the same
    [check]. *)
Fixpoint run_seq (check : bool) (cs : list cmd) : M unit :=
  match cs with
  | [] => ret tt
  | [c] => run c check
  | c :: cs' => let* _ := run c check in run_seq check cs'
  end.

Definition passed (check : bool) (c : cmd) (ev : event) : Prop :=
  exists o, ev = ECmd c o /\ fails check o = false.

(** Either every command ran, in order, and none failed; or a prefix ran
    without failure, the next command failed with outcome [o], nothing
    after it ran, and [err c o] was raised. *)
Definition seq_outcome (check : bool) (err : cmd -> outcome -> exn) (cs : list cmd)
    (r : res unit) (tr : list event) : Prop :=
  (r = Ok tt /\ Forall2 (passed check) cs tr) \/
  (exists ok c o rest pre, cs = ok ++ c :: rest /\ Forall2 (passed check) ok pre /\
     fails check o = true /\ tr = pre ++ [ECmd c o] /\ r = Err (err c o)).

Definition ok_event (c : cmd) : event := ECmd c (Exited 0).

(** The same, for [check=True]: a command passes when it exits with 0. *)
Definition checked_outcome (err : cmd -> outcome -> exn) (cs : list cmd)
    (r : res unit) (tr : list event) : Prop :=
  (r = Ok tt /\ tr = map ok_event cs) \/
  (exists ok c o rest, cs = ok ++ c :: rest /\ o <> Exited 0 /\
     tr = map ok_event ok ++ [ECmd c o] /\ r = Err (err c o)).

(** The same, for [check=False]: only a timeout stops the sequence. *)
Definition unchecked_outcome (err : cmd -> exn) (cs : list cmd)
    (r : res unit) (tr : list event) : Prop :=
  (r = Ok tt /\ Forall2 (fun c ev => exists z, ev = ECmd c (Exited z)) cs tr) \/
  (exists ok c rest pre, cs = ok ++ c :: rest /\
     Forall2 (fun c ev => exists z, ev = ECmd c (Exited z)) ok pre /\
     tr = pre ++ [ECmd c TimedOut] /\ r = Err (err c)).

Definition unmount_cmds : list cmd :=
  [Umount (mount_subpath "dev"); Umount (mount_subpath "proc");
   Umount (mount_subpath "sys"); Umount IMAGE_MOUNT_DIR;
   Umount NETWORK_BLOCK_DEVICE_PATH; Umount NETWORK_BLOCK_DEVICE_PARTITION_PATH].

Definition disconnect_cmds : list cmd :=
  [NbdDisconnect NETWORK_BLOCK_DEVICE_PATH; NbdDisconnect NETWORK_BLOCK_DEVICE_PARTITION_PATH].

Lemma run_outcome (c : cmd) (check : bool) h r h' l :
  run c check h = (r, h', l) ->
  exists o, l = [ECmd c o] /\
    ((fails check o = false /\ r = Ok tt) \/ (fails check o = true /\ r = Err (run_error c o))).
Proof.
  unfold run. destruct (exec h c) as [o h1]. intros [= <- _ <-]. exists o. split; [reflexivity|].
  destruct o as [z|]; cbn [fails run_error].
  - destruct (check && negb (Z.eqb z 0)); [right|left]; auto.
  - right. auto.
Qed.

Lemma run_seq_outcome (check : bool) (cs : list cmd) h r h' tr :
  run_seq check cs h = (r, h', tr) -> seq_outcome check run_error cs r tr.
Proof.
  revert h r h' tr. induction cs as [|c cs IH]; intros h r h' tr.
  - intros [= <- _ <-]. left. split; [reflexivity | constructor].
  - destruct cs as [|c' cs'].
    + cbn [run_seq]. intros H. apply run_outcome in H as (o & -> & [[Hf ->]|[Hf ->]]).
      * left. split; [reflexivity|]. repeat constructor. exists o. auto.
      * right. exists [], c, o, [], []. repeat split; auto.
    + change (run_seq check (c :: c' :: cs')) with
        (bind (run c check) (fun _ => run_seq check (c' :: cs'))).
      intros H. apply bind_inv in H as [(e & H1 & ->) | (a & h1 & l1 & l2 & H1 & H2 & ->)].
      * apply run_outcome in H1 as (o & -> & [[_ [=]]|[Hf [= ->]]]).
        right. exists [], c, o, (c' :: cs'), []. repeat split; auto.
      * apply run_outcome in H1 as (o & -> & [[Hf _]|[_ [=]]]).
        assert (Hp : passed check c (ECmd c o)) by (exists o; auto).
        apply IH in H2 as [[-> Hall]|(ok & c0 & o0 & rest & pre & Hcs & Hok & Hf0 & -> & ->)].
        -- left. split; [reflexivity|]. constructor; assumption.
        -- right. exists (c :: ok), c0, o0, rest, (ECmd c o :: pre).
           rewrite Hcs. repeat split; auto.
Qed.

Lemma run_checked_seq (cs : list cmd) h : run_checked cs h = run_seq true cs h.
Proof.
  revert h. induction cs as [|c cs IH]; intros h; [reflexivity|].
  destruct cs as [|c' cs'].
  - change (run_checked [c]) with (bind (run c true) (fun _ => ret tt)).
    cbn [run_seq]. unfold bind, ret.
    destruct (run c true h) as [[[[]|e] h1] l1]; [rewrite app_nil_r|]; reflexivity.
  - change (run_checked (c :: c' :: cs')) with
      (bind (run c true) (fun _ => run_checked (c' :: cs'))).
    change (run_seq true (c :: c' :: cs')) with
      (bind (run c true) (fun _ => run_seq true (c' :: cs'))).
    unfold bind. destruct (run c true h) as [[[a|e] h1] l1]; [rewrite IH|]; reflexivity.
Qed.

Lemma run_error_subprocess (c : cmd) (o : outcome) : is_subprocess_error (run_error c o) = true.
Proof. destruct o; reflexivity. Qed.

Lemma wrap_seq_outcome (name : string) (check : bool) (cs : list cmd) h r h' tr :
  wrap name (run_seq check cs) h = (r, h', tr) ->
  seq_outcome check (fun c o => Exn name "" (Some (run_error c o))) cs r tr.
Proof.
  unfold wrap, try_except. destruct (run_seq check cs h) as [[r0 h0] l0] eqn:E.
  apply run_seq_outcome in E.
  destruct E as [[-> Hall]|(ok & c & o & rest & pre & Hcs & Hok & Hf & -> & ->)].
  - intros [= <- _ <-]. left. auto.
  - rewrite run_error_subprocess. cbn. intros [= <- _ <-]. right.
    exists ok, c, o, rest, pre. rewrite app_nil_r. auto.
Qed.

Lemma passed_true (c : cmd) (ev : event) : passed true c ev <-> ev = ok_event c.
Proof.
  unfold passed, ok_event. split.
  - intros ([z|] & -> & Hf); cbn in Hf; [|discriminate].
    destruct (Z.eqb_spec z 0); [subst; reflexivity | discriminate].
  - intros ->. exists (Exited 0). auto.
Qed.

Lemma forall2_passed_true (cs : list cmd) (tr : list event) :
  Forall2 (passed true) cs tr -> tr = map ok_event cs.
Proof.
  induction 1 as [|c ev cs tr Hp _ IH]; [reflexivity|].
  apply passed_true in Hp. cbn. congruence.
Qed.

Lemma seq_outcome_checked (err : cmd -> outcome -> exn) (cs : list cmd) r tr :
  seq_outcome true err cs r tr -> checked_outcome err cs r tr.
Proof.
  intros [[-> Hall]|(ok & c & o & rest & pre & Hcs & Hok & Hf & -> & ->)].
  - left. split; [reflexivity | apply forall2_passed_true, Hall].
  - right. exists ok, c, o, rest. split; [exact Hcs|]. split.
    + intros ->. discriminate.
    + rewrite (forall2_passed_true _ _ Hok). auto.
Qed.

Lemma passed_false (c : cmd) (ev : event) :
  passed false c ev -> exists z, ev = ECmd c (Exited z).
Proof. intros ([z|] & -> & Hf); [eauto | discriminate]. Qed.

Lemma seq_outcome_unchecked (err : cmd -> exn) (cs : list cmd) r tr :
  seq_outcome false (fun c _ => err c) cs r tr -> unchecked_outcome err cs r tr.
Proof.
  intros [[-> Hall]|(ok & c & o & rest & pre & Hcs & Hok & Hf & -> & ->)].
  - left. split; [reflexivity|]. eapply Forall2_impl; [exact Hall|]. apply passed_false.
  - right. destruct o as [z|]; [discriminate|].
    exists ok, c, rest, pre. split; [exact Hcs|]. split; [|auto].
    eapply Forall2_impl; [exact Hok|]. apply passed_false.
Qed.

Lemma wrap_cpe_outcome (name : string) (check : bool) (cs : list cmd) h r h' tr :
  wrap_called_process_error name (run_seq check cs) h = (r, h', tr) ->
  seq_outcome check (fun c o => match o with
                                | TimedOut => TimeoutExpired c
                                | Exited _ => Exn name "" (Some (CalledProcessError c))
                                end) cs r tr.
Proof.
  unfold wrap_called_process_error, try_except.
  destruct (run_seq check cs h) as [[r0 h0] l0] eqn:E.
  apply run_seq_outcome in E.
  destruct E as [[-> Hall]|(ok & c & o & rest & pre & Hcs & Hok & Hf & -> & ->)].
  - intros [= <- _ <-]. left. auto.
  - destruct o as [z|]; cbn.
    + intros [= <- _ <-]. right. exists ok, c, (Exited z), rest, pre. rewrite app_nil_r. auto.
    + intros [= <- _ <-]. right. exists ok, c, TimedOut, rest, pre. auto.
Qed.

Lemma singleton_split {A : Type} (x : A) (ok : list A) (c : A) (rest : list A) :
  [x] = ok ++ c :: rest -> ok = [] /\ c = x /\ rest = [].
Proof. destruct ok as [|y [|z ok]]; cbn; intros H; inversion H; auto. Qed.

(** The checked steps of builder.py: [_resize_image],
    [_resize_mount_partitions], [_disable_unattended_upgrades],
    [_configure_usr_local_bin], [_install_yarn] and
    [_disconnect_image_to_network_block_device(check=True)] run their
    commands in the order written; they return when every command exits
    with 0, and otherwise stop at the first command that exits non-zero or
    times out, run nothing after it, and raise the step's own error
    chained to that command's [CalledProcessError] or [TimeoutExpired]. *)
Theorem checked_steps_fail_fast (image_path : string) :
  Forall (fun '(step, name, cs) =>
            forall h, let '(r, _, tr) := step h in
              checked_outcome (fun c o => Exn name "" (Some (run_error c o))) cs r tr)
    [(_resize_image image_path, "ImageResizeError"%string,
      [Run ["/usr/bin/qemu-img"; "resize"; image_path; RESIZE_AMOUNT]%string]);
     (_resize_mount_partitions, "ResizePartitionError"%string, [growpart_cmd; resize2fs_cmd]);
     (_disable_unattended_upgrades, "UnattendedUpgradeDisableError"%string,
      map Run
        [["/usr/bin/systemctl"; "stop"; "apt-daily.timer"];
         ["/usr/bin/systemctl"; "disable"; "apt-daily.timer"];
         ["/usr/bin/systemctl"; "mask"; "apt-daily.service"];
         ["/usr/bin/systemctl"; "stop"; "apt-daily-upgrade.timer"];
         ["/usr/bin/systemctl"; "disable"; "apt-daily-upgrade.timer"];
         ["/usr/bin/systemctl"; "mask"; "apt-daily-upgrade.service"];
         ["/usr/bin/systemctl"; "daemon-reload"];
         ["/usr/bin/apt-get"; "remove"; "-y"; "unattended-upgrades"]]%string);
     (_configure_usr_local_bin, "PermissionConfigurationError"%string,
      [Run ["/usr/bin/chmod"; "777"; "/usr/local/bin"]%string]);
     (_install_yarn, "YarnInstallError"%string,
      [Run ["/usr/bin/npm"; "install"; "--global"; "yarn"]%string;
       Run ["/usr/bin/npm"; "cache"; "clean"; "--force"]%string]);
     (_disconnect_image_to_network_block_device true, "ImageConnectError"%string, disconnect_cmds)].
Proof.
  assert (Hgen : forall (step : M unit) name cs,
             (forall h, step h = wrap name (run_seq true cs) h) ->
             forall h, let '(r, _, tr) := step h in
               checked_outcome (fun c o => Exn name "" (Some (run_error c o))) cs r tr).
  { intros step name cs Hs h. rewrite Hs.
    destruct (wrap name (run_seq true cs) h) as [[r h'] tr] eqn:E.
    apply seq_outcome_checked. exact (wrap_seq_outcome _ _ _ _ _ _ _ E). }
  repeat constructor; apply Hgen; try reflexivity.
  intros h. unfold _disable_unattended_upgrades, wrap, try_except. rewrite run_checked_seq. reflexivity.
Qed.

(** [initialize] runs [apt-get update], [apt-get install] of the four
    build dependencies, [snap install go --classic] and then [modprobe nbd],
    in that order, stopping at the first command that does not exit with 0.
    A non-zero exit raises [DependencyInstallError] (for the first three)
    or [NetworkBlockDeviceError] (for [modprobe]) chained to the
    [CalledProcessError]; a timeout is not caught and raises the bare
    [TimeoutExpired]. *)
Theorem initialize_outcome (h : host) :
  let '(r, _, tr) := initialize h in
  checked_outcome
    (fun c o => match o with
                | TimedOut => TimeoutExpired c
                | Exited _ =>
                    Exn (if cmd_eq_dec c modprobe_nbd_cmd then "NetworkBlockDeviceError"
                         else "DependencyInstallError") "" (Some (CalledProcessError c))
                end)
    (install_dependencies_cmds ++ [modprobe_nbd_cmd]) r tr.
Proof.
  destruct (initialize h) as [[r h'] tr] eqn:E. unfold initialize in E.
  apply bind_inv in E as [(e & H1 & ->) | (a & h1 & l1 & l2 & H1 & H2 & ->)].
  - unfold _install_dependencies, wrap_called_process_error, try_except in H1.
    rewrite run_checked_seq in H1.
    apply (wrap_cpe_outcome "DependencyInstallError" true install_dependencies_cmds h) in H1.
    apply seq_outcome_checked in H1.
    destruct H1 as [[[=] _]|(ok & c & o & rest & Hcs & Ho & -> & [= ->])].
    right. exists ok, c, o, (rest ++ [modprobe_nbd_cmd]). rewrite Hcs, <- app_assoc.
    split; [reflexivity|]. split; [exact Ho|]. split; [reflexivity|].
    assert (Hc : In c install_dependencies_cmds) by (rewrite Hcs; apply in_elt).
    destruct (cmd_eq_dec c modprobe_nbd_cmd) as [->|_].
    + exfalso. cbn in Hc. repeat destruct Hc as [Hc|Hc]; try discriminate Hc; exact Hc.
    + reflexivity.
  - unfold _install_dependencies, wrap_called_process_error, try_except in H1.
    rewrite run_checked_seq in H1.
    apply (wrap_cpe_outcome "DependencyInstallError" true install_dependencies_cmds h) in H1.
    apply seq_outcome_checked in H1.
    destruct H1 as [[_ ->]|(ok & c & o & rest & _ & _ & _ & [=])].
    change _enable_network_block_device with
      (wrap_called_process_error "NetworkBlockDeviceError" (run_seq true [modprobe_nbd_cmd])) in H2.
    apply wrap_cpe_outcome, seq_outcome_checked in H2.
    destruct H2 as [[-> ->]|(ok & c & o & rest & Hcs & Ho & -> & ->)].
    + left. split; [reflexivity|]. rewrite map_app. reflexivity.
    + apply singleton_split in Hcs as (-> & -> & ->).
      right. exists install_dependencies_cmds, modprobe_nbd_cmd, o, [].
      split; [reflexivity|]. split; [exact Ho|]. split; [reflexivity|].
      destruct o; reflexivity.
Qed.

(** The clean-state steps of [build_image], [_unmount_build_path] and
    [_disconnect_image_to_network_block_device(check=False)], run all their
    commands in order whatever exit codes they return; only a timeout stops
    them, and it raises the step's own error chained to that
    [TimeoutExpired], with nothing run after the command that timed out. *)
Theorem unchecked_steps_stop_on_timeout :
  Forall (fun '(step, name, cs) =>
            forall h, let '(r, _, tr) := step h in
              unchecked_outcome (fun c => Exn name "" (Some (TimeoutExpired c))) cs r tr)
    [(_unmount_build_path, "UnmountBuildPathError"%string, unmount_cmds);
     (_disconnect_image_to_network_block_device false, "ImageConnectError"%string, disconnect_cmds)].
Proof.
  assert (Hgen : forall (step : M unit) name cs,
             step = wrap name (run_seq false cs) ->
             forall h, let '(r, _, tr) := step h in
               unchecked_outcome (fun c => Exn name "" (Some (TimeoutExpired c))) cs r tr).
  { intros step name cs -> h.
    destruct (wrap name (run_seq false cs) h) as [[r h'] tr] eqn:E.
    apply wrap_seq_outcome in E. apply seq_outcome_unchecked.
    destruct E as [E|(ok & c & o & rest & pre & Hcs & Hok & Hf & Htr & Hr)]; [left; exact E|].
    right. exists ok, c, o, rest, pre. repeat split; try assumption.
    rewrite Hr. destruct o; [discriminate | reflexivity]. }
  repeat constructor; apply Hgen; reflexivity.
Qed.

End StepFacts.

(* ------------------------------------------------------------------ *)
(** ** [_install_yq] and [build_image] *)

Module BuildFacts.
Import Py Retry Host CleanupFacts PipelineFacts StepFacts.

Definition git_pull_argv : list string := ["/usr/bin/git"; "-C"; YQ_REPOSITORY_PATH; "pull"]%string.
Definition go_build_cmd : cmd :=
  Run ["/snap/bin/go"; "build"; "-C"; YQ_REPOSITORY_PATH; "-o"; HOST_YQ_BIN_PATH]%string.

(** One attempt of [_install_yq], the function under [@retry]. *)
Definition yq_attempt : M unit :=
  wrap "YQBuildError" (
    let* h := get in
    let* _ := (if yq_source h then run (Run git_pull_argv) true else run (Run git_clone_argv) true) in
    let* _ := run go_build_cmd true in
    emit (ECopy HOST_YQ_BIN_PATH MOUNTED_YQ_BIN_PATH)).

Lemma install_yq_retry : _install_yq = retry_M yq_policy yq_attempt.
Proof. reflexivity. Qed.

Lemma exec_yq_mono (h : host) (c : cmd) : yq_source h = true -> yq_source (snd (exec h c)) = true.
Proof.
  intros H. unfold exec. destruct (fault h c); [exact H|].
  destruct c; cbn [cmd_sem]; unfold umount_sem; repeat case_match; first [exact H | reflexivity].
Qed.

Lemma retry_go_err {St A : Type} (Inv : St -> Prop) (P : exn -> Prop) (p : policy)
    (op : nat -> St -> res A * St) :
  (forall k s e s', Inv s -> op k s = (Err e, s') -> Inv s' /\ P e) ->
  forall left k s e s' n sl, Inv s -> retry_go p op left k s = (Err e, s', n, sl) -> Inv s' /\ P e.
Proof.
  intros Hop left. induction left as [|left IH]; intros k s e s' n sl Hs; cbn [retry_go];
    destruct (op k s) as [[a|e0] s1] eqn:Ek.
  - discriminate.
  - intros [= <- <- _ _]. exact (Hop _ _ _ _ Hs Ek).
  - discriminate.
  - destruct (retry_go p op left (S k) s1) as [[[r2 s2] n2] sl2] eqn:E.
    intros [= -> <- <- <-]. apply (IH _ _ _ _ _ _ (proj1 (Hop _ _ _ _ Hs Ek)) E).
Qed.

(** A failed retried call: every attempt failed; what holds of the host
    and the trace so far after a failed attempt holds at the end. *)
Lemma retry_M_err {A : Type} (p : policy) (op : M A) (Inv : host -> list event -> Prop)
    (P : exn -> Prop) h e h' tr :
  (forall h0 t0 e0 h1 l, Inv h0 t0 -> op h0 = (Err e0, h1, l) -> Inv h1 (t0 ++ l) /\ P e0) ->
  Inv h [] -> retry_M p op h = (Err e, h', tr) -> Inv h' tr /\ P e.
Proof.
  intros Hop Hh. unfold retry_M, retry_st.
  destruct (retry_go p (logged_attempt op) (Nat.pred (tries p)) 0 (h, []))
    as [[[r1 [h1 t1]] n] sl] eqn:E.
  intros [= -> <- <-].
  refine (retry_go_err (fun s => Inv (fst s) (snd s)) P p (logged_attempt op) _ _ _ _ _ _ _ _ _ E);
    [|exact Hh].
  intros k [h0 t0] e0 [h2 t2] HI. unfold logged_attempt.
  destruct (op h0) as [[r0 h3] l] eqn:Eo. intros [= -> <- <-].
  exact (Hop _ _ _ _ _ HI Eo).
Qed.

Lemma retry_M_all {A : Type} (p : policy) (op : M A) (Inv : host -> list event -> Prop) h r h' tr :
  (forall h0 t0 r0 h1 l, Inv h0 t0 -> op h0 = (r0, h1, l) -> Inv h1 (t0 ++ l)) ->
  Inv h [] -> retry_M p op h = (r, h', tr) -> Inv h' tr.
Proof.
  intros Hop Hh. unfold retry_M, retry_st.
  destruct (retry_go p (logged_attempt op) (Nat.pred (tries p)) 0 (h, []))
    as [[[r1 [h1 t1]] n] sl] eqn:E.
  intros [= -> <- <-].
  refine (RetryFacts.retry_go_inv (fun s => Inv (fst s) (snd s)) p (logged_attempt op) _ _ _ _ _ _ _ _ _ E);
    [|exact Hh].
  intros k [h0 t0] HI. unfold logged_attempt.
  destruct (op h0) as [[r0 h3] l] eqn:Eo. exact (Hop _ _ _ _ _ HI Eo).
Qed.

Lemma yq_attempt_pulls (h : host) r h' l :
  yq_source h = true -> yq_attempt h = (r, h', l) ->
  yq_source h' = true /\ forall o, ~ In (ECmd (Run git_clone_argv) o) l.
Proof.
  intros Hy. pose proof (exec_yq_mono h (Run git_pull_argv) Hy) as Hy1.
  unfold yq_attempt, wrap, try_except, bind, get, emit, run. rewrite Hy.
  destruct (exec h (Run git_pull_argv)) as [o1 h1] eqn:E1. cbn [snd] in Hy1.
  pose proof (exec_yq_mono h1 go_build_cmd Hy1) as Hy2.
  destruct (exec h1 go_build_cmd) as [o2 h2] eqn:E2. cbn [snd] in Hy2.
  destruct o1 as [z1|]; [destruct (Z.eqb z1 0)|]; cbn;
    try (intros [= <- <- <-]; split; [assumption | intros o Hin; cbn in Hin; intuition discriminate]).
  destruct o2 as [z2|]; [destruct (Z.eqb z2 0)|]; cbn;
    intros [= <- <- <-]; split; try assumption; intros o Hin; cbn in Hin; intuition discriminate.
Qed.

Lemma yq_attempt_err (h : host) e h' l :
  yq_attempt h = (Err e, h', l) ->
  exn_name e = "YQBuildError"%string /\ forall s d, ~ In (ECopy s d) l.
Proof.
  unfold yq_attempt, wrap, try_except, bind, get, emit, run.
  destruct (exec h (if yq_source h then Run git_pull_argv else Run git_clone_argv)) eqn:E0.
  destruct (yq_source h);
  destruct (exec h _) as [o1 h1];
  (destruct o1 as [z1|]; [destruct (Z.eqb z1 0)|]); cbn;
    try (intros [= <- <- <-]; split; [reflexivity | intros s d Hin; cbn in Hin; intuition discriminate]);
  destruct (exec h1 go_build_cmd) as [o2 h2];
  (destruct o2 as [z2|]; [destruct (Z.eqb z2 0)|]); cbn;
    first [discriminate | intros [= <- <- <-]; split; [reflexivity | intros s d Hin; cbn in Hin; intuition discriminate]].
Qed.

Lemma yq_attempt_ok (h : host) a h' l :
  yq_attempt h = (Ok a, h', l) ->
  exists git, (git = git_pull_argv \/ git = git_clone_argv) /\
    l = [ECmd (Run git) (Exited 0); ECmd go_build_cmd (Exited 0);
         ECopy HOST_YQ_BIN_PATH MOUNTED_YQ_BIN_PATH].
Proof.
  unfold yq_attempt. intros H. apply wrap_ok in H.
  apply bind_inv in H as [(e & _ & [=]) | (h0 & h1 & l1 & l2 & [= <- <- <-] & H2 & ->)].
  apply bind_inv in H2 as [(e & _ & [=]) | (u & h2 & l3 & l4 & H3 & H4 & ->)].
  apply bind_inv in H4 as [(e & _ & [=]) | (u' & h3 & l5 & l6 & H5 & [= _ _ <-] & ->)].
  apply run_ok_inv in H5 as [_ ->].
  destruct (yq_source h); apply run_ok_inv in H3 as [_ ->].
  - exists git_pull_argv. split; [left|]; reflexivity.
  - exists git_clone_argv. split; [right|]; reflexivity.
Qed.

(** [_install_yq] clones the yq sources only when they are not there
    yet: once [yq_source] exists, no attempt clones again (each one pulls)
    and the directory stays.  A successful call ends with the copy of the
    built binary into the image, right after a successful [go build] and a
    successful clone or pull; a failed call (after its retries) raises
    [YQBuildError] and has copied nothing into the image. *)
Theorem install_yq_outcome (h : host) :
  let '(r, h', tr) := _install_yq h in
  (yq_source h = true -> yq_source h' = true /\ forall o, ~ In (ECmd (Run git_clone_argv) o) tr) /\
  (r = Ok tt -> exists tr0 git, (git = git_pull_argv \/ git = git_clone_argv) /\
     tr = tr0 ++ [ECmd (Run git) (Exited 0); ECmd go_build_cmd (Exited 0);
                  ECopy HOST_YQ_BIN_PATH MOUNTED_YQ_BIN_PATH]) /\
  (forall e, r = Err e -> exn_name e = "YQBuildError"%string /\ forall s d, ~ In (ECopy s d) tr).
Proof.
  rewrite install_yq_retry.
  destruct (retry_M yq_policy yq_attempt h) as [[r h'] tr] eqn:E.
  split; [|split].
  - intros Hy.
    refine (retry_M_all yq_policy yq_attempt
              (fun h0 t0 => yq_source h0 = true /\ forall o, ~ In (ECmd (Run git_clone_argv) o) t0)
              h r h' tr _ _ E).
    + intros h0 t0 r0 h1 l [Hy0 Ht0] Eo.
      destruct (yq_attempt_pulls h0 r0 h1 l Hy0 Eo) as [Hy1 Hl].
      split; [exact Hy1|]. intros o Hin. apply in_app_or in Hin as [Hin|Hin]; [exact (Ht0 o Hin) | exact (Hl o Hin)].
    + split; [exact Hy | intros o []].
  - intros ->.
    apply (retry_M_ok _ _ (fun _ => True)) in E as (h0 & tr0 & l & _ & Eo & ->); auto.
    apply yq_attempt_ok in Eo as (git & Hg & ->). eauto.
  - intros e ->.
    assert (H : (forall s d, ~ In (ECopy s d) tr) /\ exn_name e = "YQBuildError"%string).
    { apply (retry_M_err yq_policy yq_attempt (fun _ t0 => forall s d, ~ In (ECopy s d) t0)
               (fun e => exn_name e = "YQBuildError"%string) h e h' tr); [|intros s d []|exact E].
      intros h0 t0 e0 h1 l Ht0 Eo. destruct (yq_attempt_err h0 e0 h1 l Eo) as [Hn Hl].
      split; [|exact Hn]. intros s d Hin. apply in_app_or in Hin as [Hin|Hin];
        [exact (Ht0 s d Hin) | exact (Hl s d Hin)]. }
    tauto.
Qed.

Lemma seq_outcome_length (check : bool) (err : cmd -> outcome -> exn) (cs : list cmd) r tr :
  seq_outcome check err cs r tr ->
  (length tr <= length cs)%nat /\ (r = Ok tt -> length tr = length cs).
Proof.
  intros [[-> Hall]|(ok & c & o & rest & pre & -> & Hok & _ & -> & ->)].
  - apply Forall2_length in Hall. split; [lia | auto].
  - apply Forall2_length in Hok. rewrite !length_app. cbn. split; [lia | discriminate].
Qed.

(** [build_image] with a failed download: after the clean-state pass it
    creates the mount directory, and the error of
    [_download_and_validate_image] propagates unchanged; no command runs
    on the image. *)
Theorem build_image_download_failure arch base env (h h1 : host) tr1 e :
  clean_build_state h = (Ok tt, h1, tr1) ->
  Shasums.dl_result (Shasums._download_and_validate_image arch base env) = Err e ->
  build_image arch base env h = (Err e, h1, tr1 ++ [EMkdir IMAGE_MOUNT_DIR; EDownload]).
Proof.
  intros Hc Hd. unfold clean_build_state, bind in Hc. unfold build_image, bind.
  destruct (_unmount_build_path h) as [[[[]|e1] h2] l2]; [|discriminate].
  destruct (_disconnect_image_to_network_block_device false h2) as [[[[]|e2] h3] l3];
    [|discriminate].
  injection Hc as <- <-.
  unfold emit, download_step. rewrite Hd. rewrite <- !app_assoc. reflexivity.
Qed.

Definition unmounts_image (ev : event) : bool :=
  match ev with
  | ECmd (Umount t) _ =>
      String.eqb t IMAGE_MOUNT_DIR || String.eqb t NETWORK_BLOCK_DEVICE_PARTITION_PATH
  | _ => false
  end.

Lemma after_cleanup_sound arch base env :
  sound unmounts_image
    (let* _ := emit (EMkdir IMAGE_MOUNT_DIR) in
     let* base_image_path := download_step arch base env in
     let* _ := _resize_image base_image_path in
     let* _ := _connect_image_to_network_block_device base_image_path in
     let* _ := _resize_mount_partitions in
     let* _ := _install_yq in
     let* _ := _replace_mounted_resolv_conf in
     let* _ := try_except (chroot_session IMAGE_MOUNT_DIR chroot_body) is_chroot_error
                 (fun exc => raise (Exn "BuildImageError" "" (Some exc))) in
     let* _ := _disconnect_image_to_network_block_device true in
     _compress_image base_image_path).
Proof.
  unfold _resize_image, _connect_image_to_network_block_device, _mount_network_block_device_partition,
    _resize_mount_partitions, _install_yq, _replace_mounted_resolv_conf, chroot_body,
    _disable_unattended_upgrades, _configure_system_users, _configure_usr_local_bin,
    _install_yarn, _disconnect_image_to_network_block_device, _compress_image.
  prove_sound.
Qed.

(** [build_image] unmounts the mount point [/mnt/ubuntu-image] and the
    partition [/dev/nbd0p1] only in its opening clean-state pass (the
    first eight commands): no command after that unmounts either of them,
    whatever succeeds or fails: the pipeline itself never issues an
    unmount of the image before its final detach and compression. *)
Theorem build_image_never_unmounts_image arch base env (h : host) :
  let '(_, _, tr) := build_image arch base env h in
  Forall (fun ev => unmounts_image ev = false) (skipn (length cleanup_cmds) tr).
Proof.
  destruct (build_image arch base env h) as [[r h'] tr] eqn:E. unfold build_image in E.
  assert (Hu : forall h r h' l, _unmount_build_path h = (r, h', l) ->
                 (length l <= 6)%nat /\ (r = Ok tt -> length l = 6%nat)).
  { intros h0 r0 h0' l0 H0.
    change _unmount_build_path with (wrap "UnmountBuildPathError" (run_seq false unmount_cmds)) in H0.
    exact (seq_outcome_length _ _ _ _ _ (wrap_seq_outcome _ _ _ _ _ _ _ H0)). }
  assert (Hd : forall h r h' l, _disconnect_image_to_network_block_device false h = (r, h', l) ->
                 (length l <= 2)%nat /\ (r = Ok tt -> length l = 2%nat)).
  { intros h0 r0 h0' l0 H0.
    change (_disconnect_image_to_network_block_device false) with
      (wrap "ImageConnectError" (run_seq false disconnect_cmds)) in H0.
    exact (seq_outcome_length _ _ _ _ _ (wrap_seq_outcome _ _ _ _ _ _ _ H0)). }
  change (length cleanup_cmds) with 8%nat.
  apply bind_inv in E as [(e & H1 & ->) | ([] & h1 & l1 & l2 & H1 & H2 & ->)].
  - rewrite skipn_all2; [constructor|]. apply Hu in H1. lia.
  - apply Hu in H1 as [_ H1]. specialize (H1 eq_refl). cbv beta in H2.
    apply bind_inv in H2 as [(e & H2 & ->) | ([] & h2 & l3 & l4 & H2 & H3 & ->)].
    + rewrite skipn_all2; [constructor|]. apply Hd in H2. rewrite length_app. lia.
    + apply Hd in H2 as [_ H2]. specialize (H2 eq_refl). cbv beta in H3.
      rewrite app_assoc. replace 8%nat with (length (l1 ++ l3)) by (rewrite length_app; lia).
      rewrite UploadFacts.skipn_length_app.
      exact (proj2 (after_cleanup_sound arch base env _ _ _ _ H3)).
Qed.

End BuildFacts.

(* ------------------------------------------------------------------ *)
(** ** [_download_and_validate_image] and the manifest parser *)

Module DownloadFacts.
Import Py Retry Shasums.

Definition IndexError : exn := Exn "IndexError" "list index out of range" None.

(** What one failed attempt of each retried call raises. *)
Definition download_error (e : exn) : exn :=
  if is_url_error e then Exn "BaseImageDownloadError" "" (Some e) else e.
Definition fetch_error (e : exn) : exn :=
  if is_request_exception e then Exn "BaseImageDownloadError" "" (Some e) else e.

(** When every [urlretrieve] fails, [_download_and_validate_image] makes
    the three download attempts, never fetches the manifest, and raises
    what the third attempt raised: [BaseImageDownloadError] chained to the
    error when it is a [URLError] (an [HTTPError] or a
    [ContentTooShortError] included), any other error unchanged. *)
Theorem download_retries_exhausted arch base env (errs : nat -> exn) :
  (forall k, urlretrieve_attempt env k = Err (errs k)) ->
  _download_and_validate_image arch base env =
    {| dl_result := Err (download_error (errs 2%nat)); download_attempts := 3; fetch_attempts := 0 |}.
Proof.
  intros H.
  assert (Hk : forall f k, _download_base_image_attempt env f k = Err (download_error (errs k))).
  { intros f k. unfold _download_base_image_attempt, download_error. rewrite H.
    destruct (is_url_error (errs k)); reflexivity. }
  unfold _download_and_validate_image, retry, retry_st.
  cbn [retry_go tries download_policy Nat.pred]. rewrite !Hk. reflexivity.
Qed.

(** When the download succeeds at once but every manifest request fails,
    [_download_and_validate_image] makes one download and three fetch
    attempts and raises what the third fetch raised:
    [BaseImageDownloadError] chained to the error when it is a
    [RequestException] of any subclass ([ConnectionError], [Timeout],
    [HTTPError], ...), any other error unchanged. *)
Theorem fetch_retries_exhausted arch base env (errs : nat -> exn) :
  urlretrieve_attempt env 0%nat = Ok tt ->
  (forall k, requests_get_attempt env k = Err (errs k)) ->
  _download_and_validate_image arch base env =
    {| dl_result := Err (fetch_error (errs 2%nat)); download_attempts := 1; fetch_attempts := 3 |}.
Proof.
  intros H0 H.
  assert (Hk : forall k, _fetch_shasums_attempt env k = Err (fetch_error (errs k))).
  { intros k. unfold _fetch_shasums_attempt, fetch_error. rewrite H.
    destruct (is_request_exception (errs k)); reflexivity. }
  unfold _download_and_validate_image, retry, retry_st.
  cbn [retry_go tries download_policy Nat.pred].
  unfold _download_base_image_attempt at 1. rewrite H0.
  cbn [retry_go tries download_policy Nat.pred]. rewrite !Hk. reflexivity.
Qed.

Lemma fold_add_line_err (ls : list (list ascii)) (e : exn) :
  fold_left add_line ls (Err e) = Err e.
Proof. induction ls as [|l ls IH]; [reflexivity | exact IH]. Qed.

Lemma add_line_cases (m : gmap string string) (l : list ascii) :
  (length (split l) = 1%nat /\ add_line (Ok m) l = Err IndexError) \/
  (length (split l) <> 1%nat /\ exists m', add_line (Ok m) l = Ok m').
Proof.
  unfold add_line. destruct (split l) as [|d [|f rest]]; cbn.
  - right. split; [lia | eauto].
  - left. auto.
  - right. split; [lia | eauto].
Qed.

Lemma fold_add_line_exists (ls : list (list ascii)) (m : gmap string string) :
  Exists (fun l => length (split l) = 1%nat) ls -> fold_left add_line ls (Ok m) = Err IndexError.
Proof.
  revert m. induction ls as [|l ls IH]; intros m Hex; [inversion Hex|]. cbn [fold_left].
  destruct (add_line_cases m l) as [[_ ->]|[Hn (m' & ->)]].
  - apply fold_add_line_err.
  - apply IH. inversion Hex; subst; [contradiction | assumption].
Qed.

Lemma fold_add_line_forall (ls : list (list ascii)) (m : gmap string string) :
  Forall (fun l => length (split l) <> 1%nat) ls -> exists m', fold_left add_line ls (Ok m) = Ok m'.
Proof.
  revert m. induction ls as [|l ls IH]; intros m Hall; [eauto|]. cbn [fold_left].
  inversion Hall as [|? ? Hl Hls]; subst.
  destruct (add_line_cases m l) as [[Hn _]|[_ (m' & ->)]]; [contradiction | exact (IH m' Hls)].
Qed.

Lemma lstrip_all (p : ascii -> bool) (l : list ascii) :
  Forall (fun c => p c = true) l -> lstrip_by p l = [].
Proof. induction 1 as [|c l Hc _ IH]; [reflexivity | cbn; rewrite Hc; exact IH]. Qed.

(** The manifest parser of [_fetch_shasums]: a line with a single field
    makes the whole parse raise [IndexError], wherever it is; with no such
    line the parse succeeds (blank lines are skipped); a body that is empty
    or all white space gives the empty map. *)
Theorem shasums_single_field_line (s : string) :
  let lines := splitlines (strip (list_ascii_of_string s)) in
  (Exists (fun l => length (split l) = 1%nat) lines -> shasums_of_contents s = Err IndexError) /\
  (Forall (fun l => length (split l) <> 1%nat) lines -> exists m, shasums_of_contents s = Ok m) /\
  (forall e, shasums_of_contents s = Err e -> e = IndexError) /\
  (Forall (fun c => is_space c = true) (list_ascii_of_string s) -> shasums_of_contents s = Ok ∅).
Proof.
  cbv zeta. unfold shasums_of_contents.
  set (lines := splitlines (strip (list_ascii_of_string s))).
  split; [apply fold_add_line_exists|]. split; [apply fold_add_line_forall|]. split.
  - intros e He.
    destruct (Exists_dec (fun l => length (split l) = 1%nat) lines) as [Hex|Hnex].
    + rewrite (fold_add_line_exists _ _ Hex) in He. congruence.
    + apply Forall_Exists_neg in Hnex. destruct (fold_add_line_forall _ ∅ Hnex) as [m Hm].
      congruence.
  - intros Hsp. unfold lines, strip, strip_by. rewrite (lstrip_all is_space (list_ascii_of_string s) Hsp). reflexivity.
Qed.

End DownloadFacts.

(* ------------------------------------------------------------------ *)
(** ** store.py and upload.py: more of the registry code *)

Module RegistryFacts.
Import Py Store StoreLemmas StoreFacts UploadFacts.

Definition UploadImageError : exn := Exn "UploadImageError" "" (Some OpenStackCloudException).

Lemma store_loop_deleted_in (c : cloud) (l : list image) (i : string) :
  In i (deleted_ids (snd (prune_loop c l))) -> In i (map image_id l).
Proof.
  revert c. induction l as [|x l IH]; intros c; cbn [prune_loop]; [intros []|].
  destruct (delete_image c (image_id x)) as [o c1]. destruct o.
  - destruct (prune_loop c1 l) as [[r c2] t] eqn:E. cbn. intros [->|Hi]; [left; reflexivity|].
    right. apply (IH c1). rewrite E. exact Hi.
  - cbn. intros [->|[]]. left. reflexivity.
  - cbn. intros [->|[]]. left. reflexivity.
Qed.

Lemma slice_named (c : cloud) (nm : string) (k : Z) (i : string) :
  In i (map image_id (py_slice_from k (sort_desc (search_images c nm)))) ->
  In i (map image_id (search_images c nm)).
Proof.
  intros Hi. apply in_map_iff in Hi as (x & <- & Hx). apply in_map.
  apply py_slice_in in Hx. exact (Permutation_in _ (sort_desc_perm _) Hx).
Qed.

Lemma deleted_ids_app (t1 t2 : list call) : deleted_ids (t1 ++ t2) = deleted_ids t1 ++ deleted_ids t2.
Proof. unfold deleted_ids. apply flat_map_app. Qed.

(** Pruning deletes only images of the name it searched for: every id
    that [_prune_old_images] of store.py, [_prune_old_images] of
    upload.py or [OpenstackManager.upload_image] passes to
    [delete_image] is the id of an image of that name, whatever the
    registry answers. *)
Theorem prune_deletes_only_named (c : cloud) (nm : string) (k n : Z) :
  (let '(_, _, t) := Store._prune_old_images c nm k in
   forall i, In i (deleted_ids t) -> In i (map image_id (search_images c nm))) /\
  (let '(_, _, t) := Upload._prune_old_images c nm k in
   forall i, In i (deleted_ids t) -> In i (map image_id (search_images c nm))) /\
  (let '(_, _, t) := Upload.upload_image c nm n in
   forall i, In i (deleted_ids t) -> In i (map image_id (search_images c nm))).
Proof.
  assert (Hup : forall k, let '(_, _, t) := Upload._prune_old_images c nm k in
            forall i, In i (deleted_ids t) -> In i (map image_id (search_images c nm))).
  { intros k0. unfold Upload._prune_old_images, Upload._get_images_by_latest.
    destruct (search_fails c); [intros i []|].
    pose proof (upload_loop_attempts_all c (py_slice_from k0 (sort_desc (search_images c nm)))) as [Hd _].
    destruct (Upload.prune_loop c _) as [c2 t2]. cbn [snd] in Hd.
    intros i Hi. change (In i (deleted_ids t2)) in Hi. rewrite Hd in Hi. exact (slice_named _ _ _ _ Hi). }
  split; [|split; [exact (Hup k)|]].
  - unfold Store._prune_old_images, _get_sorted_images_by_created_at.
    destruct (search_fails c); [intros i []|].
    destruct (sort_desc (search_images c nm)) as [|x l] eqn:Es; [intros i []|].
    pose proof (store_loop_deleted_in c (py_slice_from k (x :: l))) as Hd.
    destruct (prune_loop c (py_slice_from k (x :: l))) as [[r c2] t2]. cbn [snd] in Hd.
    intros i Hi. change (In i (deleted_ids t2)) in Hi. apply Hd in Hi. rewrite <- Es in Hi. exact (slice_named _ _ _ _ Hi).
  - unfold Upload.upload_image. pose proof (Hup (n - 1)%Z) as H.
    destruct (Upload._prune_old_images c nm (n - 1)) as [[[u|e] c1] t1]; [|exact H].
    destruct (create_image c1 nm) as [[r c2] t2] eqn:Ec.
    assert (Ht2 : deleted_ids t2 = []).
    { unfold create_image in Ec. destruct (create_fails c1); injection Ec as _ _ <-; reflexivity. }
    destruct r; intros i Hi; rewrite deleted_ids_app, Ht2, app_nil_r in Hi; exact (H i Hi).
Qed.

Lemma slice_beyond (k : Z) (l : list image) :
  (Z.of_nat (length l) <= k)%Z -> py_slice_from k l = [].
Proof.
  intros Hk. unfold py_slice_from.
  replace (0 <=? k)%Z with true by (symmetry; apply Z.leb_le; lia).
  apply skipn_all2. lia.
Qed.

(** With at most [k] images of the name, pruning to [k] revisions deletes
    nothing and leaves the registry as it was, in both modules; the
    manager with [num_revisions = k + 1] then only creates the new
    image. *)
Theorem prune_within_retention (c : cloud) (nm : string) (k : Z) :
  search_fails c = false -> (Z.of_nat (length (search_images c nm)) <= k)%Z ->
  Store._prune_old_images c nm k = (Ok tt, c, [CSearch nm]) /\
  Upload._prune_old_images c nm k = (Ok tt, c, [CSearch nm]) /\
  (create_fails c = false ->
   Upload.upload_image c nm (k + 1) =
     (Ok (next_id c), add_image c {| image_id := next_id c; image_name := nm; created_at := now c |},
      [CSearch nm; CCreate nm])).
Proof.
  intros Hs Hk.
  assert (Hsl : py_slice_from k (sort_desc (search_images c nm)) = []).
  { apply slice_beyond. rewrite (Permutation_length (sort_desc_perm _)). exact Hk. }
  assert (Hu : Upload._prune_old_images c nm k = (Ok tt, c, [CSearch nm])).
  { unfold Upload._prune_old_images, Upload._get_images_by_latest. rewrite Hs, Hsl. reflexivity. }
  split; [|split; [exact Hu|]].
  - rewrite prune_old_images_eq by exact Hs. rewrite Hsl. reflexivity.
  - intros Hc. unfold Upload.upload_image. replace (k + 1 - 1)%Z with k by lia.
    rewrite Hu. unfold create_image. rewrite Hc. reflexivity.
Qed.

(** When [search_images] raises: store.py's [_prune_old_images] and
    [get_latest_build_id] raise [OpenstackError] and delete nothing, and
    its [upload_image] has already created the image but raises that
    [OpenstackError] (not caught as [UploadImageError]) without returning
    the id; the manager of upload.py raises [OpenstackConnectionError]
    before creating anything. *)
Theorem search_failure (c : cloud) (nm : string) (k n : Z) :
  search_fails c = true ->
  let err := Exn "OpenstackError" "" (Some OpenStackCloudException) in
  Store._prune_old_images c nm k = (Err err, c, [CSearch nm]) /\
  get_latest_build_id c nm = (Err err, c, [CSearch nm]) /\
  (create_fails c = false ->
   Store.upload_image c nm k =
     (Err err, add_image c {| image_id := next_id c; image_name := nm; created_at := now c |},
      [CCreate nm; CSearch nm])) /\
  Upload.upload_image c nm n =
    (Err (Exn "OpenstackConnectionError" "" (Some OpenStackCloudException)), c, [CSearch nm]).
Proof.
  intros Hs. cbv zeta.
  unfold Store._prune_old_images, get_latest_build_id, Store.upload_image, create_image,
    Upload.upload_image, Upload._prune_old_images, Upload._get_images_by_latest,
    _get_sorted_images_by_created_at.
  rewrite Hs. split; [reflexivity|]. split; [reflexivity|]. split; [|reflexivity].
  intros Hc. unfold Store.upload_image, create_image. rewrite Hc.
  unfold Store._prune_old_images, _get_sorted_images_by_created_at. cbn [search_fails add_image].
  rewrite Hs. reflexivity.
Qed.

Lemma none_named_left (l : list image) (xs : list image) (nm : string) :
  (forall x, In x xs -> image_name x = nm -> In x l) ->
  List.filter (fun i => String.eqb (image_name i) nm) (List.filter (kept l) xs) = [].
Proof.
  intros H. apply filter_none. intros x Hx. apply filter_In in Hx as [Hx Hk].
  destruct (String.eqb_spec (image_name x) nm) as [Hn|]; [|reflexivity].
  rewrite (kept_in l x (H x Hx Hn)) in Hk. discriminate.
Qed.

(** [upload_image] of store.py with [keep_revisions = 0]: the search made
    after the creation finds the new image too, and the slice [images[0:]]
    deletes it with every other image of the name; when the deletions
    succeed the call still returns the new id, although no image of that
    name, and no image with that id, is left. *)
Theorem store_upload_keep_zero (c : cloud) (nm : string) :
  search_fails c = false -> create_fails c = false ->
  (forall i, In i (images c) -> image_name i = nm -> delete_image_result c (image_id i) = Deleted) ->
  delete_image_result c (next_id c) = Deleted ->
  let '(r, c', _) := Store.upload_image c nm 0 in
  r = Ok (next_id c) /\ search_images c' nm = [] /\ ~ In (next_id c) (map image_id (images c')).
Proof.
  intros Hs Hc Hdel Hnew.
  set (x0 := {| image_id := next_id c; image_name := nm; created_at := now c |}).
  set (c1 := add_image c x0).
  set (l := sort_desc (search_images c1 nm)).
  assert (Hin : forall x, In x (images c1) -> image_name x = nm -> In x l).
  { intros x Hx Hn. apply (Permutation_in _ (Permutation_sym (sort_desc_perm _))).
    unfold search_images. apply filter_In. split; [exact Hx | apply String.eqb_eq, Hn]. }
  assert (Hx0 : In x0 l) by (apply Hin; [apply in_or_app; right; left; reflexivity | reflexivity]).
  destruct (store_loop_all_deleted c1 l) as (c' & E & Hi & _).
  { intros i Hi. apply (Permutation_in _ (sort_desc_perm _)) in Hi.
    unfold search_images in Hi. apply filter_In in Hi as [Hi Hn]. apply String.eqb_eq in Hn.
    cbn [images add_image c1] in Hi. apply in_app_or in Hi as [Hi|[<-|[]]].
    - exact (Hdel i Hi Hn).
    - exact Hnew. }
  unfold Store.upload_image, create_image. rewrite Hc. fold x0 c1.
  rewrite prune_old_images_eq by exact Hs. fold l.
  assert (Hsl : py_slice_from 0 l = l) by reflexivity. rewrite Hsl, E.
  split; [reflexivity|]. split.
  - unfold search_images. rewrite Hi. apply none_named_left, Hin.
  - intros Hm. apply in_map_iff in Hm as (x & Hid & Hx). rewrite Hi in Hx.
    apply filter_In in Hx as [_ Hk]. apply kept_spec in Hk. apply Hk. rewrite Hid.
    change (next_id c) with (image_id x0). apply in_map, Hx0.
Qed.

(** When [create_image] raises: [upload_image] of store.py raises
    [UploadImageError] at once, having searched and deleted nothing;
    [OpenstackManager.upload_image] raises [UploadImageError] too, but
    only after its pruning, which has already attempted the deletions of
    [images[num_revisions - 1:]]; with [num_revisions = 1] and every
    deletion succeeding, no image of that name is left. *)
Theorem create_failure (c : cloud) (nm : string) (k n : Z) :
  create_fails c = true ->
  Store.upload_image c nm k = (Err UploadImageError, c, [CCreate nm]) /\
  (search_fails c = false ->
   let s := sort_desc (search_images c nm) in
   let '(r, c', tr) := Upload.upload_image c nm n in
   r = Err UploadImageError /\
   (exists lg, tr = CSearch nm :: lg ++ [CCreate nm] /\
      deleted_ids lg = map image_id (py_slice_from (n - 1) s)) /\
   ((forall i, In i s -> delete_image_result c (image_id i) = Deleted) -> n = 1%Z ->
      search_images c' nm = [])).
Proof.
  intros Hc. split.
  { unfold Store.upload_image, create_image. rewrite Hc. reflexivity. }
  intros Hs. cbv zeta.
  set (s := sort_desc (search_images c nm)).
  unfold Upload.upload_image, Upload._prune_old_images, Upload._get_images_by_latest.
  rewrite Hs. fold s.
  pose proof (upload_loop_attempts_all c (py_slice_from (n - 1) s)) as [Hd Henv].
  pose proof (upload_loop_all_deleted c (py_slice_from (n - 1) s)) as Hkept.
  destruct (Upload.prune_loop c (py_slice_from (n - 1) s)) as [c2 t2] eqn:E.
  cbn [fst snd] in Hd, Henv, Hkept.
  destruct Henv as (_ & _ & Ec & _ & _).
  unfold create_image. rewrite Ec, Hc. cbn.
  split; [reflexivity|]. split; [exists t2; split; [reflexivity | exact Hd]|].
  intros Hdel ->.
  assert (Hsl : py_slice_from (1 - 1) s = s) by reflexivity. rewrite Hsl in Hkept.
  unfold search_images. rewrite (Hkept Hdel). apply none_named_left.
  intros x Hx Hn. apply (Permutation_in _ (Permutation_sym (sort_desc_perm _))).
  unfold search_images. apply filter_In. split; [exact Hx | apply String.eqb_eq, Hn].
Qed.

End RegistryFacts.

(* ------------------------------------------------------------------ *)
(** ** Concrete runs of the download, build and registry facts *)

Module MoreRuns.
Import Py Retry Shasums Host CleanupFacts PipelineFacts BuildFacts DownloadFacts PipelineRuns.

(** An [HTTPError] of urllib (a subclass of [URLError]) and a
    [ConnectionError] of requests (a subclass of [RequestException]). *)
Definition url_error : exn := Exn "HTTPError" "HTTP Error 404: Not Found" None.
Definition request_error : exn := Exn "ConnectionError" "" None.

(** A mirror that cannot be reached. *)
Definition unreachable_env : download_env :=
  {| urlretrieve_attempt := fun _ => Err url_error;
     requests_get_attempt := fun _ => Err request_error;
     downloaded_bytes := [] |}.

(** A mirror that serves the image but not its manifest. *)
Definition no_manifest_env : download_env :=
  {| urlretrieve_attempt := fun _ => Ok tt;
     requests_get_attempt := fun _ => Err request_error;
     downloaded_bytes := [] |}.

Lemma download_retries_exhausted_witness :
  (forall k, urlretrieve_attempt unreachable_env k = Err url_error) /\
  _download_and_validate_image X64 JAMMY unreachable_env =
    {| dl_result := Err (download_error url_error); download_attempts := 3; fetch_attempts := 0 |}.
Proof.
  split; [intros k; reflexivity|].
  apply (download_retries_exhausted X64 JAMMY unreachable_env (fun _ => url_error)).
  intros k. reflexivity.
Defined.

Lemma fetch_retries_exhausted_witness :
  urlretrieve_attempt no_manifest_env 0%nat = Ok tt /\
  (forall k, requests_get_attempt no_manifest_env k = Err request_error) /\
  _download_and_validate_image X64 JAMMY no_manifest_env =
    {| dl_result := Err (fetch_error request_error); download_attempts := 1; fetch_attempts := 3 |}.
Proof.
  split; [reflexivity|]. split; [intros k; reflexivity|].
  apply (fetch_retries_exhausted X64 JAMMY no_manifest_env (fun _ => request_error)).
  - reflexivity.
  - intros k. reflexivity.
Defined.

Lemma build_image_download_failure_witness :
  exists h1 tr1, clean_build_state healthy_host = (Ok tt, h1, tr1) /\
    dl_result (_download_and_validate_image X64 JAMMY unreachable_env) = Err (download_error url_error) /\
    build_image X64 JAMMY unreachable_env healthy_host =
      (Err (download_error url_error), h1, tr1 ++ [EMkdir IMAGE_MOUNT_DIR; EDownload]).
Proof.
  destruct (clean_build_state healthy_host) as [[r h1] tr1] eqn:E.
  assert (Hr : fst (fst (clean_build_state healthy_host)) = Ok tt) by (vm_compute; reflexivity).
  rewrite E in Hr. cbn in Hr. subst r.
  exists h1, tr1. split; [reflexivity|]. split; [vm_compute; reflexivity|].
  apply (build_image_download_failure X64 JAMMY unreachable_env healthy_host h1 tr1).
  - exact E.
  - vm_compute. reflexivity.
Defined.

End MoreRuns.

Module RegistryRuns.
Import Py Store StoreLemmas UploadFacts RegistryFacts StoreRuns.

(** [search_images] raises. *)
Definition search_down : cloud :=
  {| images := registry; search_fails := true; delete_image_result := fun _ => Deleted;
     create_fails := false; next_id := "img-new"; now := 10 |}.

(** [create_image] raises. *)
Definition create_down : cloud :=
  {| images := registry; search_fails := false; delete_image_result := fun _ => Deleted;
     create_fails := true; next_id := "img-new"; now := 10 |}.

Lemma prune_within_retention_witness :
  search_fails all_deleted = false /\
  (Z.of_nat (length (search_images all_deleted "runner")) <= 3)%Z /\
  Store._prune_old_images all_deleted "runner" 3 = (Ok tt, all_deleted, [CSearch "runner"]) /\
  Upload._prune_old_images all_deleted "runner" 3 = (Ok tt, all_deleted, [CSearch "runner"]) /\
  (create_fails all_deleted = false ->
   Upload.upload_image all_deleted "runner" (3 + 1) =
     (Ok (next_id all_deleted),
      add_image all_deleted {| image_id := next_id all_deleted; image_name := "runner";
                               created_at := now all_deleted |},
      [CSearch "runner"; CCreate "runner"])).
Proof.
  split; [reflexivity|]. split; [apply Z.leb_le; reflexivity|].
  apply (prune_within_retention all_deleted "runner" 3).
  - reflexivity.
  - apply Z.leb_le. reflexivity.
Defined.

Lemma search_failure_witness :
  search_fails search_down = true /\
  let err := Exn "OpenstackError" "" (Some OpenStackCloudException) in
  Store._prune_old_images search_down "runner" 1 = (Err err, search_down, [CSearch "runner"]) /\
  get_latest_build_id search_down "runner" = (Err err, search_down, [CSearch "runner"]) /\
  (create_fails search_down = false ->
   Store.upload_image search_down "runner" 1 =
     (Err err, add_image search_down {| image_id := next_id search_down; image_name := "runner";
                                        created_at := now search_down |},
      [CCreate "runner"; CSearch "runner"])) /\
  Upload.upload_image search_down "runner" 2 =
    (Err (Exn "OpenstackConnectionError" "" (Some OpenStackCloudException)), search_down,
     [CSearch "runner"]).
Proof.
  split; [reflexivity|].
  apply (search_failure search_down "runner" 1 2). reflexivity.
Defined.

Lemma store_upload_keep_zero_witness :
  search_fails all_deleted = false /\ create_fails all_deleted = false /\
  let '(r, c', _) := Store.upload_image all_deleted "runner" 0 in
  r = Ok (next_id all_deleted) /\ search_images c' "runner" = [] /\
  ~ In (next_id all_deleted) (map image_id (images c')).
Proof.
  split; [reflexivity|]. split; [reflexivity|].
  apply (store_upload_keep_zero all_deleted "runner").
  - reflexivity.
  - reflexivity.
  - intros i _ _. reflexivity.
  - reflexivity.
Defined.

Lemma create_failure_witness :
  create_fails create_down = true /\
  Store.upload_image create_down "runner" 1 = (Err UploadImageError, create_down, [CCreate "runner"]) /\
  (search_fails create_down = false ->
   let s := sort_desc (search_images create_down "runner") in
   let '(r, c', tr) := Upload.upload_image create_down "runner" 1 in
   r = Err UploadImageError /\
   (exists lg, tr = CSearch "runner" :: lg ++ [CCreate "runner"] /\
      deleted_ids lg = map image_id (py_slice_from (1 - 1) s)) /\
   ((forall i, In i s -> delete_image_result create_down (image_id i) = Deleted) -> 1%Z = 1%Z ->
      search_images c' "runner" = [])).
Proof.
  split; [reflexivity|].
  apply (create_failure create_down "runner" 1 1). reflexivity.
Defined.

End RegistryRuns.
